(** * DevTools: byte utilities, UUID generation and the HEX view

    A shallow embedding of the binary-data core of the DevTools site:
    [Utils.bytesToHex] / [Utils.hexToBytes], the [UUID] object
    (v3, v4, v5, parse, format) and the [HexView] component.

    Conventions of the embedding.
    - A JavaScript string is a [string]; a character stands for one code
      unit in the range 0..255.
    - A [Uint8Array] is a [list Z]; every store into it goes through
      [ToUint8], and a store outside the array is dropped, which is what
      stdpp's list insert does.
    - A Number that holds an integer is a [Z]; [NaN] is [None] where a
      primitive can produce it.
    - A call completes either normally or by throwing: [completion]. *)

From Stdlib Require Import ZArith Ascii String List Lia.
From stdpp Require Import base numbers list strings gmap pretty.

#[local] Arguments String.append : simpl nomatch.

Local Open Scope string_scope.
Local Open Scope list_scope.
Local Open Scope Z_scope.

(** ** Completions: a returned value or a thrown error *)

Inductive JsError : Type :=
  | Error (message : string)
  | RangeError (message : string)
  | ReferenceError (message : string)
  | QuotaExceededError (message : string).

Inductive completion (A : Type) : Type :=
  | Normal (value : A)
  | Throw (e : JsError).
Arguments Normal {A} value.
Arguments Throw {A} e.

Definition throws {A} (c : completion A) : Prop := ∃ e, c = Throw e.

(** ** JavaScript primitives used by the sources *)

Module Js.

(** [String.prototype.length], as an integer. *)
Definition len (s : string) : nat := String.length s.

(** The digit for a value below 16, as [Number.prototype.toString(16)]
    writes it. *)
Definition hexDigit (d : Z) : ascii :=
  match d with
  | 0 => "0" | 1 => "1" | 2 => "2" | 3 => "3" | 4 => "4" | 5 => "5"
  | 6 => "6" | 7 => "7" | 8 => "8" | 9 => "9" | 10 => "a" | 11 => "b"
  | 12 => "c" | 13 => "d" | 14 => "e" | _ => "f"
  end%char.

Fixpoint digits16 (fuel : nat) (n : Z) (acc : string) : string :=
  match fuel with
  | O => acc
  | S fuel' =>
      let acc' := String (hexDigit (n mod 16)) acc in
      if n / 16 =? 0 then acc' else digits16 fuel' (n / 16) acc'
  end.

(** [n.toString(16)] for an integer Number [n]. *)
Definition toString16 (n : Z) : string :=
  if n <? 0 then "-" +:+ digits16 (S (Z.to_nat (Z.log2 (- n)))) (- n) ""
  else digits16 (S (Z.to_nat (Z.log2 n))) n "".

Fixpoint repeatTo (fuel : nat) (pad cur : string) (n : nat) : string :=
  match fuel with
  | O => cur
  | S fuel' =>
      if (n <=? String.length cur)%nat then substring 0 n cur
      else repeatTo fuel' pad (cur +:+ pad) n
  end.

(** [s.padStart(targetLength, padString)]. *)
Definition padStart (s : string) (targetLength : nat) (padString : string) : string :=
  if (targetLength <=? String.length s)%nat then s
  else if (String.length padString =? 0)%nat then s
  else
    let fillLen := (targetLength - String.length s)%nat in
    repeatTo (S fillLen) padString "" fillLen +:+ s.

Definition upperChar (c : ascii) : ascii :=
  let n := N_of_ascii c in
  if ((97 <=? n) && (n <=? 122))%N then ascii_of_N (n - 32) else c.

(** [s.toUpperCase()]; the sources apply it to radix-16 numerals only,
    so the ASCII letters are all that matter. *)
Fixpoint toUpperCase (s : string) : string :=
  match s with
  | EmptyString => EmptyString
  | String c s' => String (upperChar c) (toUpperCase s')
  end.

(** [s.slice(from, to)] for non-negative integer arguments. *)
Definition slice (s : string) (from to : nat) : string :=
  substring from (to - from) s.

(** [s.substr(start, length)] for non-negative integer arguments. *)
Definition substr (s : string) (start length : nat) : string :=
  substring start length s.

(** White space and line terminators among the code units 0..255. *)
Definition isWhiteSpace (c : ascii) : bool :=
  match N_of_ascii c with
  | 9 | 10 | 11 | 12 | 13 | 32 | 160 => true
  | _ => false
  end%N.

Fixpoint trimStart (s : string) : string :=
  match s with
  | EmptyString => EmptyString
  | String c s' => if isWhiteSpace c then trimStart s' else s
  end.

(** The value of a character as a digit, in any radix up to 36. *)
Definition digitValue (c : ascii) : option Z :=
  let n := Z.of_N (N_of_ascii c) in
  if (48 <=? n) && (n <=? 57) then Some (n - 48)
  else if (97 <=? n) && (n <=? 122) then Some (n - 87)
  else if (65 <=? n) && (n <=? 90) then Some (n - 55)
  else None.

(** The value of the longest prefix of radix-[R] digits; [acc] is the
    value read so far, [None] while no digit has been read. *)
Fixpoint parseDigits (R : Z) (s : string) (acc : option Z) : option Z :=
  match s with
  | EmptyString => acc
  | String c s' =>
      match digitValue c with
      | Some d =>
          if d <? R then parseDigits R s' (Some (default 0 acc * R + d))
          else acc
      | None => acc
      end
  end.

Definition stripSign (s : string) : Z * string :=
  match s with
  | String "-" rest => (-1, rest)
  | String "+" rest => (1, rest)
  | _ => (1, s)
  end.

Definition stripHexPrefix (s : string) : string :=
  match s with
  | String "0" (String "x" rest) => rest
  | String "0" (String "X" rest) => rest
  | _ => s
  end.

(** [parseInt(string, radix)]; [None] is [NaN].  The value is exact,
    as the Number is for numerals of up to thirteen hex digits. *)
Definition parseInt (string : string) (radix : Z) : option Z :=
  let '(sign, rest) := stripSign (trimStart string) in
  if negb (radix =? 0) && ((radix <? 2) || (36 <? radix)) then None
  else
    let R := if radix =? 0 then 10 else radix in
    let stripPrefix := (radix =? 0) || (radix =? 16) in
    let '(R, rest) :=
      if stripPrefix && negb (String.eqb (stripHexPrefix rest) rest)
      then (16, stripHexPrefix rest) else (R, rest) in
    (λ n, sign * n) <$> parseDigits R rest None.

(** The conversion applied by a store into a [Uint8Array]. *)
Definition ToUint8 (v : option Z) : Z :=
  match v with
  | None => 0
  | Some n => n mod 256
  end.

(** [a[i]] read where the result feeds a bitwise operator: a missing
    element is [undefined], which such an operator reads as 0. *)
Definition at_ (a : list Z) (i : nat) : Z := default 0 (a !! i).

(** [new Uint8Array(length)]. *)
Definition newUint8Array (length : nat) : list Z := replicate length 0.

(** [a.slice(start, end)] of a typed array, with the relative
    (negative) indices and the clamping of the language. *)
Definition sliceArray (a : list Z) (start end_ : Z) : list Z :=
  let len := Z.of_nat (length a) in
  let k := if start <? 0 then Z.max (len + start) 0 else Z.min start len in
  let final := if end_ <? 0 then Z.max (len + end_) 0 else Z.min end_ len in
  take (Z.to_nat (final - k)) (drop (Z.to_nat k) a).

(** [String.fromCharCode(byte)] for a byte. *)
Definition fromCharCode (byte : Z) : string :=
  String (ascii_of_N (Z.to_N byte)) EmptyString.

End Js.

(** A byte: the element type of a [Uint8Array]. *)
Definition is_byte (b : Z) : Prop := 0 ≤ b < 256.
Definition bytes_ok (bs : list Z) : Prop := Forall is_byte bs.

(** ** Utils *)

Module Utils.

(** [new TextEncoder().encode(str)]: UTF-8 of the code units 0..255. *)
Definition encodeUnit (c : ascii) : list Z :=
  let n := Z.of_N (N_of_ascii c) in
  if n <? 128 then [n]
  else [Z.lor 192 (Z.shiftr n 6); Z.lor 128 (Z.land n 63)].

Fixpoint stringToBytes (str : string) : list Z :=
  match str with
  | EmptyString => []
  | String c rest => encodeUnit c ++ stringToBytes rest
  end.

(** [Array.from(bytes).map(b => b.toString(16).padStart(2, '0')).join('')] *)
Definition bytesToHex (bytes : list Z) : string :=
  String.concat "" (map (λ b, Js.padStart (Js.toString16 b) 2 "0") bytes).

(** The [for] loop of [hexToBytes]; [i] is the loop variable. *)
Fixpoint hexToBytes_loop (fuel : nat) (hex : string) (i : nat)
    (bytes : list Z) : list Z :=
  match fuel with
  | O => bytes
  | S fuel' =>
      if (i <? Js.len hex)%nat then
        hexToBytes_loop fuel' hex (i + 2)
          (<[ (i / 2)%nat := Js.ToUint8 (Js.parseInt (Js.substr hex i 2) 16) ]> bytes)
      else bytes
  end.

(** [hexToBytes(hex)].  [hex.length / 2] is truncated by the typed
    array constructor; the loop runs at most [hex.length] times. *)
Definition hexToBytes (hex : string) : completion (list Z) :=
  let bytes := Js.newUint8Array (Js.len hex / 2) in
  Normal (hexToBytes_loop (Js.len hex) hex 0 bytes).

End Utils.


(** ** The world the UUID functions run in

    [crypto.getRandomValues] draws from a source that advances with every
    call, and the global [CryptoJS] may or may not be defined.  The
    functions are state passing over a [World] and end in a
    [completion]; for an [async] function the completion is that of the
    promise it returns (fulfilled or rejected). *)

Record WordArray : Type := mkWordArray {
  words : list Z;
  sigBytes : nat
}.

Record CryptoJSLib : Type := mkCryptoJS {
  WordArray_create : list Z → WordArray;
  MD5 : WordArray → WordArray
}.

Record World : Type := mkWorld {
  randomSource : nat → Z;
  randomPos : nat;
  CryptoJS : option CryptoJSLib
}.

Definition M (A : Type) : Type := World → completion A * World.

Definition ret {A} (a : A) : M A := λ w, (Normal a, w).

Definition bind {A B} (m : M A) (k : A → M B) : M B :=
  λ w, match m w with
       | (Normal a, w') => k a w'
       | (Throw e, w') => (Throw e, w')
       end.

Definition throw {A} (e : JsError) : M A := λ w, (Throw e, w).

Definition lift {A} (c : completion A) : M A := λ w, (c, w).

Declare Scope js_scope.
Delimit Scope js_scope with js.
Notation "x <- m ;; k" := (bind m (λ x, k))
  (at level 100, m at next level, right associativity) : js_scope.

(** [typeof CryptoJS === 'undefined'] *)
Definition typeofCryptoJS_undefined : M bool :=
  λ w, (Normal (match CryptoJS w with None => true | Some _ => false end), w).

(** A read of the global [CryptoJS]; an undeclared global is a
    [ReferenceError]. *)
Definition globalCryptoJS : M CryptoJSLib :=
  λ w, match CryptoJS w with
       | Some lib => (Normal lib, w)
       | None => (Throw (ReferenceError "CryptoJS is not defined"), w)
       end.

(** [crypto.getRandomValues(bytes)]: every element is overwritten with the
    next value of the source, stored as a byte; more than 65536 bytes at
    once are refused. *)
Definition getRandomValues (bytes : list Z) : M (list Z) :=
  λ w,
    if 65536 <? Z.of_nat (length bytes)
    then (Throw (QuotaExceededError "The requested length exceeds 65536 bytes"), w)
    else
      (Normal (imap (λ i _, Js.ToUint8 (Some (randomSource w (randomPos w + i)%nat))) bytes),
       mkWorld (randomSource w) (randomPos w + length bytes)%nat (CryptoJS w)).

(** [target.set(source, offset)] of a typed array. *)
Definition setArray (target source : list Z) (offset : nat) : completion (list Z) :=
  if (length target <? offset + length source)%nat
  then Throw (RangeError "offset is out of bounds")
  else Normal (take offset target ++ source ++ drop (offset + length source)%nat target).

(** [Utils.getRandomBytes(length)] *)
Definition getRandomBytes (length : nat) : M (list Z) :=
  let bytes := Js.newUint8Array length in
  getRandomValues bytes.

(** ** Hash *)

Module Hash.
Section Digest.

(** [crypto.subtle.digest(algorithm, buffer)], the platform primitive. *)
Variable subtle_digest : string → list Z → completion (list Z).

Inductive data_arg : Type :=
  | DataString (s : string)
  | DataBytes (b : list Z).

Definition calculate (algorithm : string) (data : data_arg) : M (list Z) :=
  let buffer := match data with
                | DataString s => Utils.stringToBytes s
                | DataBytes b => b
                end in
  lift (subtle_digest algorithm buffer).

Definition sha1 (data : data_arg) : M (list Z) := calculate "SHA-1" data.

End Digest.
End Hash.

(** ** UUID *)

Module UUID.

(** [uuid.replace(/-/g, '')] *)
Fixpoint removeDashes (uuid : string) : string :=
  match uuid with
  | EmptyString => EmptyString
  | String c rest =>
      if Ascii.eqb c "-" then removeDashes rest else String c (removeDashes rest)
  end.

Definition parse (uuid : string) : completion (list Z) :=
  let hex := removeDashes uuid in
  Utils.hexToBytes hex.

Definition format (bytes : list Z) : string :=
  let hex := Utils.bytesToHex bytes in
  String.concat "-"
    [ Js.slice hex 0 8; Js.slice hex 8 12; Js.slice hex 12 16;
      Js.slice hex 16 20; Js.slice hex 20 32 ].

(** The element store [bytes[i] = v] on a [Uint8Array]. *)
Definition store (bytes : list Z) (i : nat) (v : Z) : list Z :=
  <[ i := Js.ToUint8 (Some v) ]> bytes.

Definition v4 : M string :=
  (bytes <- getRandomBytes 16 ;;
   let bytes := store bytes 6 (Z.lor (Z.land (Js.at_ bytes 6) 0x0f) 0x40) in
   let bytes := store bytes 8 (Z.lor (Z.land (Js.at_ bytes 8) 0x3f) 0x80) in
   ret (format bytes))%js.

(** [(words[i >>> 2] >>> (24 - (i % 4) * 8)) & 0xff]; [>>>] reads its
    left operand as an unsigned 32-bit integer. *)
Definition wordByte (words : list Z) (i : nat) : Z :=
  Z.land
    (Z.shiftr (Js.at_ words (i / 4) mod 2 ^ 32) (24 - Z.of_nat (i mod 4) * 8))
    0xff.

Definition wordArrayToBytes (wordArray : WordArray) : list Z :=
  let words := words wordArray in
  let sigBytes := sigBytes wordArray in
  foldl (λ bytes i, store bytes i (wordByte words i))
        (Js.newUint8Array sigBytes) (seq 0 sigBytes).

Definition v3 (namespace name : string) : M string :=
  (undefined <- typeofCryptoJS_undefined ;;
   if undefined : bool then throw (Error "CryptoJS is required for UUID v3")
   else
     nsBytes <- lift (parse namespace) ;;
     let nameBytes := Utils.stringToBytes name in
     let combined := Js.newUint8Array (length nsBytes + length nameBytes) in
     combined <- lift (setArray combined nsBytes 0) ;;
     combined <- lift (setArray combined nameBytes (length nsBytes)) ;;
     lib <- globalCryptoJS ;;
     let wordArray := WordArray_create lib combined in
     let hash := MD5 lib wordArray in
     let bytes := wordArrayToBytes hash in
     let bytes := store bytes 6 (Z.lor (Z.land (Js.at_ bytes 6) 0x0f) 0x30) in
     let bytes := store bytes 8 (Z.lor (Z.land (Js.at_ bytes 8) 0x3f) 0x80) in
     ret (format bytes))%js.

Section Digest.

Variable subtle_digest : string → list Z → completion (list Z).

Definition v5 (namespace name : string) : M string :=
  (nsBytes <- lift (parse namespace) ;;
   let nameBytes := Utils.stringToBytes name in
   let combined := Js.newUint8Array (length nsBytes + length nameBytes) in
   combined <- lift (setArray combined nsBytes 0) ;;
   combined <- lift (setArray combined nameBytes (length nsBytes)) ;;
   hashBytes <- Hash.sha1 subtle_digest (Hash.DataBytes combined) ;;
   let bytes := Js.sliceArray hashBytes 0 16 in
   let bytes := store bytes 6 (Z.lor (Z.land (Js.at_ bytes 6) 0x0f) 0x50) in
   let bytes := store bytes 8 (Z.lor (Z.land (Js.at_ bytes 8) 0x3f) 0x80) in
   ret (format bytes))%js.

End Digest.

Definition NAMESPACE_DNS : string := "6ba7b810-9dad-11d1-80b4-00c04fd430c8".
Definition NAMESPACE_URL : string := "6ba7b811-9dad-11d1-80b4-00c04fd430c8".
Definition NAMESPACE_OID : string := "6ba7b812-9dad-11d1-80b4-00c04fd430c8".
Definition NAMESPACE_X500 : string := "6ba7b814-9dad-11d1-80b4-00c04fd430c8".

End UUID.

(** ** The DOM, as far as the HEX view touches it *)

Record Element : Type := mkElement {
  innerHTML : string;
  classList : list string
}.

Definition classList_add (cls : string) (e : Element) : Element :=
  mkElement (innerHTML e)
    (if bool_decide (cls ∈ classList e) then classList e else classList e ++ [cls]).

Definition set_innerHTML (html : string) (e : Element) : Element :=
  mkElement html (classList e).

(** Pieces of the template literals: a double quote, a line break, an
    indentation, a quoted attribute value, an indented line. *)
Definition dq : string := String (ascii_of_nat 34) EmptyString.
Definition nl : string := String (ascii_of_nat 10) EmptyString.

Fixpoint sp (n : nat) : string :=
  match n with
  | O => EmptyString
  | S n' => String " " (sp n')
  end.

Definition q (s : string) : string := dq +:+ s +:+ dq.
Definition line (indent : nat) (s : string) : string := nl +:+ sp indent +:+ s.

(** ** Values a caller can put into the options object *)

Inductive jsval : Type :=
  | JUndefined
  | JNull
  | JBool (b : bool)
  | JNumber (n : Z)
  | JNaN
  | JString (s : string)
  | JObject.

Definition ToBoolean (v : jsval) : bool :=
  match v with
  | JUndefined | JNull | JNaN => false
  | JBool b => b
  | JNumber n => negb (n =? 0)
  | JString s => negb (String.eqb s "")
  | JObject => true
  end.

(** [a || b] *)
Definition or_ (a b : jsval) : jsval := if ToBoolean a then a else b.

(** [a !== false] *)
Definition notFalse (a : jsval) : jsval :=
  JBool (match a with JBool false => false | _ => true end).

(** [o.k]: a missing property reads as [undefined]. *)
Definition prop (o : gmap string jsval) (k : string) : jsval :=
  default JUndefined (o !! k).

(** ** HexView *)

Module HexView.

Definition loc : Type := nat.

(** The options object as the rendering reads it: integer Numbers and
    booleans. *)
Record Options : Type := mkOptions {
  bytesPerRow : Z;
  showHeader : bool;
  showAscii : bool;
  maxRows : Z
}.

(** The fields of a [HexView]; [O] is the representation of
    [this.options], [data] refers to a [Uint8Array] of the heap. *)
Record Obj (O : Type) : Type := mkObj {
  container : Element;
  options : O;
  data : option loc;
  highlightedIndex : Z
}.
Arguments mkObj {O} _ _ _ _.
Arguments container {O} _.
Arguments options {O} _.
Arguments data {O} _.
Arguments highlightedIndex {O} _.

(** The typed arrays that exist, and the view. *)
Record State : Type := mkState {
  heap : gmap loc (list Z);
  this : Obj Options
}.

Inductive container_arg : Type :=
  | Selector (selector : string)
  | Node (element : option Element).

Inductive data_arg : Type :=
  | ArgString (s : string)
  | ArgArrayBuffer (buffer : loc)
  | ArgUint8Array (array : loc)
  | ArgOther.

(** The four defaulted properties of the object literal assigned to
    [this.options]. *)
Definition defaultedOptions (options : gmap string jsval) : gmap string jsval :=
  <[ "bytesPerRow" := or_ (prop options "bytesPerRow") (JNumber 16) ]>
  (<[ "showHeader" := notFalse (prop options "showHeader") ]>
  (<[ "showAscii" := notFalse (prop options "showAscii") ]>
  (<[ "maxRows" := or_ (prop options "maxRows") (JNumber 100) ]> ∅))).

(** The object literal itself: these properties, then the spread of
    [options] over them. *)
Definition constructorOptions (options : gmap string jsval) : gmap string jsval :=
  options ∪ defaultedOptions options.

(** The options object read as integer Numbers and booleans, when its
    four properties are of these types. *)
Definition typedOptions (o : gmap string jsval) : option Options :=
  match o !! "bytesPerRow", o !! "showHeader", o !! "showAscii", o !! "maxRows" with
  | Some (JNumber b), Some (JBool h), Some (JBool a), Some (JNumber m) =>
      Some (mkOptions b h a m)
  | _, _, _, _ => None
  end.

(** The markup of the first branch of [render]. *)
Definition emptyHTML : string :=
  line 10 ("<div class=" +:+ q "hex-view-header" +:+ ">") +:+
  line 12 "<span>HEX View</span>" +:+
  line 12 "<span>No data</span>" +:+
  line 10 "</div>" +:+
  line 10 ("<div class=" +:+ q "hex-view-content" +:+ ">") +:+
  line 12 ("<p style=" +:+ q "color: var(--color-text-muted); text-align: center; padding: 2rem;" +:+ ">") +:+
  line 14 "No data to display" +:+
  line 12 "</p>" +:+
  line 10 "</div>" +:+
  line 8 "".

Definition byteToAscii (byte : Z) : string :=
  if (32 <=? byte) && (byte <=? 126) then
    if byte =? 60 then "&lt;"
    else if byte =? 62 then "&gt;"
    else if byte =? 38 then "&amp;"
    else Js.fromCharCode byte
  else ".".

(** One turn of the hex column loop of [renderRow]. *)
Definition hexCell (offset : Z) (bytes : list Z) (hexHtml : string) (i : Z) : string :=
  let hexHtml :=
    if i <? Z.of_nat (length bytes) then
      let byte := Js.at_ bytes (Z.to_nat i) in
      let hex := Js.padStart (Js.toUpperCase (Js.toString16 byte)) 2 "0" in
      hexHtml +:+ "<span class=" +:+ q "hex-byte" +:+ " data-index=" +:+
        q (pretty (offset + i)) +:+ ">" +:+ hex +:+ "</span>"
    else
      hexHtml +:+ "<span class=" +:+ q "hex-byte" +:+ ">&nbsp;&nbsp;</span>" in
  if i =? 7 then hexHtml +:+ "&nbsp;" else hexHtml.

(** One turn of the ASCII column loop of [renderRow]. *)
Definition asciiCell (offset : Z) (bytes : list Z) (asciiHtml : string) (i : Z) : string :=
  let byte := Js.at_ bytes (Z.to_nat i) in
  let char := byteToAscii byte in
  let isPrintable := (32 <=? byte) && (byte <=? 126) in
  asciiHtml +:+ "<span class=" +:+
    q ("hex-ascii-char" +:+ (if isPrintable then "" else " non-printable")) +:+
    " data-index=" +:+ q (pretty (offset + i)) +:+ ">" +:+ char +:+ "</span>".

Definition renderRow (o : Options) (offset : Z) (bytes : list Z) : string :=
  let offsetHex := Js.padStart (Js.toUpperCase (Js.toString16 offset)) 8 "0" in
  let hexHtml := foldl (hexCell offset bytes) "" (seqZ 0 (bytesPerRow o)) in
  let asciiHtml :=
    if showAscii o
    then foldl (asciiCell offset bytes) "" (seqZ 0 (Z.of_nat (length bytes)))
    else "" in
  line 8 ("<div class=" +:+ q "hex-row" +:+ ">") +:+
  line 10 ("<span class=" +:+ q "hex-offset" +:+ ">" +:+ offsetHex +:+ "</span>") +:+
  line 10 ("<span class=" +:+ q "hex-bytes" +:+ ">" +:+ hexHtml +:+ "</span>") +:+
  line 10 (if showAscii o
           then "<span class=" +:+ q "hex-ascii" +:+ ">" +:+ asciiHtml +:+ "</span>"
           else "") +:+
  line 8 "</div>" +:+
  line 6 "".

(** The row loop of [render]: [offset] is the loop variable, [html] the
    markup so far.  [None]: the loop is still running when the fuel is
    spent. *)
Fixpoint renderLoop (fuel : nat) (o : Options) (data : list Z)
    (displayBytes offset : Z) (html : string) : option string :=
  match fuel with
  | O => if offset <? displayBytes then None else Some html
  | S fuel' =>
      if offset <? displayBytes then
        let rowBytes :=
          Js.sliceArray data offset (Z.min (offset + bytesPerRow o) displayBytes) in
        renderLoop fuel' o data displayBytes (offset + bytesPerRow o)
          (html +:+ renderRow o offset rowBytes)
      else Some html
  end.

Section Methods.

(** [formatSize] computes with floating point logarithms; the rendering
    only splices its result into the header. *)
Variable formatSize : Z → string.

(** [document.querySelector] *)
Variable querySelector : string → option Element.

Definition headerHTML (totalBytes : Z) (truncated : bool) : string :=
  line 10 ("<div class=" +:+ q "hex-view-header" +:+ ">") +:+
  line 12 "<span>HEX View</span>" +:+
  line 12 ("<span>" +:+ formatSize totalBytes +:+
           (if truncated then " (truncated)" else "") +:+ "</span>") +:+
  line 10 "</div>" +:+
  line 8 "".

Definition truncationHTML (omitted : Z) : string :=
  line 10 ("<div class=" +:+ q "hex-row" +:+ " style=" +:+
           q "color: var(--color-text-muted); font-style: italic;" +:+ ">") +:+
  line 12 ("... " +:+ pretty omitted +:+ " more bytes ...") +:+
  line 10 "</div>" +:+
  line 8 "".

Definition setContainerHTML (html : string) (st : State) : State :=
  let self := this st in
  mkState (heap st)
    (mkObj (set_innerHTML html (container self)) (options self) (data self)
       (highlightedIndex self)).

Definition setDataField (d : option loc) (st : State) : State :=
  let self := this st in
  mkState (heap st)
    (mkObj (container self) (options self) d (highlightedIndex self)).

(** The bytes [this.data] refers to; [None] when [this.data] is [null]. *)
Definition dataBytes (st : State) : option (list Z) :=
  match data (this st) with
  | None => None
  | Some l => Some (default [] (heap st !! l))
  end.

(** [render()].  The loop gets one unit of fuel per byte and one to
    leave; [bindEvents] only registers listeners, which are not part of
    the state. *)
Definition render (st : State) : option State :=
  let o := options (this st) in
  match dataBytes st with
  | None => Some (setContainerHTML emptyHTML st)
  | Some bytes =>
      if (length bytes =? 0)%nat then Some (setContainerHTML emptyHTML st)
      else
        let totalBytes := Z.of_nat (length bytes) in
        let displayBytes := Z.min totalBytes (bytesPerRow o * maxRows o) in
        let truncated := displayBytes <? totalBytes in
        let html := "" in
        let html :=
          if showHeader o then html +:+ headerHTML totalBytes truncated else html in
        let html := html +:+ "<div class=" +:+ q "hex-view-content" +:+ ">" in
        match renderLoop (S (length bytes)) o bytes displayBytes 0 html with
        | None => None
        | Some html =>
            let html :=
              if truncated then html +:+ truncationHTML (totalBytes - displayBytes)
              else html in
            let html := html +:+ "</div>" in
            Some (setContainerHTML html st)
        end
  end.

Definition setData (d : data_arg) (st : State) : option State :=
  let st :=
    match d with
    | ArgString s =>
        let l := fresh (dom (heap st)) in
        setDataField (Some l)
          (mkState (<[ l := Utils.stringToBytes s ]> (heap st)) (this st))
    | ArgArrayBuffer buffer => setDataField (Some buffer) st
    | ArgUint8Array array => setDataField (Some array) st
    | ArgOther => setDataField None st
    end in
  render st.

Definition clear (st : State) : option State :=
  render (setDataField None st).

Definition getData (st : State) : option loc := data (this st).

Definition getHexString (st : State) : string :=
  match dataBytes st with
  | None => ""
  | Some bytes =>
      String.concat "" (map (λ b, Js.padStart (Js.toString16 b) 2 "0") bytes)
  end.

(** [new HexView(container, options)]; [options] is [None] when the
    argument is left out.  [init] adds the class and renders, and with
    [this.data] still [null] that is the first branch of [render]. *)
Definition constructor (container : container_arg)
    (options : option (gmap string jsval)) : completion (Obj (gmap string jsval)) :=
  let options := default ∅ options in
  let container :=
    match container with
    | Selector s => querySelector s
    | Node e => e
    end in
  match container with
  | None => Throw (Error "HexView: Container element not found")
  | Some c =>
      let c := classList_add "hex-view" c in
      let c := set_innerHTML emptyHTML c in
      Normal (mkObj c (constructorOptions options) None (-1))
  end.

End Methods.

End HexView.

(** ** The specification's vocabulary

    Definitions that follow the words of the specification; the theorems
    below compare the functions above with them. *)

Module Spec.

(** Two lowercase hex digits for a byte. *)
Definition hexPair (b : Z) : string :=
  String (Js.hexDigit (b / 16)) (String (Js.hexDigit (b mod 16)) EmptyString).

(** The digits of every byte, in order. *)
Fixpoint hexOf (bs : list Z) : string :=
  match bs with
  | [] => EmptyString
  | b :: rest => hexPair b +:+ hexOf rest
  end.

(** The value of a character as a hex digit. *)
Definition hexValue (c : ascii) : option Z :=
  match Js.digitValue c with
  | Some d => if d <? 16 then Some d else None
  | None => None
  end.

(** The pair of characters that decodes into byte [k]. *)
Definition pairAt (hex : string) (k : nat) : string := Js.substr hex (2 * k) 2.

(** What a store of that pair, parsed in base 16, leaves in the array. *)
Definition decodePair (hex : string) (k : nat) : Z :=
  Js.ToUint8 (Js.parseInt (pairAt hex k) 16).

(** The [n]-th hex digit of a UUID text, counted from 1 and not counting
    the separators. *)
Definition hexDigitAt (uuid : string) (n : nat) : option ascii :=
  String.get (n - 1) (UUID.removeDashes uuid).

(** Version and variant stamping, as the specification writes it:
    [b[6] = (b[6] & 0x0F) | (version << 4)], [b[8] = (b[8] & 0x3F) | 0x80]. *)
Definition stamp (version : Z) (b : list Z) : list Z :=
  let b := <[ 6%nat := Z.lor (Z.land (Js.at_ b 6) 0x0F) (Z.shiftl version 4) ]> b in
  <[ 8%nat := Z.lor (Z.land (Js.at_ b 8) 0x3F) 0x80 ]> b.

(** [uuid] is the text of sixteen raw bytes stamped with [version]: the
    high nibble of byte 6 is the version and the two high bits of byte 8
    are 10, and so are the 13th hex digit and the top two bits of the
    17th. *)
Definition stamped (version : Z) (uuid : string) : Prop :=
  ∃ raw : list Z,
    length raw = 16%nat ∧ bytes_ok raw
    ∧ uuid = UUID.format (stamp version raw)
    ∧ Z.shiftr (Js.at_ (stamp version raw) 6) 4 = version
    ∧ Z.shiftr (Js.at_ (stamp version raw) 8) 6 = 2
    ∧ hexDigitAt uuid 13 = Some (Js.hexDigit version)
    ∧ ∃ d, hexDigitAt uuid 17 = Some (Js.hexDigit d) ∧ Z.shiftr d 2 = 2.

(** Consecutive chunks of [n] elements; the last one may be shorter. *)
Fixpoint chunksFuel (fuel n : nat) (l : list Z) : list (list Z) :=
  match fuel with
  | O => []
  | S fuel' =>
      match l with
      | [] => []
      | _ => take n l :: chunksFuel fuel' n (drop n l)
      end
  end.

Definition chunks (n : nat) (l : list Z) : list (list Z) :=
  chunksFuel (length l) n l.

Record RowView : Type := mkRow {
  offset : Z;
  bytes : list Z
}.

Definition displayedLength (totalLength bytesPerRow maxRows : Z) : Z :=
  Z.min totalLength (bytesPerRow * maxRows).

(** Rows for consecutive chunks, each with the index of its first byte. *)
Fixpoint rowsFrom (bytesPerRow offset : Z) (chunks : list (list Z)) : list RowView :=
  match chunks with
  | [] => []
  | c :: rest => mkRow offset c :: rowsFrom bytesPerRow (offset + bytesPerRow) rest
  end.

(** The rows of the view of [buf]: the chunks of its displayed prefix. *)
Definition rows (bytesPerRow maxRows : Z) (buf : list Z) : list RowView :=
  let displayed :=
    Z.to_nat (displayedLength (Z.of_nat (length buf)) bytesPerRow maxRows) in
  rowsFrom bytesPerRow 0 (chunks (Z.to_nat bytesPerRow) (take displayed buf)).

(** The markup of a sequence of rows. *)
Definition rowsHTML (o : HexView.Options) (rs : list RowView) : string :=
  String.concat "" (map (λ r, HexView.renderRow o (offset r) (bytes r)) rs).

(** The markup of a view with data: the header when it is shown, the
    content with the rows, the truncation marker when bytes are left
    out. *)
Definition markup (formatSize : Z → string) (o : HexView.Options)
    (totalLength displayed : Z) (rs : list RowView) : string :=
  (if HexView.showHeader o
   then HexView.headerHTML formatSize totalLength (displayed <? totalLength)
   else "") +:+
  ("<div class=" +:+ q "hex-view-content" +:+ ">") +:+
  rowsHTML o rs +:+
  (if displayed <? totalLength
   then HexView.truncationHTML (totalLength - displayed)
   else "") +:+
  "</div>".


(** A valid [uint] among the values of the options object. *)
Definition validUint (v : jsval) : bool :=
  match v with
  | JNumber n => 0 <=? n
  | _ => false
  end.

(** The check that two hex digits parse to sixteen times the first plus
    the second, for the enumeration of all pairs of characters. *)
Definition pairParses (c1 c2 : ascii) : bool :=
  match hexValue c1, hexValue c2 with
  | Some d1, Some d2 =>
      bool_decide (Js.parseInt (String c1 (String c2 EmptyString)) 16 = Some (16 * d1 + d2))
      && bool_decide (0 ≤ 16 * d1 + d2 < 256)
  | _, _ => true
  end.

(** [s] contains [sub]. *)
Fixpoint includes (s sub : string) : bool :=
  String.prefix sub s ||
  match s with
  | EmptyString => false
  | String _ rest => includes rest sub
  end.

End Spec.

(** * Further components *)

(** ** More primitives: character codes, replacement, btoa and atob *)

Module Js2.

(** [s.charCodeAt(i)] for every [i], in order. *)
Fixpoint charCodes (s : string) : list Z :=
  match s with
  | EmptyString => []
  | String c rest => Z.of_N (N_of_ascii c) :: charCodes rest
  end.

(** [s.replace(/c/g, d)] for single characters [c] and [d]. *)
Fixpoint replaceChar (c d : ascii) (s : string) : string :=
  match s with
  | EmptyString => EmptyString
  | String x rest =>
      String (if Ascii.eqb x c then d else x) (replaceChar c d rest)
  end.

(** [s.replace(/c/g, '')] for a single character [c]. *)
Fixpoint removeChar (c : ascii) (s : string) : string :=
  match s with
  | EmptyString => EmptyString
  | String x rest =>
      if Ascii.eqb x c then removeChar c rest else String x (removeChar c rest)
  end.

(** [s.endsWith(search)] *)
Definition endsWith (s search : string) : bool :=
  let len := String.length s in
  let n := String.length search in
  if (len <? n)%nat then false
  else String.eqb (substring (len - n) n s) search.

(** The Base64 alphabet of [btoa] and [atob]. *)
Definition alphabet : string :=
  "ABCDEFGHIJKLMNOPQRSTUVWXYZabcdefghijklmnopqrstuvwxyz0123456789+/".

Definition b64char (i : Z) : ascii :=
  default "A"%char (String.get (Z.to_nat i) alphabet).

Fixpoint indexIn (c : ascii) (s : string) (i : Z) : option Z :=
  match s with
  | EmptyString => None
  | String d rest => if Ascii.eqb c d then Some i else indexIn c rest (i + 1)
  end.

Definition b64index (c : ascii) : option Z := indexIn c alphabet 0.

(** Base64 of a byte sequence: four characters for three bytes, and a
    last group of one or two bytes padded with [=]. *)
Fixpoint b64encode (bs : list Z) : string :=
  match bs with
  | [] => EmptyString
  | [a] =>
      String (b64char (a / 4)) (String (b64char (a mod 4 * 16)) "==")
  | [a; b] =>
      String (b64char (a / 4))
        (String (b64char (a mod 4 * 16 + b / 16))
           (String (b64char (b mod 16 * 4)) "="))
  | a :: b :: c :: rest =>
      String (b64char (a / 4))
        (String (b64char (a mod 4 * 16 + b / 16))
           (String (b64char (b mod 16 * 4 + c / 64))
              (String (b64char (c mod 64)) (b64encode rest))))
  end.

(** [btoa(data)]; every code unit of this embedding is below 256, so the
    [InvalidCharacterError] of wider characters does not arise. *)
Definition btoa (data : string) : string := b64encode (charCodes data).

(** ASCII whitespace, which [atob] skips. *)
Definition isAsciiWhitespace (c : ascii) : bool :=
  match N_of_ascii c with
  | 9 | 10 | 12 | 13 | 32 => true
  | _ => false
  end%N.

Fixpoint removeWhitespace (s : string) : string :=
  match s with
  | EmptyString => EmptyString
  | String c rest =>
      if isAsciiWhitespace c then removeWhitespace rest
      else String c (removeWhitespace rest)
  end.

(** One or two [=] at the very end are removed. *)
Fixpoint stripPadding (s : string) : string :=
  match s with
  | EmptyString => EmptyString
  | String "=" EmptyString => EmptyString
  | String "=" (String "=" EmptyString) => EmptyString
  | String c rest => String c (stripPadding rest)
  end.

Definition isAlphabet (c : ascii) : bool :=
  match b64index c with Some _ => true | None => false end.

Fixpoint allAlphabet (s : string) : bool :=
  match s with
  | EmptyString => true
  | String c rest => isAlphabet c && allAlphabet rest
  end.

(** The decoding pass of [atob]: six bits per character into a buffer,
    three bytes out whenever it holds 24 bits; at the end 12 bits give
    one byte and 18 bits give two. *)
Fixpoint decodePass (s : string) (buffer : Z) (bits : nat) (output : list Z) : list Z :=
  match s with
  | EmptyString =>
      if (bits =? 12)%nat then output ++ [buffer / 16]
      else if (bits =? 18)%nat then output ++ [buffer / 4 / 256; buffer / 4 mod 256]
      else output
  | String c rest =>
      let buffer := buffer * 64 + default 0 (b64index c) in
      let bits := (bits + 6)%nat in
      if (bits =? 24)%nat then
        decodePass rest 0 0
          (output ++ [buffer / 65536; buffer / 256 mod 256; buffer mod 256])
      else decodePass rest buffer bits output
  end.

Fixpoint fromCharCodes (codes : list Z) : string :=
  match codes with
  | [] => EmptyString
  | c :: rest => String (ascii_of_N (Z.to_N c)) (fromCharCodes rest)
  end.

(** [atob(data)]: whitespace is skipped, padding of a text whose length
    is a multiple of four is dropped, and a remaining length of 1 modulo
    4 or a character outside the alphabet is an [InvalidCharacterError]
    (a [DOMException], represented by an [Error] that carries its name). *)
Definition atob (data : string) : completion string :=
  let data := removeWhitespace data in
  let data :=
    if (String.length data mod 4 =? 0)%nat then stripPadding data else data in
  if (String.length data mod 4 =? 1)%nat then
    Throw (Error "InvalidCharacterError")
  else if negb (allAlphabet data) then Throw (Error "InvalidCharacterError")
  else Normal (fromCharCodes (decodePass data 0 0 [])).

End Js2.

(** ** Base64 *)

Module Base64.

(** The loop [binary += String.fromCharCode(bytes[i])]. *)
Definition binaryOf (bytes : list Z) : string :=
  foldl (λ binary i, binary +:+ Js.fromCharCode (Js.at_ bytes i)) ""
        (seq 0 (length bytes)).

Definition encodeBytes (bytes : list Z) (urlSafe : bool) : string :=
  let binary := binaryOf bytes in
  let base64 := Js2.btoa binary in
  if urlSafe then
    Js2.removeChar "=" (Js2.replaceChar "/" "_" (Js2.replaceChar "+" "-" base64))
  else base64.

Definition encode (str : string) (urlSafe : bool) : string :=
  let bytes := Utils.stringToBytes str in
  encodeBytes bytes urlSafe.

(** The loop [while (base64.length % 4) base64 += '=']; it adds at most
    three characters. *)
Fixpoint padLoop (fuel : nat) (base64 : string) : string :=
  match fuel with
  | O => base64
  | S fuel' =>
      if (String.length base64 mod 4 =? 0)%nat then base64
      else padLoop fuel' (base64 +:+ "=")
  end.

(** The loop [bytes[i] = binary.charCodeAt(i)]. *)
Definition bytesOf (binary : string) : list Z :=
  let codes := Js2.charCodes binary in
  foldl (λ bytes i, <[ i := Js.ToUint8 (Some (Js.at_ codes i)) ]> bytes)
        (Js.newUint8Array (String.length binary))
        (seq 0 (String.length binary)).

Definition decodeToBytes (base64 : string) (urlSafe : bool) : completion (list Z) :=
  let base64 :=
    if urlSafe then
      padLoop 3 (Js2.replaceChar "_" "/" (Js2.replaceChar "-" "+" base64))
    else base64 in
  match Js2.atob base64 with
  | Throw e => Throw e
  | Normal binary => Normal (bytesOf binary)
  end.

End Base64.

(** ** ThemeManager *)

Module ThemeManager.

Definition STORAGE_KEY : string := "devtools-theme".
Definition LIGHT : string := "light".
Definition DARK : string := "dark".

(** The toggle button: its markup and its [aria-label]. *)
Record Button : Type := mkButton {
  buttonHTML : string;
  ariaLabel : option string
}.

(** What the theme code reads and writes: [localStorage], the
    [data-theme] attribute of the document element ([None]: not set) and
    the element [.theme-toggle] ([None]: the page has none). *)
Record Page : Type := mkPage {
  localStorage : gmap string string;
  dataTheme : option string;
  toggleButton : option Button
}.

Definition updateToggleButton (theme : string) (p : Page) : Page :=
  match toggleButton p with
  | None => p
  | Some _ =>
      mkPage (localStorage p) (dataTheme p)
        (Some (mkButton
                 (if String.eqb theme DARK then "&#9728;" else "&#9790;")
                 (Some (if String.eqb theme DARK then "Switch to light mode"
                        else "Switch to dark mode"))))
  end.

Definition setTheme (theme : string) (p : Page) : Page :=
  let p := mkPage (localStorage p) (Some theme) (toggleButton p) in
  let p := mkPage (<[ STORAGE_KEY := theme ]> (localStorage p)) (dataTheme p)
             (toggleButton p) in
  updateToggleButton theme p.

Definition toggle (p : Page) : Page :=
  let current := dataTheme p in
  let next :=
    match current with
    | Some c => if String.eqb c DARK then LIGHT else DARK
    | None => DARK
    end in
  setTheme next p.

(** [!localStorage.getItem(STORAGE_KEY)]: no entry, or an empty one. *)
Definition noSavedTheme (p : Page) : bool :=
  match localStorage p !! STORAGE_KEY with
  | None => true
  | Some s => String.eqb s ""
  end.

(** [init()]; [prefersDark] is what the media query
    [(prefers-color-scheme: dark)] matches at that moment. *)
Definition init (prefersDark : bool) (p : Page) : Page :=
  let theme :=
    if noSavedTheme p then (if prefersDark then DARK else LIGHT)
    else default "" (localStorage p !! STORAGE_KEY) in
  setTheme theme p.

(** The listener for a change of the system preference. *)
Definition onSystemChange (matches : bool) (p : Page) : Page :=
  if noSavedTheme p then setTheme (if matches then DARK else LIGHT) p else p.

(** What can happen after [init]: the theme is toggled (by the button or
    by a call), or the system preference changes. *)
Inductive event : Type :=
  | Toggle
  | SystemChange (matches : bool).

Definition step (p : Page) (e : event) : Page :=
  match e with
  | Toggle => toggle p
  | SystemChange m => onSystemChange m p
  end.

Definition run (es : list event) (p : Page) : Page := foldl step p es.

End ThemeManager.

(** ** Navigation *)

Module Navigation.

Record Link : Type := mkLink {
  href : option string;
  linkClasses : list string
}.

(** [s.replace(/^prefix/, '')] for a literal prefix. *)
Definition stripLeading (prefix s : string) : string :=
  if String.prefix prefix s
  then substring (String.length prefix) (String.length s - String.length prefix) s
  else s.

(** [href.replace(/^\.\.\//, '').replace(/^\.\//, '')] *)
Definition normalise (href : string) : string :=
  stripLeading "./" (stripLeading "../" href).

Definition addClass (cls : string) (classes : list string) : list string :=
  if bool_decide (cls ∈ classes) then classes else classes ++ [cls].

Definition visit (currentPath : string) (link : Link) : Link :=
  match href link with
  | None => link
  | Some h =>
      if negb (String.eqb h "") && Js2.endsWith currentPath (normalise h)
      then mkLink (href link) (addClass "active" (linkClasses link))
      else link
  end.

(** [init()] for the path of the page and its [.nav-link] elements. *)
Definition init (currentPath : string) (navLinks : list Link) : list Link :=
  map (visit currentPath) navLinks.

End Navigation.

(** ** Clipboard *)

Module Clipboard.

(** The nodes of the document are numbered as they are created.  The
    state holds the children of the body, the button that was passed
    (if any), the lines written to the console, and the pending timers
    of [showSuccess], each with the markup it will restore. *)
Record State : Type := mkState {
  nextNode : nat;
  body : list nat;
  button : option Element;
  console : list string;
  timers : list string
}.

Definition removeClass (cls : string) (classes : list string) : list string :=
  filter (λ c, c ≠ cls) classes.

(** [showSuccess(button)]: the markup read back from the button is
    taken to be the markup assigned to it. *)
Definition showSuccess (st : State) : State :=
  match button st with
  | None => st
  | Some btn =>
      let originalText := innerHTML btn in
      let btn := set_innerHTML "&#10003; Copied" btn in
      let btn := classList_add "copied" btn in
      mkState (nextNode st) (body st) (Some btn) (console st)
        (timers st ++ [originalText])
  end.


Section Platform.

(** [navigator.clipboard.writeText(text)], fulfilled or rejected (also
    when [navigator.clipboard] does not exist), and
    [document.execCommand('copy')], which returns a boolean or throws. *)
Variable writeText : string → completion unit.
Variable execCommand : completion bool.

Definition copy (text : string) (st : State) : completion bool * State :=
  match writeText text with
  | Normal _ => (Normal true, showSuccess st)
  | Throw _ =>
      let textarea := nextNode st in
      let st := mkState (S (nextNode st)) (body st) (button st) (console st) (timers st) in
      let st := mkState (nextNode st) (body st ++ [textarea]) (button st)
                  (console st) (timers st) in
      let '(result, st) :=
        match execCommand with
        | Normal _ => (Normal true, showSuccess st)
        | Throw e =>
            (Normal false,
             mkState (nextNode st) (body st) (button st)
               (console st ++ ["Copy failed:"]) (timers st))
        end in
      (result,
       mkState (nextNode st) (filter (λ n, n ≠ textarea) (body st)) (button st)
         (console st) (timers st))
  end.

End Platform.

End Clipboard.

(** ** FileUpload *)

Module FileUpload.

Record File : Type := mkFile {
  name : string;
  size : Z
}.

(** A call of one of the callbacks of the options. *)
Inductive callback : Type :=
  | OnFile (file : File) (data : list Z)
  | OnError (e : JsError).

(** The component after its construction: the option [maxSize], the
    fields [file] and [fileData], the elements [handleFile] and [clear]
    update, the error element of the container (its identity and its
    text, [None] when the container has none), the pending timers of
    [showError] (each with the element it will remove), the calls of the
    callbacks and the files handed to a [FileReader]. *)
Record State : Type := mkState {
  maxSize : Z;
  file : option File;
  fileData : option (list Z);
  inputValue : string;
  dropZoneClasses : list string;
  fileInfoClasses : list string;
  fileNameText : string;
  fileSizeText : string;
  nextElement : nat;
  errorEl : option (nat * string);
  errorTimers : list nat;
  calls : list callback;
  reads : list File
}.

Definition showError (message : string) (st : State) : State :=
  let '(el, next) :=
    match errorEl st with
    | Some (el, _) => (el, nextElement st)
    | None => (nextElement st, S (nextElement st))
    end in
  mkState (maxSize st) (file st) (fileData st) (inputValue st)
    (dropZoneClasses st) (fileInfoClasses st) (fileNameText st) (fileSizeText st)
    next (Some (el, message)) (errorTimers st ++ [el]) (calls st) (reads st).

(** The callback of the oldest pending timer of [showError] runs:
    [errorEl.remove()] for the element it holds. *)
Definition fireErrorTimer (st : State) : State :=
  match errorTimers st with
  | [] => st
  | el :: rest =>
      let shown :=
        match errorEl st with
        | Some (el', message) =>
            if Nat.eqb el el' then None else Some (el', message)
        | None => None
        end in
      mkState (maxSize st) (file st) (fileData st) (inputValue st)
        (dropZoneClasses st) (fileInfoClasses st) (fileNameText st)
        (fileSizeText st) (nextElement st) shown rest (calls st) (reads st)
  end.

Definition call (c : callback) (st : State) : State :=
  mkState (maxSize st) (file st) (fileData st) (inputValue st)
    (dropZoneClasses st) (fileInfoClasses st) (fileNameText st) (fileSizeText st)
    (nextElement st) (errorEl st) (errorTimers st) (calls st ++ [c]) (reads st).

Section Platform.

(** [formatSize] computes with floating point; [readAsArrayBuffer] is the
    outcome of the [FileReader] for a file; [onFile] and [onError] are
    the callbacks of the options, which may throw. *)
Variable formatSize : Z → string.
Variable readAsArrayBuffer : File → completion (list Z).
Variable onFile : option (File → list Z → completion unit).
Variable onError : option (JsError → completion unit).

Definition sizeError (f : File) (st : State) : string :=
  "File size (" +:+ formatSize (size f) +:+
  ") exceeds the maximum allowed size (" +:+ formatSize (maxSize st) +:+ ")".

(** [if (this.options.onError) this.options.onError(e)] *)
Definition reportError (e : JsError) (st : State) : completion unit * State :=
  match onError with
  | None => (Normal tt, st)
  | Some handler => (handler e, call (OnError e) st)
  end.

(** [handleFile(file)], run from its call to the settling of its
    promise, no other call of the component in between. *)
Definition handleFile (f : File) (st : State) : completion unit * State :=
  if maxSize st <? size f then
    let error := sizeError f st in
    reportError (Error error) (showError error st)
  else
    let st :=
      mkState (maxSize st) (Some f) (fileData st) (inputValue st)
        (Navigation.addClass "hidden" (dropZoneClasses st))
        (Clipboard.removeClass "hidden" (fileInfoClasses st))
        (name f) (formatSize (size f))
        (nextElement st) (errorEl st) (errorTimers st) (calls st)
        (reads st ++ [f]) in
    match readAsArrayBuffer f with
    | Normal data =>
        let st :=
          mkState (maxSize st) (file st) (Some data) (inputValue st)
            (dropZoneClasses st) (fileInfoClasses st) (fileNameText st)
            (fileSizeText st) (nextElement st) (errorEl st) (errorTimers st)
            (calls st) (reads st) in
        match onFile with
        | None => (Normal tt, st)
        | Some handler =>
            let st := call (OnFile f data) st in
            match handler f data with
            | Normal _ => (Normal tt, st)
            | Throw err => reportError err (showError "Failed to read file" st)
            end
        end
    | Throw err => reportError err (showError "Failed to read file" st)
    end.

End Platform.

Definition clear (st : State) : State :=
  mkState (maxSize st) None None ""
    (Clipboard.removeClass "hidden" (dropZoneClasses st))
    (Navigation.addClass "hidden" (fileInfoClasses st))
    (fileNameText st) (fileSizeText st) (nextElement st) (errorEl st)
    (errorTimers st) (calls st) (reads st).

Definition getFile (st : State) : option File := file st.

Definition getData (st : State) : option (list Z) := fileData st.

(** [getBytes()]: a byte view of the data, or [null]. *)
Definition getBytes (st : State) : option (list Z) :=
  match fileData st with
  | Some data => Some data
  | None => None
  end.

End FileUpload.

(** ** Utils.debounce *)

Module Debounce.

(** The closure of one debounced function and its timers: [pending]
    maps the identifier of a timer that has not fired to the arguments
    its callback will pass on, [timeout] is the variable of the closure,
    [invoked] lists the calls of the wrapped function; timers get their
    identifiers from [nextTimer]. *)
Record State (A : Type) : Type := mkState {
  nextTimer : nat;
  pending : gmap nat A;
  timeout : option nat;
  invoked : list A
}.
Arguments mkState {A} _ _ _ _.
Arguments nextTimer {A} _.
Arguments pending {A} _.
Arguments timeout {A} _.
Arguments invoked {A} _.

(** [clearTimeout(timeout)] *)
Definition clearTimeout {A} (id : option nat) (pending : gmap nat A) : gmap nat A :=
  match id with
  | None => pending
  | Some i => delete i pending
  end.

(** A call of the debounced function with [args]. *)
Definition executedFunction {A} (args : A) (st : State A) : State A :=
  let pending := clearTimeout (timeout st) (pending st) in
  let id := nextTimer st in
  mkState (S id) (<[ id := args ]> pending) (Some id) (invoked st).

(** The timer [id] fires, if it is still pending: [later] runs. *)
Definition fire {A} (id : nat) (st : State A) : State A :=
  match pending st !! id with
  | None => st
  | Some args =>
      let pending := delete id (pending st) in
      let pending := clearTimeout (timeout st) pending in
      mkState (nextTimer st) pending (timeout st) (invoked st ++ [args])
  end.

(** [debounce(func, wait)] was just called: no timer of the closure is
    pending and [timeout] is undefined. *)
Definition debounce {A} (nextTimer : nat) : State A :=
  mkState nextTimer ∅ None [].

(** What can happen to the closure: it is called, or a timer fires. *)
Inductive event (A : Type) : Type :=
  | Call (args : A)
  | Fire (id : nat).
Arguments Call {A} _.
Arguments Fire {A} _.

Definition step {A} (st : State A) (e : event A) : State A :=
  match e with
  | Call args => executedFunction args st
  | Fire id => fire id st
  end.

Definition run {A} (es : list (event A)) (st : State A) : State A :=
  foldl step st es.

End Debounce.

(** ** Vocabulary for the further properties *)

Module Props.

(** Base64 without its padding. *)
Fixpoint b64body (bs : list Z) : string :=
  match bs with
  | [] => EmptyString
  | [a] =>
      String (Js2.b64char (a / 4)) (String (Js2.b64char (a mod 4 * 16)) EmptyString)
  | [a; b] =>
      String (Js2.b64char (a / 4))
        (String (Js2.b64char (a mod 4 * 16 + b / 16))
           (String (Js2.b64char (b mod 16 * 4)) EmptyString))
  | a :: b :: c :: rest =>
      String (Js2.b64char (a / 4))
        (String (Js2.b64char (a mod 4 * 16 + b / 16))
           (String (Js2.b64char (b mod 16 * 4 + c / 64))
              (String (Js2.b64char (c mod 64)) (b64body rest))))
  end.

(** The two replacements of the URL-safe alphabet, and their inverses. *)
Definition urlChars (s : string) : string :=
  Js2.replaceChar "/" "_" (Js2.replaceChar "+" "-" s).

Definition stdChars (s : string) : string :=
  Js2.replaceChar "_" "/" (Js2.replaceChar "-" "+" s).

(** No character of [s] is [c]. *)
Fixpoint lacks (c : ascii) (s : string) : bool :=
  match s with
  | EmptyString => true
  | String x rest => negb (Ascii.eqb x c) && lacks c rest
  end.

(** The facts about a character of the alphabet that the Base64 proofs
    use, as one check for the enumeration of all characters: it is no
    whitespace and no padding, the URL-safe replacements turn it into a
    character other than [+], [/] and [=], and the inverse replacements
    bring it back. *)
Definition alphaCheck (c : ascii) : bool :=
  let c1 := if Ascii.eqb c "+" then "-"%char else c in
  let u := if Ascii.eqb c1 "/" then "_"%char else c1 in
  let u1 := if Ascii.eqb u "-" then "+"%char else u in
  let back := if Ascii.eqb u1 "_" then "/"%char else u1 in
  implb (Js2.isAlphabet c)
    (negb (Js2.isAsciiWhitespace c) && negb (Ascii.eqb c "=")
     && negb (Ascii.eqb u "=") && negb (Ascii.eqb u "+") && negb (Ascii.eqb u "/")
     && Ascii.eqb back c).

(** A character of the alphabet is neither [-] nor [_]. *)
Definition alphaCheck2 (c : ascii) : bool :=
  implb (Js2.isAlphabet c) (negb (Ascii.eqb c "-") && negb (Ascii.eqb c "_")).

(** The text shown for a byte is safe to splice into markup: one of the
    three entities, or a single character that is none of [<], [>] and
    [&]. *)
Definition htmlSafe (text : string) : bool :=
  String.eqb text "&lt;" || String.eqb text "&gt;" || String.eqb text "&amp;"
  || ((String.length text =? 1)%nat
      && lacks "<" text && lacks ">" text && lacks "&" text).

(** What a browser shows for the text of a byte of the ASCII column. *)
Definition unescape (text : string) : string :=
  if String.eqb text "&lt;" then "<"
  else if String.eqb text "&gt;" then ">"
  else if String.eqb text "&amp;" then "&"
  else text.

(** The page shows the theme [t]: the stored theme, the attribute and
    the toggle button (if there is one) agree on it. *)
Definition themeConsistent (t : string) (p : ThemeManager.Page) : Prop :=
  t ≠ "" ∧
  ThemeManager.localStorage p !! ThemeManager.STORAGE_KEY = Some t ∧
  ThemeManager.dataTheme p = Some t ∧
  ∀ btn, ThemeManager.toggleButton p = Some btn →
    ThemeManager.buttonHTML btn
      = (if String.eqb t ThemeManager.DARK then "&#9728;" else "&#9790;") ∧
    ThemeManager.ariaLabel btn
      = Some (if String.eqb t ThemeManager.DARK then "Switch to light mode"
              else "Switch to dark mode").

Definition isToggle (e : ThemeManager.event) : bool :=
  match e with
  | ThemeManager.Toggle => true
  | ThemeManager.SystemChange _ => false
  end.

(** [t] ends [s]. *)
Definition endsIn (s t : string) : Prop := ∃ pre, s = pre +:+ t.

(** At most one timer of a debounced function is pending, and it is
    the one the closure remembers. *)
Definition oneTimer {A} (st : Debounce.State A) : Prop :=
  Debounce.pending st = ∅ ∨
  ∃ id args, Debounce.pending st = {[ id := args ]} ∧ Debounce.timeout st = Some id.

End Props.

Example toString16_255 : Js.toString16 255 = "ff". Proof. reflexivity. Qed.
Example toString16_4096 : Js.toString16 4096 = "1000". Proof. reflexivity. Qed.
Example toString16_neg : Js.toString16 (-26) = "-1a". Proof. reflexivity. Qed.
Example padStart_7 : Js.padStart "7" 2 "0" = "07". Proof. reflexivity. Qed.
Example padStart_ab : Js.padStart "x" 6 "ab" = "ababax". Proof. reflexivity. Qed.
Example parseInt_ff : Js.parseInt "fF" 16 = Some 255. Proof. reflexivity. Qed.
Example parseInt_1g : Js.parseInt "1g" 16 = Some 1. Proof. reflexivity. Qed.
Example parseInt_g1 : Js.parseInt "g1" 16 = None. Proof. reflexivity. Qed.
Example parseInt_0x : Js.parseInt "0x" 16 = None. Proof. reflexivity. Qed.
Example parseInt_m1 : Js.parseInt "-1" 16 = Some (-1). Proof. reflexivity. Qed.
Example bytesToHex_ex : Utils.bytesToHex [0; 171; 16] = "00ab10". Proof. reflexivity. Qed.
Example hexToBytes_ex : Utils.hexToBytes "00ab10" = Normal [0; 171; 16]. Proof. reflexivity. Qed.
Example hexToBytes_odd : Utils.hexToBytes "abc" = Normal [171]. Proof. reflexivity. Qed.
Example hexToBytes_bad : Utils.hexToBytes "zz-1" = Normal [0; 255]. Proof. reflexivity. Qed.

(** * Proofs *)

(** ** Bytes, digits and pairs *)

Lemma byte_forall (P : Z → bool) :
  forallb P (seqZ 0 256) = true → ∀ b, is_byte b → P b = true.
Proof.
  intros Hall b [Hlo Hhi].
  rewrite forallb_forall in Hall. apply Hall.
  apply list_elem_of_In, elem_of_seqZ. lia.
Qed.

Lemma byte_toHex (b : Z) :
  is_byte b → Js.padStart (Js.toString16 b) 2 "0" = Spec.hexPair b.
Proof.
  intros Hb. apply String.eqb_eq. revert b Hb.
  apply (byte_forall (λ b, String.eqb (Js.padStart (Js.toString16 b) 2 "0") (Spec.hexPair b))).
  vm_compute. reflexivity.
Qed.

Lemma byte_toHex_upper (b : Z) :
  is_byte b →
  String.length (Js.padStart (Js.toUpperCase (Js.toString16 b)) 2 "0") = 2%nat.
Proof.
  intros Hb. apply Nat.eqb_eq. revert b Hb.
  apply (byte_forall (λ b, Nat.eqb (String.length (Js.padStart (Js.toUpperCase (Js.toString16 b)) 2 "0")) 2)).
  vm_compute. reflexivity.
Qed.

Lemma byte_parse (b : Z) :
  is_byte b → Js.ToUint8 (Js.parseInt (Spec.hexPair b) 16) = b.
Proof.
  intros Hb. apply Z.eqb_eq. revert b Hb.
  apply (byte_forall (λ b, Z.eqb (Js.ToUint8 (Js.parseInt (Spec.hexPair b) 16)) b)).
  vm_compute. reflexivity.
Qed.

Lemma ToUint8_byte (v : option Z) : is_byte (Js.ToUint8 v).
Proof.
  unfold is_byte, Js.ToUint8. destruct v as [n|]; [|lia].
  apply Z.mod_pos_bound. lia.
Qed.

Lemma concat_empty_cons (x : string) (xs : list string) :
  String.concat "" (x :: xs) = x +:+ String.concat "" xs.
Proof.
  destruct xs as [|y ys]; simpl; [|reflexivity].
  induction x as [|c x IH]; simpl; [reflexivity|]. by f_equal.
Qed.

Lemma bytesToHex_cons (b : Z) (bs : list Z) :
  Utils.bytesToHex (b :: bs) =
  Js.padStart (Js.toString16 b) 2 "0" +:+ Utils.bytesToHex bs.
Proof. unfold Utils.bytesToHex. rewrite map_cons. apply concat_empty_cons. Qed.

Lemma bytesToHex_hexOf (bs : list Z) :
  bytes_ok bs → Utils.bytesToHex bs = Spec.hexOf bs.
Proof.
  induction 1 as [|b bs Hb _ IH]; [reflexivity|].
  rewrite bytesToHex_cons, byte_toHex, IH by done. reflexivity.
Qed.

Lemma length_hexOf (bs : list Z) :
  String.length (Spec.hexOf bs) = (2 * length bs)%nat.
Proof. induction bs as [|b bs IH]; simpl; [done|]. rewrite IH. lia. Qed.

Lemma pairAt_hexOf (bs : list Z) (k : nat) (b : Z) :
  bs !! k = Some b → Spec.pairAt (Spec.hexOf bs) k = Spec.hexPair b.
Proof.
  unfold Spec.pairAt, Js.substr.
  revert k. induction bs as [|x bs IH]; intros k Hk; [done|].
  destruct k as [|k].
  - injection Hk as ->. simpl. by destruct (Spec.hexOf bs).
  - replace (2 * S k)%nat with (S (S (2 * k))) by lia. simpl. by apply IH.
Qed.

(** ** The loop of [hexToBytes] *)

Lemma half_double (k : nat) : (2 * k / 2)%nat = k.
Proof. rewrite Nat.mul_comm. apply Nat.div_mul. lia. Qed.

Lemma half_le (n k : nat) : (n ≤ 2 * k)%nat → (n / 2 ≤ k)%nat.
Proof.
  intros H. rewrite <- (half_double k). apply Nat.Div0.div_le_mono. exact H.
Qed.

Lemma half_lt (n k : nat) : (2 * k < n)%nat → (n / 2 ≤ k)%nat → n = S (2 * k).
Proof.
  intros Hlt Hle.
  pose proof (Nat.div_mod_eq n 2) as Hdm.
  pose proof (Nat.mod_upper_bound n 2 ltac:(lia)) as Hm. lia.
Qed.

Lemma hexToBytes_loop_spec (fuel : nat) (hex : string) (k : nat) (bytes : list Z) :
  length bytes = (Js.len hex / 2)%nat →
  (Js.len hex ≤ 2 * k + 2 * fuel)%nat →
  Utils.hexToBytes_loop fuel hex (2 * k) bytes =
  take k bytes ++ (Spec.decodePair hex <$> seq k (Js.len hex / 2 - k)).
Proof.
  revert k bytes. remember (Js.len hex / 2)%nat as n eqn:Hn.
  assert (Hdone : ∀ k bytes, length bytes = n → (Js.len hex ≤ 2 * k)%nat →
            bytes = take k bytes ++ (Spec.decodePair hex <$> seq k (n - k))).
  { intros k bytes Hlen Hk. apply half_le in Hk. rewrite <- Hn in Hk.
    replace (n - k)%nat with 0%nat by lia.
    rewrite take_ge by lia. cbn. by rewrite app_nil_r. }
  induction fuel as [|fuel IH]; intros k bytes Hlen Hfuel.
  - cbn [Utils.hexToBytes_loop]. apply Hdone; [done|lia].
  - cbn [Utils.hexToBytes_loop].
    destruct (2 * k <? Js.len hex)%nat eqn:Hcond.
    + apply Nat.ltb_lt in Hcond.
      replace (2 * k + 2)%nat with (2 * S k)%nat by lia.
      rewrite half_double, IH by (rewrite ?length_insert; lia).
      destruct (decide (k < n)%nat) as [Hin|Hout].
      * replace (n - k)%nat with (S (n - S k)) by lia.
        rewrite (take_S_r _ _ (Spec.decodePair hex k))
          by (apply list_lookup_insert_eq; lia).
        rewrite take_insert_ge by lia. cbn.
        rewrite <- app_assoc. reflexivity.
      * rewrite list_insert_ge by lia.
        replace (n - k)%nat with 0%nat by lia.
        replace (n - S k)%nat with 0%nat by lia.
        rewrite !take_ge by lia. reflexivity.
    + apply Nat.ltb_ge in Hcond. apply Hdone; [done|lia].
Qed.

(** The loop leaves through its condition: more fuel changes nothing. *)
Lemma hexToBytes_loop_fuel (fuel : nat) (hex : string) :
  (Js.len hex ≤ 2 * fuel)%nat →
  Utils.hexToBytes_loop fuel hex 0 (Js.newUint8Array (Js.len hex / 2)) =
  Utils.hexToBytes_loop (Js.len hex) hex 0 (Js.newUint8Array (Js.len hex / 2)).
Proof.
  intros Hfuel. unfold Js.newUint8Array.
  change 0%nat with (2 * 0)%nat at 1 3.
  rewrite !hexToBytes_loop_spec by (rewrite ?length_replicate; lia).
  reflexivity.
Qed.

Lemma hexToBytes_decode (hex : string) :
  Utils.hexToBytes hex = Normal (Spec.decodePair hex <$> seq 0 (Js.len hex / 2)).
Proof.
  unfold Utils.hexToBytes, Js.newUint8Array. f_equal.
  change 0%nat with (2 * 0)%nat at 1.
  rewrite hexToBytes_loop_spec by (rewrite ?length_replicate; lia).
  rewrite take_0, Nat.sub_0_r. reflexivity.
Qed.

Lemma hexToBytes_hexOf (bs : list Z) :
  bytes_ok bs → Utils.hexToBytes (Spec.hexOf bs) = Normal bs.
Proof.
  intros Hok. rewrite hexToBytes_decode. f_equal.
  unfold Js.len. rewrite length_hexOf, half_double.
  apply list_eq. intros i. rewrite list_lookup_fmap.
  destruct (bs !! i) as [b|] eqn:Hb.
  - rewrite lookup_seq_lt by (by eapply lookup_lt_Some). simpl.
    unfold Spec.decodePair. rewrite (pairAt_hexOf _ _ _ Hb). f_equal.
    apply byte_parse. unfold bytes_ok in Hok.
    rewrite Forall_lookup in Hok. by eapply Hok.
  - rewrite lookup_seq_ge by (by apply lookup_ge_None). reflexivity.
Qed.

(** ** Characters, by enumeration *)

Lemma ascii_In (c : ascii) : In c (ascii_of_nat <$> seq 0 256).
Proof.
  rewrite <- (ascii_nat_embedding c). apply in_map, in_seq.
  pose proof (nat_ascii_bounded c). lia.
Qed.

Lemma pairParses_all (c1 c2 : ascii) : Spec.pairParses c1 c2 = true.
Proof.
  assert (Hall : forallb (λ a, forallb (Spec.pairParses a) (ascii_of_nat <$> seq 0 256))
                   (ascii_of_nat <$> seq 0 256) = true)
    by (vm_compute; reflexivity).
  rewrite forallb_forall in Hall. specialize (Hall c1 (ascii_In c1)).
  rewrite forallb_forall in Hall. exact (Hall c2 (ascii_In c2)).
Qed.

Lemma parseInt_hex_pair (c1 c2 : ascii) (d1 d2 : Z) :
  Spec.hexValue c1 = Some d1 → Spec.hexValue c2 = Some d2 →
  Js.parseInt (String c1 (String c2 EmptyString)) 16 = Some (16 * d1 + d2)
  ∧ 0 ≤ 16 * d1 + d2 < 256.
Proof.
  intros H1 H2. pose proof (pairParses_all c1 c2) as Hp.
  unfold Spec.pairParses in Hp. rewrite H1, H2 in Hp.
  apply andb_prop in Hp as [Ha Hb].
  apply bool_decide_eq_true in Ha, Hb. done.
Qed.

(** ** bytesToHex and hexToBytes *)

(** C2. For every byte buffer [b], [hexToBytes (bytesToHex b)] returns
    [b]; [bytesToHex] writes two lowercase hex digits per byte, in order,
    so the text has twice the length of the buffer, and the empty buffer
    goes through the empty text. *)
Theorem hexToBytes_bytesToHex (b : list Z) :
  bytes_ok b →
  Utils.hexToBytes (Utils.bytesToHex b) = Normal b
  ∧ Utils.bytesToHex b = Spec.hexOf b
  ∧ String.length (Utils.bytesToHex b) = (2 * length b)%nat
  ∧ (b = [] → Utils.bytesToHex b = "").
Proof.
  intros Hok. rewrite (bytesToHex_hexOf b Hok).
  split; [by apply hexToBytes_hexOf|]. split; [done|].
  split; [apply length_hexOf|by intros ->].
Qed.

Lemma hexToBytes_bytesToHex_witness :
  bytes_ok [0; 171; 255]
  ∧ Utils.hexToBytes (Utils.bytesToHex [0; 171; 255]) = Normal [0; 171; 255].
Proof.
  assert (Hok : bytes_ok [0; 171; 255])
    by (repeat constructor; unfold is_byte; lia).
  split; [exact Hok|]. exact (proj1 (hexToBytes_bytesToHex [0; 171; 255] Hok)).
Defined.

Example bytesToHex_empty :
  Utils.bytesToHex [] = "" ∧ Utils.hexToBytes "" = Normal [].
Proof. split; reflexivity. Qed.

Lemma hexToBytes_elements (hex : string) :
  ∃ bytes : list Z,
    Utils.hexToBytes hex = Normal bytes
    ∧ length bytes = (Js.len hex / 2)%nat
    ∧ (∀ k, (k < length bytes)%nat → bytes !! k = Some (Spec.decodePair hex k)).
Proof.
  exists (Spec.decodePair hex <$> seq 0 (Js.len hex / 2)).
  rewrite length_fmap, length_seq.
  split; [apply hexToBytes_decode|]. split; [reflexivity|].
  intros k Hlt. rewrite list_lookup_fmap, lookup_seq_lt by done. reflexivity.
Qed.

(** C5, as the code has it.  [hexToBytes] returns a buffer for every
    text and never throws: the buffer has half the length of the text,
    rounded down, so a last unpaired character is dropped; element [k] is
    what [parseInt] makes of the pair at [2k], stored as a byte; a pair of
    two hex digits yields sixteen times the first plus the second, and a
    pair that [parseInt] rejects yields 0. *)
Theorem hexToBytes_total (hex : string) :
  ∃ bytes : list Z,
    Utils.hexToBytes hex = Normal bytes
    ∧ length bytes = (Js.len hex / 2)%nat
    ∧ (∀ k, (k < length bytes)%nat → bytes !! k = Some (Spec.decodePair hex k))
    ∧ (∀ k c1 c2 d1 d2, (k < length bytes)%nat →
         Spec.pairAt hex k = String c1 (String c2 EmptyString) →
         Spec.hexValue c1 = Some d1 → Spec.hexValue c2 = Some d2 →
         bytes !! k = Some (16 * d1 + d2))
    ∧ (∀ k, (k < length bytes)%nat →
         Js.parseInt (Spec.pairAt hex k) 16 = None → bytes !! k = Some 0).
Proof.
  destruct (hexToBytes_elements hex) as (bytes & Heq & Hlen & Hk).
  exists bytes. split; [exact Heq|]. split; [exact Hlen|]. split; [exact Hk|].
  split.
  - intros k c1 c2 d1 d2 Hlt Hpair H1 H2. rewrite Hk by done.
    unfold Spec.decodePair. rewrite Hpair.
    destruct (parseInt_hex_pair c1 c2 d1 d2 H1 H2) as [-> Hrange].
    simpl. f_equal. apply Z.mod_small. lia.
  - intros k Hlt Hnan. rewrite Hk by done.
    unfold Spec.decodePair. rewrite Hnan. reflexivity.
Qed.

Lemma hexToBytes_total_witness :
  ∃ bytes : list Z,
    Utils.hexToBytes "1Fzz7" = Normal bytes
    ∧ bytes !! 0%nat = Some 31 ∧ bytes !! 1%nat = Some 0.
Proof.
  destruct (hexToBytes_total "1Fzz7") as (bytes & Heq & Hlen & _ & Hhex & Hnan).
  exists bytes. split; [exact Heq|]. split.
  - apply (Hhex 0%nat "1"%char "F"%char 1 15); [rewrite Hlen; vm_compute; lia|reflexivity..].
  - apply (Hnan 1%nat); [rewrite Hlen; vm_compute; lia|reflexivity].
Defined.

(** C5, as the specification words it, fails: a text of odd length and a
    text that is not hex both come back as buffers. *)
Lemma hexToBytes_returns_on_malformed :
  Utils.hexToBytes "abc" = Normal [171]
  ∧ Utils.hexToBytes "zz" = Normal [0]
  ∧ ¬ throws (Utils.hexToBytes "abc")
  ∧ ¬ throws (Utils.hexToBytes "zz").
Proof.
  split; [reflexivity|]. split; [reflexivity|].
  split; intros [e He]; vm_compute in He; discriminate He.
Qed.

(** ** The text of a UUID *)

Lemma hexDigit_not_dash (d : Z) : Ascii.eqb (Js.hexDigit d) "-" = false.
Proof.
  unfold Js.hexDigit.
  destruct d as [|p|p]; try reflexivity.
  do 4 (try (destruct p as [p|p|]; try reflexivity)).
Qed.

Lemma removeDashes_digit (d : Z) (s : string) :
  UUID.removeDashes (String (Js.hexDigit d) s)
  = String (Js.hexDigit d) (UUID.removeDashes s).
Proof. cbn [UUID.removeDashes]. by rewrite hexDigit_not_dash. Qed.

Lemma removeDashes_dash (s : string) :
  UUID.removeDashes (String "-" s) = UUID.removeDashes s.
Proof. reflexivity. Qed.

Ltac explode16 raw Hlen :=
  do 16 (destruct raw as [|? raw]; [discriminate Hlen|]);
  destruct raw; [clear Hlen|discriminate Hlen].

Lemma removeDashes_format (b : list Z) :
  length b = 16%nat → bytes_ok b →
  UUID.removeDashes (UUID.format b) = Spec.hexOf b.
Proof.
  intros Hlen Hok. unfold UUID.format. rewrite (bytesToHex_hexOf b Hok). clear Hok.
  explode16 b Hlen.
  cbv -[Js.hexDigit Z.div Z.modulo UUID.removeDashes].
  repeat (rewrite !removeDashes_digit || rewrite removeDashes_dash).
  reflexivity.
Qed.

Lemma hexDigits_format (b : list Z) :
  length b = 16%nat → bytes_ok b →
  Spec.hexDigitAt (UUID.format b) 13 = Some (Js.hexDigit (Js.at_ b 6 / 16))
  ∧ Spec.hexDigitAt (UUID.format b) 17 = Some (Js.hexDigit (Js.at_ b 8 / 16)).
Proof.
  intros Hlen Hok. unfold Spec.hexDigitAt.
  rewrite (removeDashes_format b Hlen Hok). clear Hok.
  explode16 b Hlen. split; reflexivity.
Qed.

(** ** Stamping *)

Lemma stamp_version_byte (x ver c : Z) :
  is_byte x →
  (ver = 3 ∧ c = 0x30) ∨ (ver = 4 ∧ c = 0x40) ∨ (ver = 5 ∧ c = 0x50) →
  Js.ToUint8 (Some (Z.lor (Z.land x 0x0f) c)) = Z.lor (Z.land x 0x0F) (Z.shiftl ver 4)
  ∧ is_byte (Z.lor (Z.land x 0x0F) (Z.shiftl ver 4))
  ∧ Z.shiftr (Z.lor (Z.land x 0x0F) (Z.shiftl ver 4)) 4 = ver
  ∧ Z.lor (Z.land x 0x0F) (Z.shiftl ver 4) / 16 = ver.
Proof.
  intros Hx Hver.
  pose (check := λ ver x : Z,
    let v := Z.lor (Z.land x 0x0F) (Z.shiftl ver 4) in
    (Js.ToUint8 (Some (Z.lor (Z.land x 0x0f) (ver * 16))) =? v)
    && (0 <=? v) && (v <? 256) && (Z.shiftr v 4 =? ver) && (v / 16 =? ver)).
  assert (Hall : ∀ v, v = 3 ∨ v = 4 ∨ v = 5 → check v x = true).
  { intros v [->|[->| ->]]; revert x Hx; apply byte_forall; vm_compute; reflexivity. }
  assert (Hc : c = ver * 16) by lia. subst c.
  specialize (Hall ver ltac:(lia)). unfold check in Hall. cbv zeta in Hall.
  rewrite !andb_true_iff in Hall. destruct Hall as ((((H1 & H2) & H3) & H4) & H5).
  unfold is_byte. lia.
Qed.

Lemma stamp_variant_byte (x : Z) :
  is_byte x →
  Js.ToUint8 (Some (Z.lor (Z.land x 0x3f) 0x80)) = Z.lor (Z.land x 0x3F) 0x80
  ∧ is_byte (Z.lor (Z.land x 0x3F) 0x80)
  ∧ Z.shiftr (Z.lor (Z.land x 0x3F) 0x80) 6 = 2
  ∧ Z.shiftr (Z.lor (Z.land x 0x3F) 0x80 / 16) 2 = 2.
Proof.
  intros Hx.
  pose (check := λ x : Z,
    let v := Z.lor (Z.land x 0x3F) 0x80 in
    (Js.ToUint8 (Some v) =? v) && (0 <=? v) && (v <? 256)
    && (Z.shiftr v 6 =? 2) && (Z.shiftr (v / 16) 2 =? 2)).
  assert (Hall : check x = true)
    by (revert x Hx; apply byte_forall; vm_compute; reflexivity).
  unfold check in Hall. cbv zeta in Hall.
  rewrite !andb_true_iff in Hall. destruct Hall as ((((H1 & H2) & H3) & H4) & H5).
  unfold is_byte. lia.
Qed.

Lemma bytes_ok_lookup (bs : list Z) (i : nat) : bytes_ok bs → is_byte (Js.at_ bs i).
Proof.
  intros Hok. unfold Js.at_. destruct (bs !! i) as [b|] eqn:Hb; simpl.
  - unfold bytes_ok in Hok. rewrite Forall_lookup in Hok. by eapply Hok.
  - unfold is_byte. lia.
Qed.

(** The two stores of v3, v4 and v5 are the stamping of the
    specification, and their text carries the version and the variant. *)
Lemma stamped_store (ver c : Z) (raw : list Z) :
  (ver = 3 ∧ c = 0x30) ∨ (ver = 4 ∧ c = 0x40) ∨ (ver = 5 ∧ c = 0x50) →
  length raw = 16%nat → bytes_ok raw →
  Spec.stamped ver
    (UUID.format
       (UUID.store (UUID.store raw 6 (Z.lor (Z.land (Js.at_ raw 6) 0x0f) c)) 8
          (Z.lor (Z.land (Js.at_ (UUID.store raw 6 (Z.lor (Z.land (Js.at_ raw 6) 0x0f) c)) 8) 0x3f) 0x80))).
Proof.
  intros Hver Hlen Hok.
  destruct (stamp_version_byte (Js.at_ raw 6) ver c (bytes_ok_lookup raw 6 Hok) Hver)
    as (E6 & B6 & S6 & D6).
  destruct (stamp_variant_byte (Js.at_ raw 8) (bytes_ok_lookup raw 8 Hok))
    as (E8 & B8 & S8 & D8).
  assert (Hstore :
    UUID.store (UUID.store raw 6 (Z.lor (Z.land (Js.at_ raw 6) 0x0f) c)) 8
      (Z.lor (Z.land (Js.at_ (UUID.store raw 6 (Z.lor (Z.land (Js.at_ raw 6) 0x0f) c)) 8) 0x3f) 0x80)
    = Spec.stamp ver raw).
  { unfold UUID.store, Spec.stamp. rewrite E6.
    replace (Js.at_ (<[6%nat:=Z.lor (Z.land (Js.at_ raw 6) 15) (Z.shiftl ver 4)]> raw) 8)
      with (Js.at_ raw 8)
      by (unfold Js.at_; by rewrite list_lookup_insert_ne).
    by rewrite E8. }
  rewrite Hstore.
  assert (H6 : Js.at_ (Spec.stamp ver raw) 6 = Z.lor (Z.land (Js.at_ raw 6) 0x0F) (Z.shiftl ver 4)).
  { unfold Spec.stamp, Js.at_ at 1.
    rewrite list_lookup_insert_ne, list_lookup_insert_eq by (rewrite ?length_insert; lia).
    reflexivity. }
  assert (H8 : Js.at_ (Spec.stamp ver raw) 8 = Z.lor (Z.land (Js.at_ raw 8) 0x3F) 0x80).
  { unfold Spec.stamp, Js.at_ at 1.
    rewrite list_lookup_insert_eq by (rewrite ?length_insert; lia).
    unfold Js.at_. by rewrite list_lookup_insert_ne. }
  assert (Hlen' : length (Spec.stamp ver raw) = 16%nat)
    by (unfold Spec.stamp; by rewrite !length_insert).
  assert (Hok' : bytes_ok (Spec.stamp ver raw)).
  { unfold Spec.stamp, bytes_ok. apply Forall_insert; [apply Forall_insert|]; try done.
    unfold Js.at_ at 1. by rewrite list_lookup_insert_ne. }
  destruct (hexDigits_format _ Hlen' Hok') as [G13 G17].
  exists raw. rewrite H6, H8.
  repeat split; try done.
  - rewrite G13, H6, D6. reflexivity.
  - eexists. split; [exact G17|]. rewrite H8. exact D8.
Qed.

(** ** Running v3, v4 and v5 *)

Lemma setArray_first (ns : list Z) (m : nat) :
  setArray (Js.newUint8Array (length ns + m)) ns 0 = Normal (ns ++ replicate m 0).
Proof.
  unfold setArray, Js.newUint8Array. rewrite length_replicate.
  destruct (Nat.ltb_spec (length ns + m) (0 + length ns)) as [Hlt|_]; [lia|].
  rewrite take_0, drop_replicate. simpl.
  by replace (length ns + m - length ns)%nat with m by lia.
Qed.

Lemma setArray_second (ns name : list Z) :
  setArray (ns ++ replicate (length name) 0) name (length ns) = Normal (ns ++ name).
Proof.
  unfold setArray. rewrite length_app, length_replicate.
  destruct (Nat.ltb_spec (length ns + length name) (length ns + length name)) as [Hlt|_]; [lia|].
  rewrite take_app_length, drop_ge by (rewrite length_app, length_replicate; lia).
  by rewrite app_nil_r.
Qed.

Lemma sliceArray_within (a : list Z) (start end_ : Z) :
  0 ≤ start ≤ end_ → end_ ≤ Z.of_nat (length a) →
  Js.sliceArray a start end_ =
  take (Z.to_nat (end_ - start)) (drop (Z.to_nat start) a).
Proof.
  intros Hs He. unfold Js.sliceArray.
  destruct (Z.ltb_spec start 0), (Z.ltb_spec end_ 0); try lia.
  by rewrite !Z.min_l by lia.
Qed.

(** The sixteen bytes v5 stamps: the head of the digest. *)
Lemma sliceArray_16 (h : list Z) :
  (16 ≤ length h)%nat → bytes_ok h →
  length (Js.sliceArray h 0 16) = 16%nat ∧ bytes_ok (Js.sliceArray h 0 16).
Proof.
  intros Hlen Hok. rewrite sliceArray_within by lia.
  change (Z.to_nat (16 - 0)) with 16%nat. change (Z.to_nat 0) with 0%nat.
  rewrite drop_0. split.
  - rewrite length_take. lia.
  - by apply Forall_take.
Qed.

Lemma v5_run (subtle_digest : string → list Z → completion (list Z))
    (namespace name : string) (w : World) :
  ∃ nsBytes : list Z,
    UUID.parse namespace = Normal nsBytes
    ∧ UUID.v5 subtle_digest namespace name w =
      (match subtle_digest "SHA-1" (nsBytes ++ Utils.stringToBytes name) with
       | Normal hashBytes =>
           let bytes := Js.sliceArray hashBytes 0 16 in
           let bytes := UUID.store bytes 6 (Z.lor (Z.land (Js.at_ bytes 6) 0x0f) 0x50) in
           let bytes := UUID.store bytes 8 (Z.lor (Z.land (Js.at_ bytes 8) 0x3f) 0x80) in
           Normal (UUID.format bytes)
       | Throw e => Throw e
       end, w).
Proof.
  unfold UUID.v5, UUID.parse. rewrite hexToBytes_decode.
  eexists. split; [reflexivity|].
  unfold bind, lift at 1. cbv beta iota.
  rewrite setArray_first. unfold lift at 1. cbv beta iota.
  rewrite setArray_second. unfold lift at 1. cbv beta iota.
  unfold Hash.sha1, Hash.calculate, lift, ret.
  by destruct (subtle_digest "SHA-1" _).
Qed.

Lemma v3_run (lib : CryptoJSLib) (namespace name : string) (w : World) :
  CryptoJS w = Some lib →
  ∃ nsBytes : list Z,
    UUID.parse namespace = Normal nsBytes
    ∧ UUID.v3 namespace name w =
      (let bytes := UUID.wordArrayToBytes
                      (MD5 lib (WordArray_create lib (nsBytes ++ Utils.stringToBytes name))) in
       let bytes := UUID.store bytes 6 (Z.lor (Z.land (Js.at_ bytes 6) 0x0f) 0x30) in
       let bytes := UUID.store bytes 8 (Z.lor (Z.land (Js.at_ bytes 8) 0x3f) 0x80) in
       Normal (UUID.format bytes), w).
Proof.
  intros Hlib. unfold UUID.v3, UUID.parse. rewrite hexToBytes_decode.
  eexists. split; [reflexivity|].
  unfold bind, typeofCryptoJS_undefined, globalCryptoJS. rewrite Hlib. cbv beta iota.
  unfold lift at 1. cbv beta iota.
  rewrite setArray_first. unfold lift at 1. cbv beta iota.
  rewrite setArray_second. unfold lift at 1, ret. cbv beta iota.
  rewrite Hlib. reflexivity.
Qed.

Ltac solve_bytes_ok :=
  repeat (apply List.Forall_cons; [apply (ToUint8_byte (Some _))|]);
  apply List.Forall_nil.

Lemma wordArrayToBytes_16 (wa : WordArray) :
  sigBytes wa = 16%nat →
  length (UUID.wordArrayToBytes wa) = 16%nat ∧ bytes_ok (UUID.wordArrayToBytes wa).
Proof.
  destruct wa as [ws sb]. simpl. intros ->.
  unfold UUID.wordArrayToBytes, UUID.store, Js.newUint8Array. simpl.
  split; [reflexivity|]. solve_bytes_ok.
Qed.

Lemma randomBytes_16 (w : World) :
  ∃ raw w', getRandomBytes 16 w = (Normal raw, w')
            ∧ length raw = 16%nat ∧ bytes_ok raw.
Proof.
  unfold getRandomBytes, getRandomValues, Js.newUint8Array.
  eexists _, _. split; [reflexivity|]. simpl. split; [reflexivity|].
  solve_bytes_ok.
Qed.

(** ** v3, v4, v5: version and variant *)

(** C1. Every UUID that v3, v4 or v5 returns is the text of sixteen raw
    bytes stamped before formatting: the high nibble of byte 6 is the
    version (3, 4 or 5), the two high bits of byte 8 are 10, the 13th
    hex digit is the version and the top two bits of the 17th are 10.
    v4 returns in every world; v5 returns whenever SHA-1 yields its
    twenty bytes, v3 whenever CryptoJS is loaded and MD5 yields
    sixteen. *)
Theorem uuid_stamped (subtle_digest : string → list Z → completion (list Z))
    (lib : CryptoJSLib) :
  (∀ d, ∃ h, subtle_digest "SHA-1" d = Normal h ∧ length h = 20%nat ∧ bytes_ok h) →
  (∀ wa, sigBytes (MD5 lib wa) = 16%nat) →
  ∀ w : World,
    (∃ u w', UUID.v4 w = (Normal u, w') ∧ Spec.stamped 4 u)
    ∧ (∀ namespace name,
         ∃ u, UUID.v5 subtle_digest namespace name w = (Normal u, w) ∧ Spec.stamped 5 u)
    ∧ (∀ namespace name, CryptoJS w = Some lib →
         ∃ u, UUID.v3 namespace name w = (Normal u, w) ∧ Spec.stamped 3 u).
Proof.
  intros Hsha Hmd5 w. split; [|split].
  - destruct (randomBytes_16 w) as (raw & w' & Hrun & Hlen & Hok).
    eexists _, w'. split.
    + unfold UUID.v4, bind. rewrite Hrun. reflexivity.
    + apply stamped_store; [lia|done..].
  - intros namespace name.
    destruct (v5_run subtle_digest namespace name w) as (nsBytes & _ & ->).
    destruct (Hsha (nsBytes ++ Utils.stringToBytes name)) as (h & -> & Hlen & Hok).
    destruct (sliceArray_16 h ltac:(lia) Hok) as [Hlen16 Hok16].
    eexists. split; [reflexivity|]. apply stamped_store; [lia|done..].
  - intros namespace name Hlib.
    destruct (v3_run lib namespace name w Hlib) as (nsBytes & _ & ->).
    destruct (wordArrayToBytes_16 _ (Hmd5 (WordArray_create lib (nsBytes ++ Utils.stringToBytes name))))
      as [Hlen16 Hok16].
    eexists. split; [reflexivity|]. apply stamped_store; [lia|done..].
Qed.

Lemma uuid_stamped_witness :
  let digest := λ (_ : string) (_ : list Z), Normal (replicate 20 171) in
  let lib := mkCryptoJS (λ d, mkWordArray d (length d))
                        (λ _, mkWordArray [305419896; -1; 0; 2147483647] 16) in
  let w := mkWorld (λ i, Z.of_nat i * 37) 5 (Some lib) in
  (∃ u w', UUID.v4 w = (Normal u, w') ∧ Spec.stamped 4 u)
  ∧ (∀ namespace name,
       ∃ u, UUID.v5 digest namespace name w = (Normal u, w) ∧ Spec.stamped 5 u)
  ∧ (∀ namespace name, CryptoJS w = Some lib →
       ∃ u, UUID.v3 namespace name w = (Normal u, w) ∧ Spec.stamped 3 u).
Proof.
  intros digest lib w. apply (uuid_stamped digest lib).
  - intros d. exists (replicate 20 171). split; [reflexivity|]. split; [reflexivity|].
    apply Forall_replicate. unfold is_byte. lia.
  - intros wa. reflexivity.
Defined.

Example v4_example :
  fst (UUID.v4 (mkWorld (λ i, Z.of_nat i * 37 + 1000) 0 None))
  = Normal "e80d3257-7ca1-46eb-9035-5a7fa4c9ee13".
Proof. vm_compute. reflexivity. Qed.

(** ** v5: one outcome per namespace and name *)

(** C7. v5 is deterministic: for every namespace and name, the empty
    name included, there is one outcome that every call produces, in
    whatever world it runs (whatever random values were drawn before,
    CryptoJS loaded or not), and the call leaves the world as it was; so
    do the repeated calls of v5(NAMESPACE_DNS, "example.com"). *)
Theorem v5_deterministic (subtle_digest : string → list Z → completion (list Z))
    (namespace name : string) :
  ∃ outcome : completion string,
    ∀ w : World, UUID.v5 subtle_digest namespace name w = (outcome, w).
Proof.
  destruct (v5_run subtle_digest namespace name (mkWorld (λ _, 0) 0 None))
    as (nsBytes & Hparse & _).
  eexists. intros w.
  destruct (v5_run subtle_digest namespace name w) as (nsBytes' & Hparse' & ->).
  rewrite Hparse in Hparse'. injection Hparse' as <-. reflexivity.
Qed.

(** In contrast, v4 depends on the random source. *)
Example v4_depends_on_the_world :
  fst (UUID.v4 (mkWorld (λ _, 0) 0 None)) ≠ fst (UUID.v4 (mkWorld (λ _, 1) 0 None)).
Proof. vm_compute. discriminate. Qed.

(** ** v3 without CryptoJS *)

(** C8. For every namespace and name, when CryptoJS is not defined v3
    fails with the error of its guard, the one that names the missing
    primitive: it neither runs into the [ReferenceError] of the lookup of
    [CryptoJS] nor returns a value, and it fails before the namespace is
    even parsed. *)
Theorem v3_missing_primitive (namespace name : string) (w : World) :
  CryptoJS w = None →
  UUID.v3 namespace name w = (Throw (Error "CryptoJS is required for UUID v3"), w)
  ∧ (∀ m, fst (UUID.v3 namespace name w) ≠ Throw (ReferenceError m))
  ∧ (∀ u, fst (UUID.v3 namespace name w) ≠ Normal u).
Proof.
  intros Hnone.
  assert (Hrun : UUID.v3 namespace name w
                 = (Throw (Error "CryptoJS is required for UUID v3"), w)).
  { unfold UUID.v3, bind, typeofCryptoJS_undefined, throw. by rewrite Hnone. }
  rewrite Hrun. split; [reflexivity|]. split; intros; discriminate.
Qed.

Lemma v3_missing_primitive_witness :
  CryptoJS (mkWorld (λ _, 0) 0 None) = None
  ∧ UUID.v3 UUID.NAMESPACE_DNS "example.com" (mkWorld (λ _, 0) 0 None)
    = (Throw (Error "CryptoJS is required for UUID v3"), mkWorld (λ _, 0) 0 None).
Proof.
  split; [reflexivity|].
  exact (proj1 (v3_missing_primitive UUID.NAMESPACE_DNS "example.com"
                  (mkWorld (λ _, 0) 0 None) eq_refl)).
Defined.

(** ** parse *)

Lemma removeDashes_no_dash (text : string) (n : nat) :
  String.get n (UUID.removeDashes text) ≠ Some "-"%char.
Proof.
  revert n. induction text as [|c text IH]; intros n; [by destruct n|].
  simpl. destruct (Ascii.eqb_spec c "-") as [->|Hne]; [apply IH|].
  destruct n as [|n]; simpl; [congruence|apply IH].
Qed.

Lemma parse_format (b : list Z) :
  length b = 16%nat → bytes_ok b → UUID.parse (UUID.format b) = Normal b.
Proof.
  intros Hlen Hok. unfold UUID.parse.
  rewrite (removeDashes_format b Hlen Hok). by apply hexToBytes_hexOf.
Qed.

(** C6, as the code has it.  [parse] strips every [-] and decodes what
    remains with [hexToBytes]; it returns a buffer for every text and
    never throws.  The buffer has half as many bytes as characters
    remain, rounded down; nothing checks that 32 of them remain or that
    they are hex digits.  Grouping is not validated: two texts with the
    same characters after stripping parse alike.  The text [format] makes
    of sixteen bytes parses back to them. *)
Theorem parse_total (text : string) :
  ∃ bytes : list Z,
    UUID.parse text = Normal bytes
    ∧ (∀ n, String.get n (UUID.removeDashes text) ≠ Some "-"%char)
    ∧ length bytes = (Js.len (UUID.removeDashes text) / 2)%nat
    ∧ (∀ k, (k < length bytes)%nat →
         bytes !! k = Some (Spec.decodePair (UUID.removeDashes text) k))
    ∧ (∀ text', UUID.removeDashes text' = UUID.removeDashes text →
         UUID.parse text' = Normal bytes)
    ∧ (∀ b, length b = 16%nat → bytes_ok b → text = UUID.format b → bytes = b).
Proof.
  destruct (hexToBytes_elements (UUID.removeDashes text))
    as (bytes & Heq & Hlen & Hk).
  exists bytes. split; [exact Heq|]. split; [apply removeDashes_no_dash|].
  split; [exact Hlen|]. split; [exact Hk|]. split.
  - intros text' Hsame. unfold UUID.parse. by rewrite Hsame.
  - intros b Hb Hok ->. unfold UUID.parse in Heq.
    rewrite (removeDashes_format b Hb Hok), (hexToBytes_hexOf b Hok) in Heq.
    by injection Heq.
Qed.

Lemma parse_total_witness :
  ∃ bytes : list Z,
    UUID.parse UUID.NAMESPACE_DNS = Normal bytes
    ∧ UUID.parse "6ba7b8109dad11d180b400c04fd430c8" = Normal bytes
    ∧ UUID.parse "6b-a7b8109dad11d180b4-00c04fd430c8--" = Normal bytes.
Proof.
  destruct (parse_total UUID.NAMESPACE_DNS) as (bytes & Heq & _ & _ & _ & Hsame & _).
  exists bytes. split; [exact Heq|]. split; apply Hsame; vm_compute; reflexivity.
Defined.

(** C6, as the specification words it, fails: texts with the wrong
    number of digits and with characters that are not hex come back as
    buffers. *)
Lemma parse_returns_on_malformed :
  UUID.parse "12-3g" = Normal [18; 3]
  ∧ UUID.parse "" = Normal []
  ∧ UUID.parse "not-a-uuid" = Normal [0; 0; 0; 0]
  ∧ ¬ throws (UUID.parse "12-3g")
  ∧ ¬ throws (UUID.parse "not-a-uuid").
Proof.
  split; [reflexivity|]. split; [reflexivity|]. split; [reflexivity|].
  split; intros [e He]; vm_compute in He; discriminate He.
Qed.

(** ** Strings *)

Lemma str_app_assoc (a b c : string) : (a +:+ b) +:+ c = a +:+ b +:+ c.
Proof. induction a as [|x a IH]; simpl; [done|]. by rewrite IH. Qed.

Lemma str_app_nil_r (a : string) : a +:+ "" = a.
Proof. induction a as [|x a IH]; simpl; [done|]. by rewrite IH. Qed.



Lemma prefix_app (sub s t : string) :
  String.prefix sub s = true → String.prefix sub (s +:+ t) = true.
Proof.
  revert s. induction sub as [|c sub IH]; intros s H; [by destruct s; destruct t|].
  destruct s as [|d s]; [discriminate|]. simpl in *.
  destruct (ascii_dec c d); [by apply IH|discriminate].
Qed.

Lemma includes_app (s t sub : string) :
  Spec.includes s sub = true → Spec.includes (s +:+ t) sub = true.
Proof.
  induction s as [|c s IH]; simpl.
  - rewrite orb_false_r. intros H. destruct sub; [|discriminate].
    destruct t; reflexivity.
  - intros H. apply orb_true_iff in H as [H|H]; apply orb_true_iff.
    + left. by apply (prefix_app sub (String c s) t).
    + right. by apply IH.
Qed.

(** ** Chunks and rows *)

Lemma chunksFuel_more (n fuel1 fuel2 : nat) (l : list Z) :
  (0 < n)%nat → (length l ≤ fuel1)%nat → (length l ≤ fuel2)%nat →
  Spec.chunksFuel fuel1 n l = Spec.chunksFuel fuel2 n l.
Proof.
  intros Hn. revert fuel2 l.
  induction fuel1 as [|fuel1 IH]; intros fuel2 l H1 H2.
  - destruct l; [|simpl in H1; lia]. by destruct fuel2.
  - destruct l as [|x l]; [by destruct fuel2|].
    destruct fuel2 as [|fuel2]; [simpl in H2; lia|].
    cbn [Spec.chunksFuel]. f_equal.
    apply IH; rewrite length_drop; simpl in *; lia.
Qed.

Lemma chunks_nil (n : nat) : Spec.chunks n [] = [].
Proof. reflexivity. Qed.

Lemma chunks_step (n : nat) (l : list Z) :
  (0 < n)%nat → l ≠ [] →
  Spec.chunks n l = take n l :: Spec.chunks n (drop n l).
Proof.
  intros Hn Hl. unfold Spec.chunks.
  destruct l as [|x l]; [done|]. cbn [length Spec.chunksFuel]. f_equal.
  apply chunksFuel_more; [done|rewrite length_drop; simpl; lia|lia].
Qed.








(** ** The row loop of render *)

Lemma rowsHTML_cons (o : HexView.Options) (r : Spec.RowView) (rs : list Spec.RowView) :
  Spec.rowsHTML o (r :: rs) =
  HexView.renderRow o (Spec.offset r) (Spec.bytes r) +:+ Spec.rowsHTML o rs.
Proof. unfold Spec.rowsHTML. rewrite map_cons. apply concat_empty_cons. Qed.

Lemma renderLoop_rows (fuel : nat) (o : HexView.Options) (data : list Z)
    (D off : Z) (html : string) :
  0 < HexView.bytesPerRow o → 0 ≤ off → D ≤ Z.of_nat (length data) →
  D - off ≤ Z.of_nat fuel →
  HexView.renderLoop fuel o data D off html =
  Some (html +:+
        Spec.rowsHTML o
          (Spec.rowsFrom (HexView.bytesPerRow o) off
             (Spec.chunks (Z.to_nat (HexView.bytesPerRow o))
                (drop (Z.to_nat off) (take (Z.to_nat D) data))))).
Proof.
  intros Hbpr. revert off html.
  assert (Hdone : ∀ off html, 0 ≤ off → D ≤ off →
            Some html = Some (html +:+
              Spec.rowsHTML o
                (Spec.rowsFrom (HexView.bytesPerRow o) off
                   (Spec.chunks (Z.to_nat (HexView.bytesPerRow o))
                      (drop (Z.to_nat off) (take (Z.to_nat D) data)))))).
  { intros off html Hoff Hge.
    rewrite drop_ge by (rewrite length_take; lia).
    by rewrite chunks_nil, str_app_nil_r. }
  induction fuel as [|fuel IH]; intros off html Hoff Hlen Hfuel;
    cbn [HexView.renderLoop]; destruct (Z.ltb_spec off D) as [Hlt|Hge];
    try (apply Hdone; lia); [lia|].
  rewrite IH by lia. f_equal.
  set (b := Z.to_nat (HexView.bytesPerRow o)).
  set (rest := drop (Z.to_nat off) (take (Z.to_nat D) data)).
  assert (Hrest : rest ≠ []).
  { intros Hnil. apply (f_equal length) in Hnil. unfold rest in Hnil.
    rewrite length_drop, length_take in Hnil. simpl in Hnil. lia. }
  rewrite (chunks_step b rest) by (done || lia).
  cbn [Spec.rowsFrom]. rewrite rowsHTML_cons. cbn [Spec.offset Spec.bytes].
  rewrite str_app_assoc. do 2 f_equal.
  - f_equal. rewrite sliceArray_within by lia.
    unfold rest. rewrite skipn_firstn_comm, take_take. f_equal.
    unfold b. clear -Hbpr Hoff Hlt. lia.
  - do 2 f_equal. unfold rest. rewrite drop_drop. f_equal.
    unfold b. clear -Hbpr Hoff Hlt. f_equal. lia.
Qed.

Lemma rows_unfold (bpr maxRows : Z) (buf : list Z) :
  Spec.rows bpr maxRows buf =
  Spec.rowsFrom bpr 0
    (Spec.chunks (Z.to_nat bpr)
       (drop (Z.to_nat 0)
          (take (Z.to_nat (Z.min (Z.of_nat (length buf)) (bpr * maxRows))) buf))).
Proof. reflexivity. Qed.

(** With a negative [bytesPerRow] the loop variable never reaches
    [displayBytes]: no amount of fuel ends the loop. *)
Remark renderLoop_diverges (fuel : nat) (o : HexView.Options) (data : list Z)
    (D off : Z) (html : string) :
  HexView.bytesPerRow o ≤ 0 → off < D →
  HexView.renderLoop fuel o data D off html = None.
Proof.
  intros Hbpr. revert off html.
  induction fuel as [|fuel IH]; intros off html Hlt;
    cbn [HexView.renderLoop]; destruct (Z.ltb_spec off D); try lia;
    [reflexivity|apply IH; lia].
Qed.

Section Render.

Variable formatSize : Z → string.

(** So render does not return when both [bytesPerRow] and [maxRows] are
    negative and there is data; the theorems on render are stated for
    [uint] values. *)
Remark render_diverges (st : HexView.State) (buf : list Z) :
  HexView.dataBytes st = Some buf → buf ≠ [] →
  HexView.bytesPerRow (HexView.options (HexView.this st)) < 0 →
  HexView.maxRows (HexView.options (HexView.this st)) < 0 →
  HexView.render formatSize st = None.
Proof.
  intros Hdata Hne Hbpr Hmax. unfold HexView.render. rewrite Hdata.
  destruct buf as [|x buf]; [done|]. cbn [length Nat.eqb].
  rewrite renderLoop_diverges; [reflexivity|lia|].
  apply Z.min_glb_lt; [lia|nia].
Qed.

Lemma render_empty (st : HexView.State) :
  HexView.dataBytes st = None ∨ HexView.dataBytes st = Some [] →
  HexView.render formatSize st = Some (HexView.setContainerHTML HexView.emptyHTML st).
Proof. unfold HexView.render. by intros [-> | ->]. Qed.

(** With data and a [uint] configuration, the row loop ends and the
    container receives the markup of the rows of the specification. *)
Lemma render_markup (st : HexView.State) (buf : list Z) :
  let o := HexView.options (HexView.this st) in
  let total := Z.of_nat (length buf) in
  let displayed := Spec.displayedLength total (HexView.bytesPerRow o) (HexView.maxRows o) in
  HexView.dataBytes st = Some buf → buf ≠ [] →
  0 ≤ HexView.bytesPerRow o → 0 ≤ HexView.maxRows o →
  HexView.render formatSize st =
  Some (HexView.setContainerHTML
          (Spec.markup formatSize o total displayed
             (Spec.rows (HexView.bytesPerRow o) (HexView.maxRows o) buf)) st).
Proof.
  intros o total displayed Hdata Hne Hbpr Hmax.
  unfold HexView.render. rewrite Hdata. fold o.
  destruct buf as [|x buf]; [done|]. cbn [length Nat.eqb].
  change (Z.of_nat (S (length buf))) with total.
  change (Z.min total (HexView.bytesPerRow o * HexView.maxRows o)) with displayed.
  assert (Hd : 0 ≤ displayed ≤ total).
  { unfold displayed, Spec.displayedLength, total. nia. }
  assert (Hloop : ∀ html,
            HexView.renderLoop (S (S (length buf))) o (x :: buf) displayed 0 html
            = Some (html +:+ Spec.rowsHTML o
                      (Spec.rows (HexView.bytesPerRow o) (HexView.maxRows o) (x :: buf)))).
  { intros html. destruct (decide (HexView.bytesPerRow o = 0)) as [H0|Hpos].
    - assert (displayed = 0) as Hz
        by (unfold displayed, Spec.displayedLength, total in *; rewrite H0 in *; lia).
      unfold Spec.rows. fold total. fold displayed. rewrite Hz, H0.
      cbn. by rewrite str_app_nil_r.
    - rewrite renderLoop_rows by (unfold total in *; simpl length in *; lia).
      by rewrite rows_unfold. }
  rewrite Hloop. unfold Spec.markup. f_equal. f_equal.
  destruct (HexView.showHeader o), (displayed <? total);
    cbn [String.append]; rewrite ?str_app_assoc, ?str_app_nil_r; reflexivity.
Qed.

End Render.

(** ** The rows of the specification *)






Section RenderTheorems.

Variable formatSize : Z → string.

(** ** render: rows *)


End RenderTheorems.


(** ** render: truncation *)

Lemma prefix_refl (s : string) : String.prefix s s = true.
Proof.
  induction s as [|c s IH]; [done|]. simpl. by destruct (ascii_dec c c).
Qed.

Lemma includes_refl (s : string) : Spec.includes s s = true.
Proof. destruct s; [done|]. cbn [Spec.includes]. by rewrite prefix_refl. Qed.

Lemma includes_app_r (s t sub : string) :
  Spec.includes t sub = true → Spec.includes (s +:+ t) sub = true.
Proof.
  intros H. induction s as [|c s IH]; [done|].
  cbn [String.append Spec.includes]. rewrite IH. apply orb_true_r.
Qed.

Lemma truncationHTML_reports (omitted : Z) :
  Spec.includes (HexView.truncationHTML omitted)
    ("... " +:+ pretty omitted +:+ " more bytes ...") = true.
Proof.
  unfold HexView.truncationHTML. apply includes_app_r, includes_app.
  unfold line. do 2 apply includes_app_r. apply includes_refl.
Qed.

Section TruncationTheorems.

Variable formatSize : Z → string.

(** C4. For every buffer and every [uint] configuration, render
    displays [min totalLength (bytesPerRow * maxRows)] bytes and is
    truncated exactly when [totalLength] exceeds that, which is the case
    whenever [maxRows * bytesPerRow < totalLength]; the markup ends with
    the truncation marker exactly then, and the count in the marker is
    [totalLength - displayedLength].  The empty buffer is never
    truncated. *)
Theorem render_truncation (st : HexView.State) (buf : list Z) :
  let o := HexView.options (HexView.this st) in
  let total := Z.of_nat (length buf) in
  let displayed := Z.min total (HexView.bytesPerRow o * HexView.maxRows o) in
  let truncated := displayed <? total in
  HexView.dataBytes st = Some buf →
  0 ≤ HexView.bytesPerRow o → 0 ≤ HexView.maxRows o →
  ∃ st',
    HexView.render formatSize st = Some st'
    ∧ 0 ≤ displayed ≤ total
    ∧ (truncated = true ↔ total > displayed)
    ∧ (HexView.maxRows o * HexView.bytesPerRow o < total → truncated = true)
    ∧ (buf = [] →
       truncated = false
       ∧ innerHTML (HexView.container (HexView.this st')) = HexView.emptyHTML)
    ∧ (buf ≠ [] →
       ∃ body,
         HexView.renderLoop (S (length buf)) o buf displayed 0 "" = Some body
         ∧ innerHTML (HexView.container (HexView.this st'))
           = (if HexView.showHeader o
              then HexView.headerHTML formatSize total truncated else "") +:+
             ("<div class=" +:+ q "hex-view-content" +:+ ">") +:+
             body +:+
             (if truncated
              then HexView.truncationHTML (total - displayed) else "") +:+
             "</div>")
    ∧ (truncated = true →
       0 < total - displayed
       ∧ Spec.includes (HexView.truncationHTML (total - displayed))
           ("... " +:+ pretty (total - displayed) +:+ " more bytes ...") = true).
Proof.
  intros o total displayed truncated Hdata Hbpr Hmax.
  assert (Hd : 0 ≤ displayed ≤ total) by (unfold displayed, total; nia).
  assert (Hrender : ∃ st', HexView.render formatSize st = Some st'
            ∧ (buf = [] →
               innerHTML (HexView.container (HexView.this st')) = HexView.emptyHTML)
            ∧ (buf ≠ [] →
               innerHTML (HexView.container (HexView.this st'))
               = Spec.markup formatSize o total displayed
                   (Spec.rows (HexView.bytesPerRow o) (HexView.maxRows o) buf))).
  { destruct buf as [|x buf].
    - eexists. split; [apply render_empty; by right|]. by split.
    - eexists. split; [by apply (render_markup formatSize st (x :: buf))|]. by split. }
  destruct Hrender as (st' & Hrender & Hempty & Hfull).
  exists st'. split; [exact Hrender|]. split; [exact Hd|].
  split; [unfold truncated; rewrite Z.ltb_lt; lia|].
  split; [intros Hlt; unfold truncated; rewrite Z.ltb_lt; unfold displayed; lia|].
  split; [|split].
  - intros ->. split; [|by apply Hempty].
    unfold truncated. apply Z.ltb_ge. unfold total in *. simpl in *. lia.
  - intros Hne. eexists. split; [|rewrite (Hfull Hne); reflexivity].
    destruct (decide (HexView.bytesPerRow o = 0)) as [H0|Hpos].
    + assert (displayed = 0) as Hz by (unfold displayed in *; rewrite H0 in *; lia).
      unfold Spec.rows, Spec.displayedLength. fold total. fold displayed.
      rewrite Hz, H0. reflexivity.
    + rewrite renderLoop_rows by (unfold total in *; lia).
      by rewrite rows_unfold.
  - intros Htr. unfold truncated in Htr. rewrite Z.ltb_lt in Htr.
    split; [lia|apply truncationHTML_reports].
Qed.

End TruncationTheorems.

Lemma render_truncation_witness :
  let formatSize := λ n : Z, pretty n +:+ " Bytes" in
  let buf := [72; 101; 108; 60; 0] in
  let st := HexView.mkState {[ 0%nat := buf ]}
              (HexView.mkObj (mkElement "" []) (HexView.mkOptions 2 true true 2)
                 (Some 0%nat) (-1)) in
  ∃ st',
    HexView.render formatSize st = Some st'
    ∧ Spec.includes (innerHTML (HexView.container (HexView.this st')))
        "... 1 more bytes ..." = true.
Proof.
  intros formatSize buf st.
  destruct (render_truncation formatSize st buf)
    as (st' & Hrender & _); [vm_compute; reflexivity|simpl; lia..|].
  exists st'. split; [exact Hrender|].
  vm_compute in Hrender. injection Hrender as <-. vm_compute. reflexivity.
Defined.

(** ** render: the stored buffer *)

Section FrameTheorems.

Variable formatSize : Z → string.

(** What render writes is the markup of the container, nothing else. *)
Lemma render_frame (st st' : HexView.State) :
  HexView.render formatSize st = Some st' →
  HexView.heap st' = HexView.heap st
  ∧ HexView.data (HexView.this st') = HexView.data (HexView.this st)
  ∧ HexView.options (HexView.this st') = HexView.options (HexView.this st)
  ∧ HexView.highlightedIndex (HexView.this st')
    = HexView.highlightedIndex (HexView.this st).
Proof.
  unfold HexView.render.
  destruct (HexView.dataBytes st) as [bytes|]; [|by intros [= <-]].
  destruct (length bytes =? 0)%nat; [by intros [= <-]|].
  destruct (HexView.renderLoop _ _ _ _ _ _); [by intros [= <-]|done].
Qed.

Lemma render_returns (st : HexView.State) :
  0 ≤ HexView.bytesPerRow (HexView.options (HexView.this st)) →
  0 ≤ HexView.maxRows (HexView.options (HexView.this st)) →
  ∃ st', HexView.render formatSize st = Some st'.
Proof.
  intros Hbpr Hmax. destruct (HexView.dataBytes st) as [[|x buf]|] eqn:Hdata.
  - eexists. apply render_empty. by right.
  - eexists. by apply (render_markup formatSize st (x :: buf)).
  - eexists. apply render_empty. by left.
Qed.

Lemma getHexString_hexOf (st : HexView.State) (buf : list Z) :
  HexView.dataBytes st = Some buf → bytes_ok buf →
  HexView.getHexString st = Spec.hexOf buf.
Proof.
  intros Hdata Hok. unfold HexView.getHexString. rewrite Hdata.
  exact (bytesToHex_hexOf buf Hok).
Qed.

(** C10. Rendering only reads the stored buffer.  For every buffer of
    the heap handed to [setData], under every [uint] configuration,
    truncating or not: [setData] and any further [render] return, the
    heap is as before, [getData] is the very buffer that was set, and
    [getHexString] is the two-digit lowercase encoding of all its bytes,
    twice as long as the buffer. *)
Theorem render_preserves_buffer (st : HexView.State) (l : HexView.loc) (buf : list Z) :
  HexView.heap st !! l = Some buf → bytes_ok buf →
  0 ≤ HexView.bytesPerRow (HexView.options (HexView.this st)) →
  0 ≤ HexView.maxRows (HexView.options (HexView.this st)) →
  ∃ st1 st2,
    HexView.setData formatSize (HexView.ArgUint8Array l) st = Some st1
    ∧ HexView.render formatSize st1 = Some st2
    ∧ HexView.heap st1 = HexView.heap st ∧ HexView.heap st2 = HexView.heap st
    ∧ HexView.heap st2 !! l = Some buf
    ∧ HexView.getData st1 = Some l ∧ HexView.getData st2 = Some l
    ∧ HexView.getHexString st1 = Spec.hexOf buf
    ∧ HexView.getHexString st2 = Spec.hexOf buf
    ∧ String.length (HexView.getHexString st2) = (2 * length buf)%nat.
Proof.
  intros Hl Hok Hbpr Hmax.
  set (st0 := HexView.setDataField (Some l) st).
  destruct (render_returns st0 Hbpr Hmax) as [st1 H1].
  destruct (render_frame st0 st1 H1) as (Hh1 & Hd1 & Ho1 & _).
  destruct (render_returns st1) as [st2 H2]; [by rewrite Ho1..|].
  destruct (render_frame st1 st2 H2) as (Hh2 & Hd2 & _ & _).
  assert (Hb1 : HexView.dataBytes st1 = Some buf).
  { unfold HexView.dataBytes. rewrite Hd1, Hh1. simpl. by rewrite Hl. }
  assert (Hb2 : HexView.dataBytes st2 = Some buf).
  { unfold HexView.dataBytes. rewrite Hd2, Hd1, Hh2, Hh1. simpl. by rewrite Hl. }
  exists st1, st2. split; [exact H1|]. split; [exact H2|].
  split; [exact Hh1|]. split; [by rewrite Hh2|]. split; [by rewrite Hh2, Hh1|].
  split; [exact Hd1|]. split; [unfold HexView.getData; by rewrite Hd2|].
  split; [by apply getHexString_hexOf|]. split; [by apply getHexString_hexOf|].
  rewrite (getHexString_hexOf st2 buf Hb2 Hok). apply length_hexOf.
Qed.

End FrameTheorems.

Lemma render_preserves_buffer_witness :
  let formatSize := λ n : Z, pretty n +:+ " Bytes" in
  let buf := [72; 101; 108; 60; 0] in
  let st := HexView.mkState {[ 7%nat := buf ]}
              (HexView.mkObj (mkElement "" []) (HexView.mkOptions 2 true true 2)
                 None (-1)) in
  ∃ st1 st2,
    HexView.setData formatSize (HexView.ArgUint8Array 7%nat) st = Some st1
    ∧ HexView.render formatSize st1 = Some st2
    ∧ HexView.heap st2 !! 7%nat = Some buf
    ∧ HexView.getData st2 = Some 7%nat
    ∧ HexView.getHexString st2 = "48656c3c00".
Proof.
  intros formatSize buf st.
  destruct (render_preserves_buffer formatSize st 7%nat buf)
    as (st1 & st2 & H1 & H2 & _ & _ & Hheap & _ & Hget & _ & Hhex & _).
  - vm_compute. reflexivity.
  - unfold buf. repeat (apply List.Forall_cons; [unfold is_byte; lia|]).
    apply List.Forall_nil.
  - simpl. lia.
  - simpl. lia.
  - exists st1, st2. split; [exact H1|]. split; [exact H2|].
    split; [exact Hheap|]. split; [exact Hget|]. exact Hhex.
Defined.

(** ** The options of the constructor *)

Lemma constructorOptions_absent (options : gmap string jsval) (k : string) :
  options !! k = None →
  HexView.constructorOptions options !! k = HexView.defaultedOptions options !! k.
Proof. intros Hk. unfold HexView.constructorOptions. by apply lookup_union_r. Qed.

Lemma constructorOptions_present (options : gmap string jsval) (k : string) (v : jsval) :
  options !! k = Some v → HexView.constructorOptions options !! k = Some v.
Proof. intros Hk. unfold HexView.constructorOptions. by apply lookup_union_Some_l. Qed.

Section ConstructorTheorems.

Variable querySelector : string → option Element.

(** C9, as the code has it.  A property that the caller leaves out takes
    its default: [bytesPerRow] 16, [maxRows] 100, [showAscii] and
    [showHeader] true.  A [bytesPerRow] or [maxRows] that is present
    and truthy, and a [showAscii] or [showHeader] that is present and
    a boolean, is stored as given; no value is checked to be a [uint].
    The constructor fails for a missing container only, never on
    account of the options. *)
Theorem constructor_options (options : gmap string jsval) (el : Element) :
  let stored := HexView.constructorOptions options in
  (options !! "bytesPerRow" = None → stored !! "bytesPerRow" = Some (JNumber 16))
  ∧ (options !! "maxRows" = None → stored !! "maxRows" = Some (JNumber 100))
  ∧ (options !! "showAscii" = None → stored !! "showAscii" = Some (JBool true))
  ∧ (options !! "showHeader" = None → stored !! "showHeader" = Some (JBool true))
  ∧ (∀ k v, k = "bytesPerRow" ∨ k = "maxRows" →
       options !! k = Some v → ToBoolean v = true → stored !! k = Some v)
  ∧ (∀ k b, k = "showAscii" ∨ k = "showHeader" →
       options !! k = Some (JBool b) → stored !! k = Some (JBool b))
  ∧ (∃ obj, HexView.constructor querySelector (HexView.Node (Some el)) (Some options)
            = Normal obj
            ∧ HexView.options obj = stored
            ∧ HexView.data obj = None
            ∧ innerHTML (HexView.container obj) = HexView.emptyHTML)
  ∧ (∃ obj, HexView.constructor querySelector (HexView.Node (Some el)) None
            = Normal obj
            ∧ HexView.typedOptions (HexView.options obj)
              = Some (HexView.mkOptions 16 true true 100)).
Proof.
  intros stored. unfold stored.
  split; [|split; [|split; [|split]]];
    try (intros Hk; rewrite (constructorOptions_absent _ _ Hk);
         unfold HexView.defaultedOptions;
         rewrite ?lookup_insert_ne by done; rewrite lookup_insert_eq;
         unfold prop; rewrite Hk; reflexivity).
  split; [|split; [|split]].
  - intros k v _ Hk _. by apply constructorOptions_present.
  - intros k b _ Hk. by apply constructorOptions_present.
  - eexists. split; [reflexivity|]. done.
  - eexists. split; [reflexivity|]. vm_compute. reflexivity.
Qed.

End ConstructorTheorems.

Lemma constructor_options_witness :
  let querySelector := λ _ : string, @None Element in
  let options : gmap string jsval := {[ "maxRows" := JNumber 4 ]} in
  HexView.constructorOptions options !! "bytesPerRow" = Some (JNumber 16)
  ∧ HexView.constructorOptions options !! "maxRows" = Some (JNumber 4)
  ∧ HexView.typedOptions (HexView.constructorOptions options)
    = Some (HexView.mkOptions 16 true true 4).
Proof.
  intros querySelector options.
  destruct (constructor_options querySelector options (mkElement "" []))
    as (Hbpr & _ & _ & _ & Hgiven & _).
  split; [apply Hbpr; vm_compute; reflexivity|].
  split; [apply (Hgiven "maxRows"); [by right|vm_compute; reflexivity|reflexivity]|].
  vm_compute. reflexivity.
Defined.

(** C9, as the specification words it, fails: values that are no [uint]
    are stored as given. *)
Lemma constructor_keeps_malformed_values :
  let options : gmap string jsval :=
    {[ "bytesPerRow" := JNumber (-5); "maxRows" := JString "many" ]} in
  Spec.validUint (JNumber (-5)) = false
  ∧ Spec.validUint (JString "many") = false
  ∧ HexView.constructorOptions options !! "bytesPerRow" = Some (JNumber (-5))
  ∧ HexView.constructorOptions options !! "maxRows" = Some (JString "many")
  ∧ HexView.constructorOptions options !! "bytesPerRow" ≠ Some (JNumber 16)
  ∧ HexView.constructorOptions options !! "maxRows" ≠ Some (JNumber 100).
Proof.
  intros options. split; [reflexivity|]. split; [reflexivity|].
  assert (H1 : HexView.constructorOptions options !! "bytesPerRow" = Some (JNumber (-5)))
    by (vm_compute; reflexivity).
  assert (H2 : HexView.constructorOptions options !! "maxRows" = Some (JString "many"))
    by (vm_compute; reflexivity).
  rewrite H1, H2. repeat split; discriminate.
Qed.


(** * Further components: proofs *)

Example base64_hello :
  Base64.encode "Hello" false = "SGVsbG8="
  ∧ Base64.encodeBytes [251; 255; 190] true = "-_--"
  ∧ Base64.decodeToBytes "SGVs bG8=" false = Normal [72; 101; 108; 108; 111]
  ∧ Base64.decodeToBytes "-_-_-w" true = Normal [251; 255; 191; 251]
  ∧ Base64.decodeToBytes "SGVsb" false = Throw (Error "InvalidCharacterError")
  ∧ Base64.decodeToBytes "SG-s" false = Throw (Error "InvalidCharacterError").
Proof. vm_compute. repeat split. Qed.

(** ** Lists by threes, loops as maps *)

Lemma list_ind3 (P : list Z → Prop) :
  P [] → (∀ a, P [a]) → (∀ a b, P [a; b]) →
  (∀ a b c rest, P rest → P (a :: b :: c :: rest)) →
  ∀ l, P l.
Proof.
  intros H0 H1 H2 H3 l.
  assert (H : P l ∧ (∀ a, P (a :: l)) ∧ (∀ a b, P (a :: b :: l))).
  { induction l as [|x l (IH0 & IH1 & IH2)]; [by repeat split|].
    split; [apply IH1|]. split; [intros a; apply IH2|]. intros a b. by apply H3. }
  apply H.
Qed.

Lemma foldl_store (f : nat → Z) (m k : nat) (l : list Z) :
  length l = (k + m)%nat →
  foldl (λ bytes i, <[ i := f i ]> bytes) l (seq k m) = take k l ++ (f <$> seq k m).
Proof.
  revert k l. induction m as [|m IH]; intros k l Hlen.
  - simpl. rewrite take_ge by lia. by rewrite app_nil_r.
  - cbn [seq foldl]. rewrite IH by (rewrite length_insert; lia).
    rewrite (take_S_r _ _ (f k)) by (apply list_lookup_insert_eq; lia).
    rewrite take_insert_ge by lia. cbn. by rewrite <- app_assoc.
Qed.

Lemma foldl_store_new (f : nat → Z) (n : nat) :
  foldl (λ bytes i, <[ i := f i ]> bytes) (Js.newUint8Array n) (seq 0 n) = f <$> seq 0 n.
Proof.
  unfold Js.newUint8Array.
  rewrite foldl_store by (rewrite length_replicate; lia). by rewrite take_0.
Qed.

Lemma map_at_seq (l : list Z) (g : Z → Z) :
  (λ i, g (Js.at_ l i)) <$> seq 0 (length l) = g <$> l.
Proof.
  apply list_eq. intros i. rewrite !list_lookup_fmap.
  destruct (l !! i) as [x|] eqn:Hx.
  - rewrite lookup_seq_lt by (by eapply lookup_lt_Some). simpl.
    unfold Js.at_. by rewrite Hx.
  - rewrite lookup_seq_ge by (by apply lookup_ge_None). reflexivity.
Qed.

Lemma str_length_app (a b : string) :
  String.length (a +:+ b) = (String.length a + String.length b)%nat.
Proof. induction a as [|c a IH]; simpl; [done|]. by rewrite IH. Qed.

(** ** Character codes *)

Lemma charCodes_length (s : string) : length (Js2.charCodes s) = String.length s.
Proof. induction s as [|c s IH]; simpl; [done|]. by rewrite IH. Qed.

Lemma charCodes_bytes (s : string) : bytes_ok (Js2.charCodes s).
Proof.
  induction s as [|c s IH]; [apply List.Forall_nil|]. apply List.Forall_cons; [|exact IH].
  unfold is_byte. pose proof (nat_ascii_bounded c) as Hb.
  unfold nat_of_ascii in Hb. lia.
Qed.

Lemma charCodes_fromCharCodes (bs : list Z) :
  bytes_ok bs → Js2.charCodes (Js2.fromCharCodes bs) = bs.
Proof.
  induction 1 as [|b bs Hb _ IH]; [done|]. simpl. rewrite IH. f_equal.
  unfold is_byte in Hb. rewrite N_ascii_embedding by lia. lia.
Qed.

Lemma fromCharCodes_charCodes (s : string) : Js2.fromCharCodes (Js2.charCodes s) = s.
Proof.
  induction s as [|c s IH]; [done|]. simpl.
  by rewrite N2Z.id, ascii_N_embedding, IH.
Qed.

Lemma binaryOf_codes (bytes : list Z) : Base64.binaryOf bytes = Js2.fromCharCodes bytes.
Proof.
  unfold Base64.binaryOf.
  assert (H : ∀ l pre acc,
            foldl (λ binary i, binary +:+ Js.fromCharCode (Js.at_ (pre ++ l) i)) acc
                  (seq (length pre) (length l))
            = acc +:+ Js2.fromCharCodes l).
  { induction l as [|x l IH]; intros pre acc; [by rewrite str_app_nil_r|].
    cbn [length seq foldl].
    replace (pre ++ x :: l) with ((pre ++ [x]) ++ l) by (by rewrite <- app_assoc).
    replace (S (length pre)) with (length (pre ++ [x]))
      by (rewrite length_app; simpl; lia).
    rewrite IH. unfold Js.at_ at 1.
    rewrite lookup_app_l by (rewrite length_app; simpl; lia).
    rewrite lookup_app_r, Nat.sub_diag by lia. simpl.
    rewrite str_app_assoc. reflexivity. }
  apply (H bytes [] "").
Qed.

Lemma ToUint8_bytes (l : list Z) :
  bytes_ok l → (λ z, Js.ToUint8 (Some z)) <$> l = l.
Proof.
  induction 1 as [|b bs Hb _ IH]; [done|]. cbn [fmap list_fmap]. f_equal; [|exact IH].
  apply Z.mod_small. exact Hb.
Qed.

Lemma bytesOf_codes (binary : string) : Base64.bytesOf binary = Js2.charCodes binary.
Proof.
  unfold Base64.bytesOf. rewrite foldl_store_new, <- charCodes_length.
  rewrite (map_at_seq (Js2.charCodes binary) (λ z, Js.ToUint8 (Some z))).
  apply ToUint8_bytes, charCodes_bytes.
Qed.

(** ** The Base64 alphabet *)

Lemma ascii_forall (P : ascii → bool) :
  forallb P (ascii_of_nat <$> seq 0 256) = true → ∀ c, P c = true.
Proof.
  intros Hall c. rewrite forallb_forall in Hall. apply Hall, ascii_In.
Qed.

Lemma alpha_char (c : ascii) : Props.alphaCheck c = true.
Proof. revert c. apply ascii_forall. vm_compute. reflexivity. Qed.

Lemma alpha_facts (c : ascii) :
  Js2.isAlphabet c = true →
  Js2.isAsciiWhitespace c = false ∧ Ascii.eqb c "=" = false.
Proof.
  intros Hc. pose proof (alpha_char c) as H. unfold Props.alphaCheck in H.
  rewrite Hc in H. cbn [implb] in H.
  rewrite !andb_true_iff, !negb_true_iff in H. tauto.
Qed.

Lemma b64char_index (i : Z) :
  0 ≤ i < 64 → Js2.b64index (Js2.b64char i) = Some i.
Proof.
  intros Hi.
  assert (H : (if i <? 64 then bool_decide (Js2.b64index (Js2.b64char i) = Some i) else true) = true).
  { assert (Hb : is_byte i) by (unfold is_byte; lia). clear Hi. revert i Hb.
    apply byte_forall. vm_compute. reflexivity. }
  destruct (Z.ltb_spec i 64); [|lia]. by apply bool_decide_eq_true in H.
Qed.

Lemma b64char_alphabet (i : Z) : 0 ≤ i < 64 → Js2.isAlphabet (Js2.b64char i) = true.
Proof. intros Hi. unfold Js2.isAlphabet. by rewrite b64char_index. Qed.

Lemma bytes_ok_cons (a : Z) (l : list Z) :
  bytes_ok (a :: l) ↔ is_byte a ∧ bytes_ok l.
Proof. unfold bytes_ok. apply Forall_cons. Qed.

Ltac byte_arith :=
  unfold is_byte in *; Z.div_mod_to_equations; lia.

Lemma idx_hi (a : Z) : is_byte a → 0 ≤ a / 4 < 64.
Proof. intros. byte_arith. Qed.
Lemma idx_lo1 (a : Z) : is_byte a → 0 ≤ a mod 4 * 16 < 64.
Proof. intros. byte_arith. Qed.
Lemma idx_mid1 (a b : Z) : is_byte a → is_byte b → 0 ≤ a mod 4 * 16 + b / 16 < 64.
Proof. intros. byte_arith. Qed.
Lemma idx_lo2 (b : Z) : is_byte b → 0 ≤ b mod 16 * 4 < 64.
Proof. intros. byte_arith. Qed.
Lemma idx_mid2 (b c : Z) : is_byte b → is_byte c → 0 ≤ b mod 16 * 4 + c / 64 < 64.
Proof. intros. byte_arith. Qed.
Lemma idx_last (c : Z) : is_byte c → 0 ≤ c mod 64 < 64.
Proof. intros. byte_arith. Qed.

Create HintDb b64 discriminated.
#[local] Hint Resolve idx_hi idx_lo1 idx_mid1 idx_lo2 idx_mid2 idx_last : b64.

Lemma b64body_alphabet (bs : list Z) :
  bytes_ok bs → Js2.allAlphabet (Props.b64body bs) = true.
Proof.
  induction bs as [|a|a b|a b c rest IH] using list_ind3;
    rewrite ?bytes_ok_cons; intros Hok; cbn [Props.b64body Js2.allAlphabet].
  - reflexivity.
  - destruct Hok as (Ha & _). by rewrite !b64char_alphabet by auto with b64.
  - destruct Hok as (Ha & Hb & _). by rewrite !b64char_alphabet by auto with b64.
  - destruct Hok as (Ha & Hb & Hc & Hrest).
    rewrite !b64char_alphabet by auto with b64. by rewrite IH.
Qed.

Lemma mod4_add4 (n : nat) : ((4 + n) mod 4 = n mod 4)%nat.
Proof.
  replace (4 + n)%nat with (n + 1 * 4)%nat by lia. apply Nat.Div0.mod_add.
Qed.

(** Padding completes the body to a multiple of four characters. *)
Lemma b64encode_body (bs : list Z) :
  ∃ pad, (pad = "" ∨ pad = "=" ∨ pad = "==")
         ∧ Js2.b64encode bs = Props.b64body bs +:+ pad
         ∧ ((String.length (Props.b64body bs) + String.length pad) mod 4 = 0)%nat.
Proof.
  induction bs as [|a|a b|a b c rest (pad & Hpad & Henc & Hlen)] using list_ind3.
  - exists "". by repeat split; [left|..].
  - exists "==". by repeat split; [right; right|..].
  - exists "=". by repeat split; [right; left|..].
  - exists pad. split; [exact Hpad|]. cbn [Js2.b64encode Props.b64body].
    rewrite Henc. split; [reflexivity|].
    cbn [String.length].
    replace (S (S (S (S (String.length (Props.b64body rest))))) + String.length pad)%nat
      with (4 + (String.length (Props.b64body rest) + String.length pad))%nat by lia.
    rewrite mod4_add4. exact Hlen.
Qed.

Lemma decodePass_body (bs : list Z) :
  bytes_ok bs → ∀ out, Js2.decodePass (Props.b64body bs) 0 0 out = out ++ bs.
Proof.
  induction bs as [|a|a b|a b c rest IH] using list_ind3;
    rewrite ?bytes_ok_cons; intros Hok out; cbn [Props.b64body].
  - cbn. by rewrite app_nil_r.
  - destruct Hok as (Ha & _). cbn [Js2.decodePass].
    rewrite !b64char_index by auto with b64. cbn. f_equal.
    repeat (apply (f_equal2 cons); [byte_arith|]). reflexivity.
  - destruct Hok as (Ha & Hb & _). cbn [Js2.decodePass].
    rewrite !b64char_index by auto with b64. cbn. f_equal.
    repeat (apply (f_equal2 cons); [byte_arith|]). reflexivity.
  - destruct Hok as (Ha & Hb & Hc & Hrest). cbn [Js2.decodePass].
    rewrite !b64char_index by auto with b64. cbn [default from_option id Nat.add Nat.eqb].
    rewrite IH by done. rewrite <- app_assoc. f_equal. cbn [app].
    repeat (apply (f_equal2 cons); [byte_arith|]). reflexivity.
Qed.

(** ** Texts over the alphabet *)

Lemma removeWhitespace_alphabet (s pad : string) :
  Js2.allAlphabet s = true → pad = "" ∨ pad = "=" ∨ pad = "==" →
  Js2.removeWhitespace (s +:+ pad) = s +:+ pad.
Proof.
  intros Hs Hpad. induction s as [|c s IH].
  - by destruct Hpad as [->|[->| ->]].
  - cbn [Js2.allAlphabet] in Hs. apply andb_true_iff in Hs as [Hc Hs].
    cbn [String.append Js2.removeWhitespace].
    destruct (alpha_facts c Hc) as [-> _]. by rewrite IH.
Qed.

Lemma stripPadding_cons (c : ascii) (s : string) :
  Ascii.eqb c "=" = false →
  Js2.stripPadding (String c s) = String c (Js2.stripPadding s).
Proof.
  destruct c as [[] [] [] [] [] [] [] []]; intros H; try reflexivity; discriminate H.
Qed.

Lemma stripPadding_alphabet (s pad : string) :
  Js2.allAlphabet s = true → pad = "" ∨ pad = "=" ∨ pad = "==" →
  Js2.stripPadding (s +:+ pad) = s.
Proof.
  intros Hs Hpad. induction s as [|c s IH].
  - by destruct Hpad as [->|[->| ->]].
  - cbn [Js2.allAlphabet] in Hs. apply andb_true_iff in Hs as [Hc Hs].
    cbn [String.append]. destruct (alpha_facts c Hc) as [_ Heq].
    rewrite stripPadding_cons by done. by rewrite IH.
Qed.

Lemma mod4_not_1 (n p : nat) :
  ((n + p) mod 4 = 0)%nat → (p ≤ 2)%nat → (n mod 4 =? 1)%nat = false.
Proof.
  intros H Hp. apply Nat.eqb_neq. intros H1.
  pose proof (Nat.div_mod_eq (n + p) 4). pose proof (Nat.div_mod_eq n 4). lia.
Qed.

Lemma pad_length (pad : string) :
  pad = "" ∨ pad = "=" ∨ pad = "==" → (String.length pad ≤ 2)%nat.
Proof. intros [->|[->| ->]]; simpl; lia. Qed.

Lemma atob_b64encode (bs : list Z) :
  bytes_ok bs → Js2.atob (Js2.b64encode bs) = Normal (Js2.fromCharCodes bs).
Proof.
  intros Hok. destruct (b64encode_body bs) as (pad & Hpad & -> & Hlen).
  pose proof (b64body_alphabet bs Hok) as Halpha.
  unfold Js2.atob. rewrite removeWhitespace_alphabet by done.
  rewrite str_length_app, Hlen. cbn [Nat.eqb].
  rewrite stripPadding_alphabet by done.
  rewrite (mod4_not_1 _ _ Hlen (pad_length pad Hpad)), Halpha. cbn [negb].
  by rewrite decodePass_body.
Qed.

(** ** Base64: round trips *)

(** X1. Decoding what [encodeBytes] produced gives the bytes back, in
    the standard alphabet: for every byte buffer [b],
    [decodeToBytes (encodeBytes b)] returns [b]. *)
Theorem base64_roundtrip (b : list Z) :
  bytes_ok b →
  Base64.decodeToBytes (Base64.encodeBytes b false) false = Normal b.
Proof.
  intros Hok. unfold Base64.decodeToBytes, Base64.encodeBytes, Js2.btoa.
  rewrite binaryOf_codes, charCodes_fromCharCodes, atob_b64encode by done.
  by rewrite bytesOf_codes, charCodes_fromCharCodes.
Qed.

Lemma base64_roundtrip_witness :
  bytes_ok [0; 255; 16; 128]
  ∧ Base64.decodeToBytes (Base64.encodeBytes [0; 255; 16; 128] false) false
    = Normal [0; 255; 16; 128].
Proof.
  assert (Hok : bytes_ok [0; 255; 16; 128])
    by (repeat (apply List.Forall_cons; [unfold is_byte; lia|]); apply List.Forall_nil).
  split; [exact Hok|]. exact (base64_roundtrip _ Hok).
Defined.

Lemma replaceChar_app (c d : ascii) (s t : string) :
  Js2.replaceChar c d (s +:+ t) = Js2.replaceChar c d s +:+ Js2.replaceChar c d t.
Proof. induction s as [|x s IH]; simpl; [done|]. by rewrite IH. Qed.

Lemma removeChar_app (c : ascii) (s t : string) :
  Js2.removeChar c (s +:+ t) = Js2.removeChar c s +:+ Js2.removeChar c t.
Proof.
  induction s as [|x s IH]; simpl; [done|].
  destruct (Ascii.eqb x c); simpl; by rewrite IH.
Qed.

Lemma urlChars_app (s t : string) :
  Props.urlChars (s +:+ t) = Props.urlChars s +:+ Props.urlChars t.
Proof. unfold Props.urlChars. by rewrite !replaceChar_app. Qed.

Lemma urlChars_cons (c : ascii) (s : string) :
  Props.urlChars (String c s) =
  String (if Ascii.eqb (if Ascii.eqb c "+" then "-"%char else c) "/"
          then "_"%char else (if Ascii.eqb c "+" then "-"%char else c))
         (Props.urlChars s).
Proof. reflexivity. Qed.

Lemma stdChars_cons (c : ascii) (s : string) :
  Props.stdChars (String c s) =
  String (if Ascii.eqb (if Ascii.eqb c "-" then "+"%char else c) "_"
          then "/"%char else (if Ascii.eqb c "-" then "+"%char else c))
         (Props.stdChars s).
Proof. reflexivity. Qed.

(** On a text over the alphabet the URL-safe replacements are undone by
    their inverses, and their result holds no [+], [/] or [=]. *)
Lemma urlChars_alphabet (s : string) :
  Js2.allAlphabet s = true →
  Props.stdChars (Props.urlChars s) = s
  ∧ Js2.removeChar "=" (Props.urlChars s) = Props.urlChars s
  ∧ Props.lacks "+" (Props.urlChars s) = true
  ∧ Props.lacks "/" (Props.urlChars s) = true
  ∧ Props.lacks "=" (Props.urlChars s) = true.
Proof.
  induction s as [|c s IH]; [done|].
  cbn [Js2.allAlphabet]. intros Hs. apply andb_true_iff in Hs as [Hc Hs].
  destruct (IH Hs) as (IH1 & IH2 & IH3 & IH4 & IH5).
  pose proof (alpha_char c) as H. unfold Props.alphaCheck in H.
  rewrite Hc in H. cbn [implb] in H. cbv zeta in H.
  rewrite !andb_true_iff, !negb_true_iff in H.
  destruct H as (((((_ & _) & Hu1) & Hu2) & Hu3) & Hback).
  rewrite urlChars_cons, stdChars_cons.
  cbn [Js2.removeChar Props.lacks].
  rewrite Hu1, Hu2, Hu3, IH1, IH2, IH3, IH4, IH5.
  apply Ascii.eqb_eq in Hback. rewrite Hback. done.
Qed.

Lemma pad_chars (pad : string) :
  pad = "" ∨ pad = "=" ∨ pad = "==" →
  Props.urlChars pad = pad ∧ Props.stdChars pad = pad ∧ Js2.removeChar "=" pad = "".
Proof. by intros [->|[->| ->]]. Qed.

Lemma padLoop_body (body pad : string) :
  pad = "" ∨ pad = "=" ∨ pad = "==" →
  ((String.length body + String.length pad) mod 4 = 0)%nat →
  Base64.padLoop 3 body = body +:+ pad.
Proof.
  intros Hpad Hlen.
  pose proof (Nat.div_mod_eq (String.length body) 4) as Hb.
  pose proof (Nat.mod_upper_bound (String.length body) 4 ltac:(lia)) as Hb'.
  pose proof (Nat.div_mod_eq (String.length body + String.length pad) 4) as Hs.
  destruct Hpad as [->|[->| ->]]; cbn [String.length] in *.
  - cbn [Base64.padLoop]. replace (String.length body mod 4)%nat with 0%nat by lia.
    cbn. by rewrite str_app_nil_r.
  - assert (H3 : (String.length body mod 4 = 3)%nat) by lia.
    cbn [Base64.padLoop]. rewrite H3. cbn [Nat.eqb].
    rewrite str_length_app. cbn [String.length]. by rewrite Hlen.
  - assert (H2 : (String.length body mod 4 = 2)%nat) by lia.
    cbn [Base64.padLoop]. rewrite H2. cbn [Nat.eqb].
    rewrite !str_length_app. cbn [String.length].
    replace ((String.length body + 1) mod 4)%nat with 3%nat.
    2:{ pose proof (Nat.div_mod_eq (String.length body + 1) 4).
        pose proof (Nat.mod_upper_bound (String.length body + 1) 4 ltac:(lia)). lia. }
    cbn [Nat.eqb].
    replace (String.length body + 1 + 1)%nat with (String.length body + 2)%nat by lia.
    rewrite Hlen. cbn [Nat.eqb]. by rewrite str_app_assoc.
Qed.

Lemma encodeBytes_url (b : list Z) :
  bytes_ok b → Base64.encodeBytes b true = Props.urlChars (Props.b64body b).
Proof.
  intros Hok. unfold Base64.encodeBytes, Js2.btoa.
  rewrite binaryOf_codes, charCodes_fromCharCodes by done.
  destruct (b64encode_body b) as (pad & Hpad & -> & _).
  destruct (pad_chars pad Hpad) as (Hu & _ & Hr).
  destruct (urlChars_alphabet _ (b64body_alphabet b Hok)) as (_ & Hrm & _).
  change (Js2.replaceChar "/" "_" (Js2.replaceChar "+" "-" (Props.b64body b +:+ pad)))
    with (Props.urlChars (Props.b64body b +:+ pad)).
  rewrite urlChars_app, removeChar_app, Hu, Hr, Hrm. apply str_app_nil_r.
Qed.

(** X2. In URL-safe mode too, decoding what [encodeBytes] produced gives
    the bytes back, and the encoded text holds none of [+], [/] and [=]
    (the padding is dropped by the encoder and restored by the
    decoder). *)
Theorem base64_url_roundtrip (b : list Z) :
  bytes_ok b →
  Base64.decodeToBytes (Base64.encodeBytes b true) true = Normal b
  ∧ Props.lacks "+" (Base64.encodeBytes b true) = true
  ∧ Props.lacks "/" (Base64.encodeBytes b true) = true
  ∧ Props.lacks "=" (Base64.encodeBytes b true) = true.
Proof.
  intros Hok. rewrite (encodeBytes_url b Hok).
  destruct (urlChars_alphabet _ (b64body_alphabet b Hok)) as (Hback & _ & H1 & H2 & H3).
  split; [|done]. unfold Base64.decodeToBytes.
  change (Js2.replaceChar "_" "/" (Js2.replaceChar "-" "+" (Props.urlChars (Props.b64body b))))
    with (Props.stdChars (Props.urlChars (Props.b64body b))).
  rewrite Hback. destruct (b64encode_body b) as (pad & Hpad & Henc & Hlen).
  rewrite (padLoop_body _ pad Hpad Hlen), <- Henc, atob_b64encode by done.
  by rewrite bytesOf_codes, charCodes_fromCharCodes.
Qed.

Lemma base64_url_roundtrip_witness :
  bytes_ok [251; 255; 191; 251]
  ∧ Base64.encodeBytes [251; 255; 191; 251] true = "-_-_-w"
  ∧ Base64.decodeToBytes "-_-_-w" true = Normal [251; 255; 191; 251].
Proof.
  assert (Hok : bytes_ok [251; 255; 191; 251])
    by (repeat (apply List.Forall_cons; [unfold is_byte; lia|]); apply List.Forall_nil).
  split; [exact Hok|].
  assert (Henc : Base64.encodeBytes [251; 255; 191; 251] true = "-_-_-w")
    by (vm_compute; reflexivity).
  split; [exact Henc|]. rewrite <- Henc.
  exact (proj1 (base64_url_roundtrip _ Hok)).
Defined.

(** ** Base64: the two modes against each other *)

Lemma stdChars_alphabet (s : string) :
  Js2.allAlphabet s = true → Props.stdChars s = s.
Proof.
  induction s as [|c s IH]; [done|].
  cbn [Js2.allAlphabet]. intros Hs. apply andb_true_iff in Hs as [Hc Hs].
  assert (H : Props.alphaCheck2 c = true)
    by (clear; revert c; apply ascii_forall; vm_compute; reflexivity).
  unfold Props.alphaCheck2 in H. rewrite Hc in H. cbn [implb] in H.
  rewrite !andb_true_iff, !negb_true_iff in H. destruct H as [H1 H2].
  rewrite stdChars_cons, H1, H2. by rewrite IH.
Qed.

Lemma lacks_allAlphabet (c : ascii) (s : string) :
  Js2.isAlphabet c = false → Props.lacks c s = false → Js2.allAlphabet s = false.
Proof.
  intros Hc. induction s as [|x s IH]; [done|].
  cbn [Props.lacks Js2.allAlphabet]. intros H.
  apply andb_false_iff in H as [H|H].
  - apply negb_false_iff, Ascii.eqb_eq in H. subst x. by rewrite Hc.
  - rewrite (IH H). apply andb_false_r.
Qed.

Lemma stripPadding_eq (rest : string) :
  Js2.stripPadding (String "=" rest) =
  if String.eqb rest "" || String.eqb rest "=" then ""
  else String "=" (Js2.stripPadding rest).
Proof.
  destruct rest as [|y rest]; [reflexivity|].
  destruct y as [[] [] [] [] [] [] [] []]; destruct rest; reflexivity.
Qed.

Lemma lacks_stripPadding (c : ascii) (s : string) :
  Ascii.eqb c "=" = false →
  Props.lacks c (Js2.stripPadding s) = Props.lacks c s.
Proof.
  intros Hc.
  assert (Hc' : Ascii.eqb "=" c = false) by (by rewrite Ascii.eqb_sym).
  induction s as [|x s IH]; [done|].
  destruct (Ascii.eqb_spec x "=") as [->|Hx].
  - rewrite stripPadding_eq. cbn [Props.lacks]. rewrite Hc'. cbn [negb andb].
    destruct (String.eqb_spec s "") as [->|_]; [done|].
    destruct (String.eqb_spec s "=") as [->|_];
      cbn [orb Props.lacks]; [by rewrite Hc'|].
    by rewrite Hc', IH.
  - rewrite stripPadding_cons by (by apply Ascii.eqb_neq).
    cbn [Props.lacks]. by rewrite IH.
Qed.

Lemma lacks_removeWhitespace (c : ascii) (s : string) :
  Js2.isAsciiWhitespace c = false →
  Props.lacks c (Js2.removeWhitespace s) = Props.lacks c s.
Proof.
  intros Hc. induction s as [|x s IH]; [done|].
  cbn [Js2.removeWhitespace Props.lacks].
  destruct (Js2.isAsciiWhitespace x) eqn:Hx; cbn [Props.lacks]; rewrite IH; [|done].
  destruct (Ascii.eqb_spec x c) as [->|_]; [congruence|done].
Qed.

Lemma atob_rejects (c : ascii) (s : string) :
  Js2.isAlphabet c = false → Js2.isAsciiWhitespace c = false →
  Ascii.eqb c "=" = false → Props.lacks c s = false →
  Js2.atob s = Throw (Error "InvalidCharacterError").
Proof.
  intros Ha Hw He Hs. unfold Js2.atob.
  rewrite <- (lacks_removeWhitespace c s Hw) in Hs.
  set (s1 := Js2.removeWhitespace s) in *.
  set (s2 := if (String.length s1 mod 4 =? 0)%nat then Js2.stripPadding s1 else s1).
  assert (H2 : Props.lacks c s2 = false).
  { unfold s2. destruct (_ =? 0)%nat; [by rewrite lacks_stripPadding|done]. }
  destruct (_ =? 1)%nat; [reflexivity|].
  by rewrite (lacks_allAlphabet c s2 Ha H2).
Qed.

(** X3. The two modes are not interchangeable in one direction only: the
    URL-safe decoder also decodes every standard encoding, while the
    standard decoder fails, with the error of [atob], on every text
    that holds a [-] or a [_]. *)
Theorem base64_modes (b : list Z) (text : string) :
  bytes_ok b →
  Props.lacks "-" text = false ∨ Props.lacks "_" text = false →
  Base64.decodeToBytes (Base64.encodeBytes b false) true = Normal b
  ∧ Base64.decodeToBytes text false = Throw (Error "InvalidCharacterError").
Proof.
  intros Hok Htext. split.
  - unfold Base64.decodeToBytes, Base64.encodeBytes, Js2.btoa.
    rewrite binaryOf_codes, charCodes_fromCharCodes by done.
    destruct (b64encode_body b) as (pad & Hpad & Henc & Hlen).
    assert (Hstd : Js2.replaceChar "_" "/" (Js2.replaceChar "-" "+" (Js2.b64encode b))
                   = Js2.b64encode b).
    { change (Props.stdChars (Js2.b64encode b) = Js2.b64encode b).
      rewrite Henc. unfold Props.stdChars. rewrite !replaceChar_app.
      fold (Props.stdChars (Props.b64body b)). fold (Props.stdChars pad).
      rewrite (stdChars_alphabet _ (b64body_alphabet b Hok)).
      by destruct (pad_chars pad Hpad) as (_ & -> & _). }
    rewrite Hstd.
    assert (Hpadded : Base64.padLoop 3 (Js2.b64encode b) = Js2.b64encode b).
    { cbn [Base64.padLoop]. by rewrite Henc, str_length_app, Hlen. }
    rewrite Hpadded, atob_b64encode by done.
    by rewrite bytesOf_codes, charCodes_fromCharCodes.
  - unfold Base64.decodeToBytes.
    destruct Htext as [H|H];
      [rewrite (atob_rejects "-" text)|rewrite (atob_rejects "_" text)]; done.
Qed.

Lemma base64_modes_witness :
  Base64.decodeToBytes (Base64.encodeBytes [251; 255; 191] false) true
    = Normal [251; 255; 191]
  ∧ Base64.decodeToBytes "-_-_" false = Throw (Error "InvalidCharacterError").
Proof.
  apply (base64_modes [251; 255; 191] "-_-_").
  - repeat (apply List.Forall_cons; [unfold is_byte; lia|]). apply List.Forall_nil.
  - left. reflexivity.
Defined.

(** ** UUID: the shape of a formatted text *)

(** X4. The text [format] makes of sixteen bytes has 36 characters, a
    [-] at the positions 8, 13, 18 and 23, and the 32 hex digits of the
    bytes, in order, elsewhere. *)
Theorem format_shape (b : list Z) :
  length b = 16%nat → bytes_ok b →
  String.length (UUID.format b) = 36%nat
  ∧ String.get 8 (UUID.format b) = Some "-"%char
  ∧ String.get 13 (UUID.format b) = Some "-"%char
  ∧ String.get 18 (UUID.format b) = Some "-"%char
  ∧ String.get 23 (UUID.format b) = Some "-"%char
  ∧ UUID.removeDashes (UUID.format b) = Spec.hexOf b
  ∧ String.length (Spec.hexOf b) = 32%nat.
Proof.
  intros Hlen Hok.
  split; [|split; [|split; [|split; [|split; [|split]]]]];
    try (by apply removeDashes_format);
    try (rewrite length_hexOf, Hlen; reflexivity);
    unfold UUID.format; rewrite (bytesToHex_hexOf b Hok); clear Hok;
    explode16 b Hlen; reflexivity.
Qed.

Lemma format_shape_witness :
  UUID.format (replicate 16 171) = "abababab-abab-abab-abab-abababababab"
  ∧ String.length (UUID.format (replicate 16 171)) = 36%nat.
Proof.
  split; [vm_compute; reflexivity|].
  apply (format_shape (replicate 16 171)); [reflexivity|].
  apply Forall_replicate. unfold is_byte. lia.
Defined.

(** ** UUID: the bytes of a word array *)

Lemma wordArrayToBytes_map (wa : WordArray) :
  UUID.wordArrayToBytes wa =
  (λ i, Js.ToUint8 (Some (UUID.wordByte (words wa) i))) <$> seq 0 (sigBytes wa).
Proof. unfold UUID.wordArrayToBytes, UUID.store. apply foldl_store_new. Qed.

Lemma wordByte_value (ws : list Z) (k j : nat) :
  (j < 4)%nat →
  Js.ToUint8 (Some (UUID.wordByte ws (4 * k + j)))
  = (Js.at_ ws k mod 2 ^ 32) / 2 ^ (24 - Z.of_nat j * 8) mod 256.
Proof.
  intros Hj. unfold UUID.wordByte, Js.ToUint8.
  replace ((4 * k + j) / 4)%nat with k
    by (apply (Nat.div_unique _ 4 k j); lia).
  replace ((4 * k + j) mod 4)%nat with j
    by (apply (Nat.mod_unique _ 4 k j); lia).
  change 255 with (Z.ones 8). rewrite Z.land_ones by lia.
  rewrite Z.shiftr_div_pow2 by lia.
  change (2 ^ 8) with 256. by rewrite Z.mod_mod.
Qed.

(** X5. [wordArrayToBytes] writes [sigBytes] bytes, the words in
    big-endian order: the four bytes of a complete word [k] put together
    give the word as an unsigned 32-bit integer (a negative word by its
    two's complement, a missing word as 0). *)
Theorem wordArrayToBytes_bigEndian (wa : WordArray) (k : nat) :
  (4 * k + 3 < sigBytes wa)%nat →
  let bytes := UUID.wordArrayToBytes wa in
  length bytes = sigBytes wa
  ∧ bytes_ok bytes
  ∧ Js.at_ bytes (4 * k) * 2 ^ 24 + Js.at_ bytes (4 * k + 1) * 2 ^ 16
    + Js.at_ bytes (4 * k + 2) * 2 ^ 8 + Js.at_ bytes (4 * k + 3)
    = Js.at_ (words wa) k mod 2 ^ 32.
Proof.
  intros Hk bytes. unfold bytes. rewrite wordArrayToBytes_map.
  split; [by rewrite length_fmap, length_seq|]. split.
  { unfold bytes_ok. apply Forall_fmap, Forall_forall. intros i _. apply ToUint8_byte. }
  assert (Hat : ∀ j, (j < 4)%nat →
            Js.at_ ((λ i, Js.ToUint8 (Some (UUID.wordByte (words wa) i)))
                      <$> seq 0 (sigBytes wa)) (4 * k + j)
            = (Js.at_ (words wa) k mod 2 ^ 32) / 2 ^ (24 - Z.of_nat j * 8) mod 256).
  { intros j Hj. unfold Js.at_ at 1.
    rewrite list_lookup_fmap, lookup_seq_lt by lia. cbn [fmap option_fmap option_map default from_option id].
    by apply wordByte_value. }
  replace (4 * k)%nat with (4 * k + 0)%nat at 1 by lia.
  rewrite !Hat by lia.
  pose proof (Z.mod_pos_bound (Js.at_ (words wa) k) (2 ^ 32) ltac:(lia)) as Hw.
  set (W := Js.at_ (words wa) k mod 2 ^ 32) in *.
  change (2 ^ (24 - Z.of_nat 0 * 8)) with 16777216.
  change (2 ^ (24 - Z.of_nat 1 * 8)) with 65536.
  change (2 ^ (24 - Z.of_nat 2 * 8)) with 256.
  change (2 ^ (24 - Z.of_nat 3 * 8)) with 1.
  change (2 ^ 32) with 4294967296 in Hw.
  change (2 ^ 24) with 16777216. change (2 ^ 16) with 65536. change (2 ^ 8) with 256.
  clearbody W. Z.div_mod_to_equations. lia.
Qed.

Lemma wordArrayToBytes_bigEndian_witness :
  let wa := mkWordArray [305419896; -1] 8 in
  UUID.wordArrayToBytes wa = [18; 52; 86; 120; 255; 255; 255; 255]
  ∧ Js.at_ (UUID.wordArrayToBytes wa) (4 * 1) * 2 ^ 24
    + Js.at_ (UUID.wordArrayToBytes wa) (4 * 1 + 1) * 2 ^ 16
    + Js.at_ (UUID.wordArrayToBytes wa) (4 * 1 + 2) * 2 ^ 8
    + Js.at_ (UUID.wordArrayToBytes wa) (4 * 1 + 3)
    = Js.at_ [305419896; -1] 1 mod 2 ^ 32.
Proof.
  intros wa. split; [vm_compute; reflexivity|].
  apply (wordArrayToBytes_bigEndian wa 1). simpl. lia.
Defined.

(** ** UUID: namespaces are not checked *)

(** X6. v3 and v5 accept every namespace text: v5 returns a UUID
    whenever the digest returns, v3 whenever CryptoJS is loaded, however
    malformed the namespace; and two namespaces that [parse] reads as
    the same bytes (the same characters after the dashes are removed, in
    particular) give the same result. *)
Theorem namespace_unchecked (subtle_digest : string → list Z → completion (list Z))
    (lib : CryptoJSLib) (namespace namespace' name : string) (w : World) :
  (∀ d, ∃ h, subtle_digest "SHA-1" d = Normal h) →
  CryptoJS w = Some lib →
  (∃ u, UUID.v5 subtle_digest namespace name w = (Normal u, w))
  ∧ (∃ u, UUID.v3 namespace name w = (Normal u, w))
  ∧ (UUID.removeDashes namespace' = UUID.removeDashes namespace →
     UUID.v5 subtle_digest namespace' name w = UUID.v5 subtle_digest namespace name w
     ∧ UUID.v3 namespace' name w = UUID.v3 namespace name w).
Proof.
  intros Hsha Hlib.
  destruct (v5_run subtle_digest namespace name w) as (ns & Hparse & H5).
  destruct (v3_run lib namespace name w Hlib) as (ns3 & Hparse3 & H3).
  split; [|split].
  - rewrite H5. destruct (Hsha (ns ++ Utils.stringToBytes name)) as (h & ->). by eexists.
  - rewrite H3. by eexists.
  - intros Hsame.
    destruct (v5_run subtle_digest namespace' name w) as (ns' & Hparse' & H5').
    destruct (v3_run lib namespace' name w Hlib) as (ns3' & Hparse3' & H3').
    assert (Hp : UUID.parse namespace' = UUID.parse namespace)
      by (unfold UUID.parse; by rewrite Hsame).
    rewrite H5, H5', H3, H3'.
    assert (ns' = ns) as -> by congruence.
    assert (ns3' = ns3) as -> by congruence.
    done.
Qed.

Lemma namespace_unchecked_witness :
  let digest := λ (_ : string) (d : list Z), Normal (take 20 (d ++ replicate 20 7)) in
  let lib := mkCryptoJS (λ d, mkWordArray d (length d))
                        (λ _, mkWordArray [305419896; -1; 0; 2147483647] 16) in
  let w := mkWorld (λ _, 0) 0 (Some lib) in
  (∃ u, UUID.v5 digest "not a uuid" "example.com" w = (Normal u, w))
  ∧ UUID.v5 digest "6BA7B8109DAD-11D180B400C04FD430C8" "example.com" w
    = UUID.v5 digest "6BA7B810-9DAD-11D1-80B4-00C04FD430C8" "example.com" w.
Proof.
  intros digest lib w.
  destruct (namespace_unchecked digest lib "not a uuid" "" "example.com" w)
    as (H5 & _ & _); [intros d; by eexists|reflexivity|].
  split; [exact H5|].
  destruct (namespace_unchecked digest lib "6BA7B810-9DAD-11D1-80B4-00C04FD430C8"
              "6BA7B8109DAD-11D180B400C04FD430C8" "example.com" w)
    as (_ & _ & Hsame); [intros d; by eexists|reflexivity|].
  apply Hsame. vm_compute. reflexivity.
Defined.

(** ** HexView: the ASCII column *)

(** X7. The text [byteToAscii] gives for a byte is safe to splice into
    markup: it is one of the entities for [<], [>] and [&], or a single
    other character.  A browser shows the character of a printable byte
    (32 to 126) and a dot for any other, so printable bytes are told
    apart by their text. *)
Theorem byteToAscii_safe (byte other : Z) :
  is_byte byte → is_byte other →
  Props.htmlSafe (HexView.byteToAscii byte) = true
  ∧ Props.unescape (HexView.byteToAscii byte)
    = (if (32 <=? byte) && (byte <=? 126) then Js.fromCharCode byte else ".")
  ∧ (32 ≤ byte ≤ 126 → 32 ≤ other ≤ 126 →
     HexView.byteToAscii byte = HexView.byteToAscii other → byte = other).
Proof.
  intros Hb Ho.
  assert (Hall : ∀ x, is_byte x →
            Props.htmlSafe (HexView.byteToAscii x) = true
            ∧ Props.unescape (HexView.byteToAscii x)
              = (if (32 <=? x) && (x <=? 126) then Js.fromCharCode x else ".")).
  { intros x Hx.
    assert (H : Props.htmlSafe (HexView.byteToAscii x)
                && String.eqb (Props.unescape (HexView.byteToAscii x))
                     (if (32 <=? x) && (x <=? 126) then Js.fromCharCode x else ".")
                = true)
      by (revert x Hx; apply byte_forall; vm_compute; reflexivity).
    apply andb_true_iff in H as [H1 H2]. by apply String.eqb_eq in H2. }
  destruct (Hall byte Hb) as [Hsafe Hun]. split; [exact Hsafe|]. split; [exact Hun|].
  intros Hp Hq Heq. destruct (Hall other Ho) as [_ Hun'].
  rewrite Heq, Hun' in Hun.
  destruct (Z.leb_spec 32 byte), (Z.leb_spec byte 126); try lia.
  destruct (Z.leb_spec 32 other), (Z.leb_spec other 126); try lia.
  cbn [andb] in Hun. unfold Js.fromCharCode in Hun. injection Hun as Hun.
  apply (f_equal N_of_ascii) in Hun.
  unfold is_byte in *. rewrite !N_ascii_embedding in Hun by lia. lia.
Qed.

Lemma byteToAscii_safe_witness :
  HexView.byteToAscii 60 = "&lt;"
  ∧ Props.htmlSafe (HexView.byteToAscii 60) = true
  ∧ Props.unescape (HexView.byteToAscii 60) = "<".
Proof.
  split; [reflexivity|].
  destruct (byteToAscii_safe 60 7) as (Hsafe & Hun & _);
    [unfold is_byte; lia..|].
  split; [exact Hsafe|]. exact Hun.
Defined.

(** ** HexView: resetting and rendering again *)

Section HexViewExtras.

Variable formatSize : Z → string.

(** X8. [clear], and [setData] with a value that is no string, buffer or
    byte array, put the view into the no-data state under every
    configuration, negative values included: [getData] is [null],
    [getHexString] is empty, the markup is the no-data markup, and the
    buffers of the heap are untouched. *)
Theorem hexview_reset (st : HexView.State) :
  ∃ st',
    HexView.clear formatSize st = Some st'
    ∧ HexView.setData formatSize HexView.ArgOther st = Some st'
    ∧ HexView.getData st' = None
    ∧ HexView.getHexString st' = ""
    ∧ innerHTML (HexView.container (HexView.this st')) = HexView.emptyHTML
    ∧ HexView.heap st' = HexView.heap st
    ∧ HexView.options (HexView.this st') = HexView.options (HexView.this st).
Proof. eexists. repeat split. Qed.

(** X9. Rendering again changes nothing: whenever [render] returns, a
    second [render] returns the very same state. *)
Theorem render_idempotent (st st' : HexView.State) :
  HexView.render formatSize st = Some st' →
  HexView.render formatSize st' = Some st'.
Proof.
  unfold HexView.render.
  destruct (HexView.dataBytes st) as [bytes|] eqn:Hdata.
  - destruct (length bytes =? 0)%nat eqn:Hlen.
    + intros [= <-]. unfold HexView.dataBytes in *. cbn in *.
      rewrite Hdata, Hlen. reflexivity.
    + destruct (HexView.renderLoop _ _ _ _ _ _) as [html|] eqn:Hloop; [|done].
      intros [= <-]. unfold HexView.dataBytes in *. cbn in *.
      rewrite Hdata, Hlen, Hloop. reflexivity.
  - intros [= <-]. unfold HexView.dataBytes in *. cbn in *. by rewrite Hdata.
Qed.

Lemma stringToBytes_bytes (s : string) : bytes_ok (Utils.stringToBytes s).
Proof.
  induction s as [|c s IH]; [apply List.Forall_nil|].
  cbn [Utils.stringToBytes]. apply Forall_app. split; [|exact IH].
  assert (H : forallb (λ z, (0 <=? z) && (z <? 256)) (Utils.encodeUnit c) = true)
    by (clear; revert c; apply ascii_forall; vm_compute; reflexivity).
  rewrite forallb_forall in H. apply Forall_forall. intros z Hz.
  apply list_elem_of_In in Hz. specialize (H z Hz).
  apply andb_true_iff in H as [H1 H2]. unfold is_byte. lia.
Qed.

(** X10. [setData] with a string stores its UTF-8 bytes in a new buffer:
    the reference [getData] returns was not in use, every buffer that
    existed is unchanged, and [getHexString] is the encoding of the
    bytes; the empty string gives the no-data markup. *)
Theorem setData_string (st : HexView.State) (s : string) :
  0 ≤ HexView.bytesPerRow (HexView.options (HexView.this st)) →
  0 ≤ HexView.maxRows (HexView.options (HexView.this st)) →
  ∃ st' l,
    HexView.setData formatSize (HexView.ArgString s) st = Some st'
    ∧ HexView.heap st !! l = None
    ∧ HexView.getData st' = Some l
    ∧ HexView.heap st' = <[ l := Utils.stringToBytes s ]> (HexView.heap st)
    ∧ (∀ l' buf, HexView.heap st !! l' = Some buf → HexView.heap st' !! l' = Some buf)
    ∧ HexView.getHexString st' = Spec.hexOf (Utils.stringToBytes s)
    ∧ (s = "" →
       innerHTML (HexView.container (HexView.this st')) = HexView.emptyHTML).
Proof.
  intros Hbpr Hmax.
  set (l := fresh (dom (HexView.heap st))).
  assert (Hfresh : HexView.heap st !! l = None)
    by (apply not_elem_of_dom, is_fresh).
  set (st0 := HexView.setDataField (Some l)
                (HexView.mkState (<[ l := Utils.stringToBytes s ]> (HexView.heap st))
                   (HexView.this st))).
  destruct (render_returns formatSize st0 Hbpr Hmax) as [st' Hrender].
  destruct (render_frame formatSize st0 st' Hrender) as (Hheap & Hdata & _ & _).
  assert (Hbytes : HexView.dataBytes st' = Some (Utils.stringToBytes s)).
  { unfold HexView.dataBytes. rewrite Hdata, Hheap. cbn. by rewrite lookup_insert_eq. }
  exists st', l. split; [exact Hrender|]. split; [exact Hfresh|].
  split; [exact Hdata|]. split; [exact Hheap|]. split.
  { intros l' buf Hl'. rewrite Hheap. cbn. rewrite lookup_insert_ne; [done|congruence]. }
  split; [apply getHexString_hexOf; [done|apply stringToBytes_bytes]|].
  intros ->. rewrite (render_empty formatSize st0) in Hrender.
  - by injection Hrender as <-.
  - right. unfold HexView.dataBytes, st0. cbn. by rewrite lookup_insert_eq.
Qed.

End HexViewExtras.

Lemma render_idempotent_witness :
  let formatSize := λ n : Z, pretty n +:+ " Bytes" in
  let st := HexView.mkState {[ 0%nat := [72; 105] ]}
              (HexView.mkObj (mkElement "" []) (HexView.mkOptions 16 true true 100)
                 (Some 0%nat) (-1)) in
  ∃ st', HexView.render formatSize st = Some st'
         ∧ HexView.render formatSize st' = Some st'.
Proof.
  intros formatSize st.
  destruct (render_returns formatSize st) as [st' H]; [simpl; lia..|].
  exists st'. split; [exact H|]. exact (render_idempotent formatSize st st' H).
Defined.

Lemma setData_string_witness :
  let formatSize := λ n : Z, pretty n +:+ " Bytes" in
  let st := HexView.mkState {[ 0%nat := [1; 2] ]}
              (HexView.mkObj (mkElement "" []) (HexView.mkOptions 16 true true 100)
                 (Some 0%nat) (-1)) in
  ∃ st' l,
    HexView.setData formatSize (HexView.ArgString "Hi") st = Some st'
    ∧ HexView.getData st' = Some l
    ∧ HexView.heap st' !! 0%nat = Some [1; 2]
    ∧ HexView.getHexString st' = "4869".
Proof.
  intros formatSize st.
  destruct (setData_string formatSize st "Hi")
    as (st' & l & Hset & _ & Hget & _ & Hkeep & Hhex & _); [simpl; lia..|].
  exists st', l. split; [exact Hset|]. split; [exact Hget|].
  split; [apply Hkeep; vm_compute; reflexivity|exact Hhex].
Defined.

(** ** ThemeManager *)

Lemma setTheme_consistent (t : string) (p : ThemeManager.Page) :
  t ≠ "" → Props.themeConsistent t (ThemeManager.setTheme t p).
Proof.
  intros Ht. unfold Props.themeConsistent, ThemeManager.setTheme,
    ThemeManager.updateToggleButton.
  destruct p as [ls dt [btn|]]; cbn.
  - split; [exact Ht|]. split; [apply lookup_insert_eq|]. split; [reflexivity|].
    intros b [= <-]. split; reflexivity.
  - split; [exact Ht|]. split; [apply lookup_insert_eq|]. split; [reflexivity|].
    intros b [=].
Qed.

Lemma consistent_saved (t : string) (p : ThemeManager.Page) :
  Props.themeConsistent t p → ThemeManager.noSavedTheme p = false.
Proof.
  intros (Ht & Hls & _). unfold ThemeManager.noSavedTheme. rewrite Hls.
  apply String.eqb_neq. exact Ht.
Qed.

Lemma init_consistent (prefersDark : bool) (p : ThemeManager.Page) :
  ∃ t, Props.themeConsistent t (ThemeManager.init prefersDark p).
Proof.
  unfold ThemeManager.init.
  destruct (ThemeManager.noSavedTheme p) eqn:Hsaved.
  - eexists. apply setTheme_consistent. by destruct prefersDark.
  - eexists. apply setTheme_consistent.
    unfold ThemeManager.noSavedTheme in Hsaved.
    destruct (ThemeManager.localStorage p !! ThemeManager.STORAGE_KEY) as [s|];
      [|done].
    cbn. by apply String.eqb_neq.
Qed.

Lemma step_consistent (t : string) (p : ThemeManager.Page) (e : ThemeManager.event) :
  Props.themeConsistent t p → ∃ t', Props.themeConsistent t' (ThemeManager.step p e).
Proof.
  intros Hc. destruct e as [|m]; cbn [ThemeManager.step].
  - unfold ThemeManager.toggle. eexists. apply setTheme_consistent.
    destruct (ThemeManager.dataTheme p) as [c|]; [|done].
    by destruct (String.eqb c ThemeManager.DARK).
  - unfold ThemeManager.onSystemChange. rewrite (consistent_saved t p Hc).
    by exists t.
Qed.

Lemma run_consistent (es : list ThemeManager.event) (t : string)
    (p : ThemeManager.Page) :
  Props.themeConsistent t p → ∃ t', Props.themeConsistent t' (ThemeManager.run es p).
Proof.
  revert t p. induction es as [|e es IH]; intros t p Hc.
  - by exists t.
  - destruct (step_consistent t p e Hc) as [t' Hc'].
    exact (IH t' _ Hc').
Qed.

Lemma reachable_consistent (prefersDark : bool) (p : ThemeManager.Page)
    (es : list ThemeManager.event) :
  ∃ t, Props.themeConsistent t (ThemeManager.run es (ThemeManager.init prefersDark p)).
Proof.
  destruct (init_consistent prefersDark p) as [t Hc].
  exact (run_consistent es t _ Hc).
Qed.

(** X11. Once [ThemeManager.init] has run, whatever sequence of toggles
    and system-preference changes follows, the page shows one non-empty
    theme: [localStorage], the [data-theme] attribute and the toggle
    button (when the page has one) agree on it. *)
Theorem theme_consistent (prefersDark : bool) (p : ThemeManager.Page)
    (es : list ThemeManager.event) :
  ∃ t, Props.themeConsistent t (ThemeManager.run es (ThemeManager.init prefersDark p)).
Proof.
  exact (reachable_consistent prefersDark p es).
Qed.

Lemma run_toggles (es : list ThemeManager.event) (t : string)
    (p : ThemeManager.Page) :
  Props.themeConsistent t p →
  ThemeManager.run es p = ThemeManager.run (filter Props.isToggle es) p.
Proof.
  revert t p. induction es as [|e es IH]; intros t p Hc; [done|].
  destruct e as [|m].
  - rewrite filter_cons_True by done.
    destruct (step_consistent t p ThemeManager.Toggle Hc) as [t' Hc'].
    exact (IH t' _ Hc').
  - rewrite filter_cons_False by (cbn; auto).
    cbn [ThemeManager.run foldl ThemeManager.step].
    unfold ThemeManager.onSystemChange. rewrite (consistent_saved t p Hc).
    exact (IH t p Hc).
Qed.

(** X12. [ThemeManager.init] always stores a theme, so the listener for
    changes of the system preference never changes anything afterwards:
    the page reached after any events is the page reached after the
    toggles among them alone, and a change of the system preference
    leaves every reachable page as it is. *)
Theorem system_preference_ignored (prefersDark : bool) (p : ThemeManager.Page)
    (es : list ThemeManager.event) (matches : bool) :
  ThemeManager.run es (ThemeManager.init prefersDark p)
    = ThemeManager.run (filter Props.isToggle es) (ThemeManager.init prefersDark p) ∧
  ThemeManager.onSystemChange matches
      (ThemeManager.run es (ThemeManager.init prefersDark p))
    = ThemeManager.run es (ThemeManager.init prefersDark p).
Proof.
  destruct (init_consistent prefersDark p) as [t Hc]. split.
  - exact (run_toggles es t _ Hc).
  - destruct (run_consistent es t _ Hc) as [t' Hc'].
    unfold ThemeManager.onSystemChange. by rewrite (consistent_saved t' _ Hc').
Qed.

Lemma toggle_theme (p : ThemeManager.Page) :
  ThemeManager.dataTheme (ThemeManager.toggle p) = Some ThemeManager.LIGHT ∨
  ThemeManager.dataTheme (ThemeManager.toggle p) = Some ThemeManager.DARK.
Proof.
  unfold ThemeManager.toggle, ThemeManager.setTheme, ThemeManager.updateToggleButton.
  destruct p as [ls [c|] [btn|]]; cbn; try (destruct (String.eqb c _)); auto.
Qed.

Lemma toggle_twice_consistent (t : string) (p : ThemeManager.Page) :
  Props.themeConsistent t p →
  t = ThemeManager.LIGHT ∨ t = ThemeManager.DARK →
  ThemeManager.toggle (ThemeManager.toggle p) = p.
Proof.
  intros (_ & Hls & Hdt & Hbtn) Ht.
  destruct p as [ls dt btn]; cbn in Hls, Hdt, Hbtn. subst dt.
  assert (Hstore : ∀ t', <[ThemeManager.STORAGE_KEY := t]>
            (<[ThemeManager.STORAGE_KEY := t']> ls) = ls).
  { intros t'. rewrite insert_insert_eq. by apply insert_id. }
  destruct btn as [[html aria]|].
  - destruct (Hbtn _ eq_refl) as [Hhtml Haria]; cbn in Hhtml, Haria.
    destruct Ht as [-> | ->]; cbn in Hhtml, Haria; subst html aria;
      unfold ThemeManager.toggle, ThemeManager.setTheme,
        ThemeManager.updateToggleButton; cbn; f_equal; apply Hstore.
  - destruct Ht as [-> | ->];
      unfold ThemeManager.toggle, ThemeManager.setTheme,
        ThemeManager.updateToggleButton; cbn; f_equal; apply Hstore.
Qed.

(** X13. On a page reached after [ThemeManager.init], toggling twice
    gives the page back exactly when its theme is "light" or "dark".  A
    saved theme is applied without being checked; from any other theme
    the first toggle goes to "dark" and toggling never returns to it. *)
Theorem toggle_twice (prefersDark : bool) (p : ThemeManager.Page)
    (es : list ThemeManager.event) :
  let q := ThemeManager.run es (ThemeManager.init prefersDark p) in
  ∃ t, ThemeManager.dataTheme q = Some t ∧
    (ThemeManager.toggle (ThemeManager.toggle q) = q
       ↔ t = ThemeManager.LIGHT ∨ t = ThemeManager.DARK) ∧
    (t ≠ ThemeManager.DARK →
       ThemeManager.dataTheme (ThemeManager.toggle q) = Some ThemeManager.DARK) ∧
    (∀ saved, saved ≠ "" →
       ThemeManager.localStorage p !! ThemeManager.STORAGE_KEY = Some saved →
       ThemeManager.dataTheme (ThemeManager.init prefersDark p) = Some saved).
Proof.
  intros q. destruct (reachable_consistent prefersDark p es) as [t Hc].
  fold q in Hc. exists t.
  pose proof Hc as (_ & _ & Hdt & _).
  split; [exact Hdt|]. split; [|split].
  - split.
    + intros Heq. destruct (toggle_theme (ThemeManager.toggle q)) as [H|H];
        rewrite Heq, Hdt in H; injection H as ->; auto.
    + exact (toggle_twice_consistent t q Hc).
  - intros Hnd. unfold ThemeManager.toggle. rewrite Hdt.
    apply String.eqb_neq in Hnd. rewrite Hnd.
    unfold ThemeManager.setTheme, ThemeManager.updateToggleButton.
    by destruct (ThemeManager.toggleButton _).
  - intros saved Hne Hsaved. unfold ThemeManager.init, ThemeManager.noSavedTheme.
    rewrite Hsaved. apply String.eqb_neq in Hne. rewrite Hne. cbn.
    unfold ThemeManager.setTheme, ThemeManager.updateToggleButton.
    by destruct (ThemeManager.toggleButton _).
Qed.

(** ** Navigation *)

Lemma substring_all (t : string) : substring 0 (String.length t) t = t.
Proof. induction t as [|c t IH]; cbn; [done|]. by rewrite IH. Qed.

Lemma substring_app_r (p t : string) :
  substring (String.length p) (String.length t) (p +:+ t) = t.
Proof. induction p as [|c p IH]; cbn; [apply substring_all | exact IH]. Qed.

Lemma substring_split (s : string) (k : nat) :
  (k ≤ String.length s)%nat →
  s = substring 0 k s +:+ substring k (String.length s - k) s.
Proof.
  revert k. induction s as [|c s IH]; intros k Hk.
  - cbn in Hk. by replace k with 0%nat by lia.
  - destruct k as [|k].
    + cbn [substring]. rewrite Nat.sub_0_r.
      change (String c s = substring 0 (String.length (String c s)) (String c s)).
      by rewrite substring_all.
    + cbn in Hk. cbn. f_equal. apply IH. lia.
Qed.

Lemma endsWith_endsIn (s t : string) :
  Js2.endsWith s t = true ↔ Props.endsIn s t.
Proof.
  unfold Js2.endsWith, Props.endsIn. split.
  - destruct (String.length s <? String.length t)%nat eqn:Hlt; [discriminate|].
    apply Nat.ltb_ge in Hlt. intros Heq. apply String.eqb_eq in Heq.
    exists (substring 0 (String.length s - String.length t) s).
    pose proof (substring_split s (String.length s - String.length t)
                  ltac:(lia)) as Hs.
    replace (String.length s - (String.length s - String.length t))%nat
      with (String.length t) in Hs by lia.
    rewrite Heq in Hs. exact Hs.
  - intros [pre ->]. rewrite str_length_app.
    destruct (String.length pre + String.length t <? String.length t)%nat eqn:Hlt.
    { apply Nat.ltb_lt in Hlt. lia. }
    replace (String.length pre + String.length t - String.length t)%nat
      with (String.length pre) by lia.
    rewrite substring_app_r. apply String.eqb_refl.
Qed.

Lemma normalise_dot (r : string) : Navigation.normalise ("./" +:+ r) = r.
Proof.
  assert (Hp : String.prefix "" r = true) by (by destruct r).
  unfold Navigation.normalise, Navigation.stripLeading. cbn.
  rewrite Hp, ?Nat.sub_0_r. apply substring_all.
Qed.

Lemma addClass_elem (cls c : string) (classes : list string) :
  c ∈ Navigation.addClass cls classes ↔ c = cls ∨ c ∈ classes.
Proof.
  unfold Navigation.addClass. case_bool_decide as Hin.
  - split; [auto|]. intros [-> | H]; done.
  - rewrite elem_of_app, list_elem_of_singleton. tauto.
Qed.

Lemma visit_active (path : string) (link : Navigation.Link) :
  Navigation.href (Navigation.visit path link) = Navigation.href link ∧
  (∀ c, c ∈ Navigation.linkClasses (Navigation.visit path link) ↔
     c ∈ Navigation.linkClasses link ∨
     (c = "active" ∧ ∃ h, Navigation.href link = Some h ∧ h ≠ "" ∧
        Props.endsIn path (Navigation.normalise h))).
Proof.
  unfold Navigation.visit. destruct (Navigation.href link) as [h|] eqn:Hh.
  - destruct (String.eqb h "") eqn:Hempty; cbn [negb andb].
    + apply String.eqb_eq in Hempty. rewrite Hh. split; [done|].
      intros c. split; [auto|]. intros [H | (_ & h' & [= <-] & Hne & _)]; done.
    + apply String.eqb_neq in Hempty.
      destruct (Js2.endsWith path (Navigation.normalise h)) eqn:Hends.
      * apply endsWith_endsIn in Hends. cbn. split; [done|].
        intros c. rewrite addClass_elem. split.
        -- intros [-> | H]; [right | by left]. split; [done|]. by exists h.
        -- intros [H | [-> _]]; auto.
      * rewrite Hh. split; [done|].
        intros c. split; [auto|]. intros [H | (_ & h' & [= <-] & _ & Hin)]; [done|].
        apply endsWith_endsIn in Hin. congruence.
  - rewrite Hh. split; [done|].
    intros c. split; [auto|]. intros [H | (_ & h' & [=] & _)]; done.
Qed.

(** X14. [Navigation.init] keeps every link and its [href], removes no
    class, and adds exactly the class "active", to exactly the links
    whose [href] is non-empty and, once one leading "../" and then one
    leading "./" are dropped, ends the path of the page.  The test is on
    text, so a link to "./" (which normalises to the empty text) is
    marked on every page. *)
Theorem navigation_active (path : string) (links : list Navigation.Link)
    (i : nat) (link : Navigation.Link) :
  links !! i = Some link →
  length (Navigation.init path links) = length links ∧
  ∃ link', Navigation.init path links !! i = Some link' ∧
    Navigation.href link' = Navigation.href link ∧
    (∀ c, c ∈ Navigation.linkClasses link' ↔
       c ∈ Navigation.linkClasses link ∨
       (c = "active" ∧ ∃ h, Navigation.href link = Some h ∧ h ≠ "" ∧
          Props.endsIn path (Navigation.normalise h))) ∧
    (∀ r, Navigation.href link = Some ("./" +:+ r) →
       Props.endsIn path r → "active" ∈ Navigation.linkClasses link') ∧
    (Navigation.href link = Some "./" ∨ Navigation.href link = Some "../" →
       "active" ∈ Navigation.linkClasses link').
Proof.
  intros Hi. unfold Navigation.init. split; [apply length_map|].
  exists (Navigation.visit path link).
  rewrite list_lookup_fmap, Hi.
  destruct (visit_active path link) as [Hhref Hcls].
  split; [done|]. split; [exact Hhref|]. split; [exact Hcls|]. split.
  - intros r Hr Hends. apply Hcls. right. split; [done|].
    exists ("./" +:+ r). split; [exact Hr|]. split; [done|].
    by rewrite normalise_dot.
  - intros [H | H]; apply Hcls; right; (split; [done|]); eexists;
      (split; [exact H|]); (split; [done|]); exists path;
      vm_compute; by rewrite str_app_nil_r.
Qed.

Lemma navigation_active_witness :
  "active" ∈ Navigation.linkClasses
    (default (Navigation.mkLink None [])
       (Navigation.init "/tools/hash.html"
          [Navigation.mkLink (Some "../tools/hash.html") ["nav-link"];
           Navigation.mkLink (Some "ash.html") ["nav-link"];
           Navigation.mkLink (Some "../index.html") ["nav-link"]] !! 1%nat)).
Proof.
  destruct (navigation_active "/tools/hash.html"
     [Navigation.mkLink (Some "../tools/hash.html") ["nav-link"];
      Navigation.mkLink (Some "ash.html") ["nav-link"];
      Navigation.mkLink (Some "../index.html") ["nav-link"]] 1
     (Navigation.mkLink (Some "ash.html") ["nav-link"]) eq_refl)
    as (_ & link' & Hlook & _ & Hcls & _).
  rewrite Hlook. cbn [default from_option id]. apply Hcls. right.
  split; [reflexivity|]. exists "ash.html". split; [reflexivity|].
  split; [discriminate|]. exists "/tools/h". reflexivity.
Defined.

(** ** Clipboard *)

Lemma filter_fresh (l : list nat) (n : nat) :
  Forall (λ m, (m < n)%nat) l → filter (λ m, m ≠ n) (l ++ [n]) = l.
Proof.
  intros Hl. rewrite filter_app.
  rewrite (filter_cons_False _ n []) by (intros H; by apply H).
  rewrite filter_nil, app_nil_r.
  induction Hl as [|m l Hm Hl IH]; [done|].
  rewrite filter_cons_True by lia. by rewrite IH.
Qed.

Lemma removeClass_elem (cls c : string) (classes : list string) :
  c ∈ Clipboard.removeClass cls classes ↔ c ≠ cls ∧ c ∈ classes.
Proof. unfold Clipboard.removeClass. by rewrite list_elem_of_filter. Qed.

(** X15. [Clipboard.copy] never rejects.  It yields [false] exactly
    when [writeText] failed and [execCommand] threw; a [false] returned
    by [execCommand] is not looked at and counts as success.  In every
    case the body has the children it had before (the textarea of the
    fallback is taken out again), and the button shows the success
    state exactly when the result is [true]. *)
Theorem copy_result (writeText : string → completion unit)
    (execCommand : completion bool) (text : string) (st : Clipboard.State) :
  Forall (λ n, (n < Clipboard.nextNode st)%nat) (Clipboard.body st) →
  ∃ b st', Clipboard.copy writeText execCommand text st = (Normal b, st') ∧
    (b = false ↔ (∃ e, writeText text = Throw e) ∧ (∃ e, execCommand = Throw e)) ∧
    Clipboard.body st' = Clipboard.body st ∧
    (if b
     then Clipboard.button st' = Clipboard.button (Clipboard.showSuccess st) ∧
          Clipboard.timers st' = Clipboard.timers (Clipboard.showSuccess st) ∧
          Clipboard.console st' = Clipboard.console st
     else Clipboard.button st' = Clipboard.button st ∧
          Clipboard.timers st' = Clipboard.timers st ∧
          Clipboard.console st' = Clipboard.console st ++ ["Copy failed:"]).
Proof.
  intros Hbody. unfold Clipboard.copy.
  destruct (writeText text) as [[]|e] eqn:Hwrite.
  - eexists _, _. split; [reflexivity|]. split.
    + split; [discriminate|]. by intros [[e' [=]] _].
    + unfold Clipboard.showSuccess.
      destruct (Clipboard.button st) eqn:Hbtn; cbn; by rewrite ?Hbtn.
  - destruct execCommand as [ok|e'] eqn:Hexec.
    + eexists _, _. split; [reflexivity|]. split.
      * split; [discriminate|]. by intros [_ [e'' [=]]].
      * unfold Clipboard.showSuccess. cbn.
        destruct (Clipboard.button st) eqn:Hbtn; cbn;
          by rewrite (filter_fresh _ _ Hbody), ?Hbtn.
    + eexists _, _. split; [reflexivity|]. split.
      * split; [|done]. intros _. split; eauto.
      * cbn. by rewrite (filter_fresh _ _ Hbody).
Qed.

Lemma copy_result_witness :
  ∃ st', Clipboard.copy (fun _ : string => Throw (Error "NotAllowedError")) (Normal false) "text"
           (Clipboard.mkState 3 [0; 1; 2]%nat (Some (mkElement "Copy" ["btn"])) [] [])
         = (Normal true, st') ∧
         Clipboard.body st' = [0; 1; 2]%nat.
Proof.
  destruct (copy_result (fun _ : string => Throw (Error "NotAllowedError")) (Normal false) "text"
              (Clipboard.mkState 3 [0; 1; 2]%nat (Some (mkElement "Copy" ["btn"])) [] []))
    as (b & st' & Hcopy & Hb & Hbody & _).
  - cbn. repeat constructor.
  - exists st'. destruct b.
    + split; [exact Hcopy | exact Hbody].
    + destruct Hb as [Hb _]. destruct (Hb eq_refl) as [_ [e He]]. discriminate He.
Defined.



(** ** FileUpload *)

Section FileUploadExtras.

Variable formatSize : Z → string.
Variable readAsArrayBuffer : FileUpload.File → completion (list Z).
Variable onFile : option (FileUpload.File → list Z → completion unit).
Variable onError : option (JsError → completion unit).

Lemma reportError_state (e : JsError) (st : FileUpload.State) :
  let st' := (FileUpload.reportError onError e st).2 in
  FileUpload.file st' = FileUpload.file st ∧
  FileUpload.fileData st' = FileUpload.fileData st ∧
  FileUpload.reads st' = FileUpload.reads st ∧
  FileUpload.dropZoneClasses st' = FileUpload.dropZoneClasses st ∧
  FileUpload.fileInfoClasses st' = FileUpload.fileInfoClasses st ∧
  FileUpload.fileNameText st' = FileUpload.fileNameText st ∧
  FileUpload.errorEl st' = FileUpload.errorEl st ∧
  FileUpload.calls st'
    = FileUpload.calls st ++
      match onError with Some _ => [FileUpload.OnError e] | None => [] end.
Proof.
  unfold FileUpload.reportError. destruct onError; cbn; repeat split.
  by rewrite app_nil_r.
Qed.

Lemma showError_shown (message : string) (st : FileUpload.State) :
  ∃ el, FileUpload.errorEl (FileUpload.showError message st) = Some (el, message).
Proof.
  unfold FileUpload.showError.
  destruct (FileUpload.errorEl st) as [[el m]|]; cbn; eauto.
Qed.

(** X17. [handleFile] rejects a file exactly when its size is above
    [maxSize] (a file of exactly [maxSize] is accepted).  A rejected file
    is never read and leaves the selected file, its data and the display
    as they were; the size message is shown and passed to [onError], if
    there is one. *)
Theorem handleFile_oversize (f : FileUpload.File) (st : FileUpload.State) :
  FileUpload.maxSize st < FileUpload.size f →
  let st' :=
    (FileUpload.handleFile formatSize readAsArrayBuffer onFile onError f st).2 in
  FileUpload.getFile st' = FileUpload.getFile st ∧
  FileUpload.getData st' = FileUpload.getData st ∧
  FileUpload.reads st' = FileUpload.reads st ∧
  FileUpload.dropZoneClasses st' = FileUpload.dropZoneClasses st ∧
  FileUpload.fileInfoClasses st' = FileUpload.fileInfoClasses st ∧
  FileUpload.fileNameText st' = FileUpload.fileNameText st ∧
  (∃ el, FileUpload.errorEl st'
         = Some (el, FileUpload.sizeError formatSize f st)) ∧
  FileUpload.calls st'
    = FileUpload.calls st ++
      match onError with
      | Some _ => [FileUpload.OnError (Error (FileUpload.sizeError formatSize f st))]
      | None => []
      end.
Proof.
  intros Hsize st'. subst st'. unfold FileUpload.handleFile.
  apply Z.ltb_lt in Hsize. rewrite Hsize.
  pose proof (reportError_state (Error (FileUpload.sizeError formatSize f st))
                (FileUpload.showError (FileUpload.sizeError formatSize f st) st))
    as (H1 & H2 & H3 & H4 & H5 & H6 & H7 & H8).
  unfold FileUpload.getFile, FileUpload.getData.
  rewrite H1, H2, H3, H4, H5, H6, H7, H8.
  repeat split; try (unfold FileUpload.showError;
                     destruct (FileUpload.errorEl st) as [[? ?]|]; reflexivity).
  apply showError_shown.
Qed.

(** X18. A file no larger than [maxSize] becomes the selected file
    before it is read, and is read once.  When the read fails the data of
    the file selected before stays in place, so [getFile] and [getData]
    then speak of different files, and [onFile] is not called.  When the
    read succeeds the data is stored; an exception of [onFile] is then
    reported as "Failed to read file". *)
Theorem handleFile_accepted (f : FileUpload.File) (st : FileUpload.State) :
  FileUpload.size f ≤ FileUpload.maxSize st →
  let st' :=
    (FileUpload.handleFile formatSize readAsArrayBuffer onFile onError f st).2 in
  FileUpload.getFile st' = Some f ∧
  FileUpload.reads st' = FileUpload.reads st ++ [f] ∧
  FileUpload.fileNameText st' = FileUpload.name f ∧
  "hidden" ∈ FileUpload.dropZoneClasses st' ∧
  ("hidden" ∉ FileUpload.fileInfoClasses st') ∧
  match readAsArrayBuffer f with
  | Normal data =>
      FileUpload.getData st' = Some data ∧
      FileUpload.getBytes st' = Some data ∧
      (onFile = None → FileUpload.errorEl st' = FileUpload.errorEl st) ∧
      (∀ handler err, onFile = Some handler → handler f data = Throw err →
         ∃ el, FileUpload.errorEl st' = Some (el, "Failed to read file"))
  | Throw err =>
      FileUpload.getData st' = FileUpload.getData st ∧
      (∃ el, FileUpload.errorEl st' = Some (el, "Failed to read file")) ∧
      FileUpload.calls st'
        = FileUpload.calls st ++
          match onError with Some _ => [FileUpload.OnError err] | None => [] end
  end.
Proof.
  intros Hsize st'. subst st'. unfold FileUpload.handleFile.
  apply Z.ltb_ge in Hsize. rewrite Hsize.
  assert (Hhidden : "hidden" ∈ Navigation.addClass "hidden" (FileUpload.dropZoneClasses st))
    by (apply addClass_elem; by left).
  assert (Hshown : "hidden" ∉ Clipboard.removeClass "hidden" (FileUpload.fileInfoClasses st))
    by (rewrite removeClass_elem; by intros [H _]).
  unfold FileUpload.getFile, FileUpload.getData, FileUpload.getBytes.
  destruct (readAsArrayBuffer f) as [data|err].
  - destruct onFile as [handler|].
    + destruct (handler f data) as [[]|err] eqn:Hhandler.
      * cbn. repeat split; try done.
        intros h err [= <-] Hthrow. congruence.
      * match goal with
        | |- context [FileUpload.reportError onError err ?s] =>
            pose proof (reportError_state err s) as (H1 & H2 & H3 & H4 & H5 & H6 & H7 & _)
        end.
        rewrite H1, H2, H3, H4, H5, H6, H7.
        unfold FileUpload.showError; cbn.
        destruct (FileUpload.errorEl st) as [[el m]|]; cbn;
          (repeat split; try done); intros; eauto.
    + cbn. repeat split; try done.
  - match goal with
    | |- context [FileUpload.reportError onError err ?s] =>
        pose proof (reportError_state err s) as (H1 & H2 & H3 & H4 & H5 & H6 & H7 & H8)
    end.
    rewrite H1, H2, H3, H4, H5, H6, H7, H8.
    unfold FileUpload.showError; cbn.
    destruct (FileUpload.errorEl st) as [[el m]|]; cbn;
      (repeat split; try done); eauto.
Qed.

End FileUploadExtras.

Lemma handleFile_oversize_witness :
  FileUpload.getFile
    (FileUpload.handleFile (λ _, "size") (λ _, Normal [1; 2]) None None
       (FileUpload.mkFile "big.bin" 11)
       (FileUpload.mkState 10 None None "" [] ["hidden"] "" "" 0 None [] [] [])).2
  = None.
Proof.
  destruct (handleFile_oversize (λ _, "size") (λ _, Normal [1; 2]) None None
              (FileUpload.mkFile "big.bin" 11)
              (FileUpload.mkState 10 None None "" [] ["hidden"] "" "" 0 None [] [] []))
    as [Hfile _].
  - cbn. lia.
  - exact Hfile.
Defined.

Lemma handleFile_accepted_witness :
  FileUpload.getFile
    (FileUpload.handleFile (λ _, "size") (λ _, Throw (Error "NotReadableError"))
       None None (FileUpload.mkFile "b.bin" 10)
       (FileUpload.mkState 10 (Some (FileUpload.mkFile "a.bin" 2)) (Some [1; 2]) ""
          ["hidden"] [] "a.bin" "size" 0 None [] [] [])).2
  = Some (FileUpload.mkFile "b.bin" 10) ∧
  FileUpload.getData
    (FileUpload.handleFile (λ _, "size") (λ _, Throw (Error "NotReadableError"))
       None None (FileUpload.mkFile "b.bin" 10)
       (FileUpload.mkState 10 (Some (FileUpload.mkFile "a.bin" 2)) (Some [1; 2]) ""
          ["hidden"] [] "a.bin" "size" 0 None [] [] [])).2
  = Some [1; 2].
Proof.
  destruct (handleFile_accepted (λ _, "size") (λ _, Throw (Error "NotReadableError"))
              None None (FileUpload.mkFile "b.bin" 10)
              (FileUpload.mkState 10 (Some (FileUpload.mkFile "a.bin" 2)) (Some [1; 2]) ""
                 ["hidden"] [] "a.bin" "size" 0 None [] [] []))
    as (Hfile & _ & _ & _ & _ & Hdata & _).
  - cbn. lia.
  - split; [exact Hfile | exact Hdata].
Defined.

(** X19. [showError] on a component that shows no error: the timer of
    a single error removes it.  A second error shown before that timer
    has fired reuses the element, so the timer of the first error removes
    the second one early, while the timer of the second is still
    pending; that leftover timer does not touch the element of a later
    error. *)
Theorem showError_overlap (m1 m2 m3 : string) (st : FileUpload.State) :
  FileUpload.errorEl st = None →
  FileUpload.errorTimers st = [] →
  let st1 := FileUpload.showError m1 st in
  let st2 := FileUpload.showError m2 st1 in
  FileUpload.errorEl (FileUpload.fireErrorTimer st1) = None ∧
  FileUpload.errorTimers (FileUpload.fireErrorTimer st1) = [] ∧
  (∃ el, FileUpload.errorEl st1 = Some (el, m1) ∧
         FileUpload.errorEl st2 = Some (el, m2)) ∧
  FileUpload.errorEl (FileUpload.fireErrorTimer st2) = None ∧
  length (FileUpload.errorTimers (FileUpload.fireErrorTimer st2)) = 1%nat ∧
  ∃ el, FileUpload.errorEl
          (FileUpload.fireErrorTimer
             (FileUpload.showError m3 (FileUpload.fireErrorTimer st2)))
        = Some (el, m3).
Proof.
  intros Hel Htimers.
  destruct st as [ms fl fd iv dz fi fn fs next el timers calls reads].
  cbn in Hel, Htimers. subst el timers.
  cbn. rewrite !Nat.eqb_refl. cbn.
  replace (next =? S next)%nat with false by (symmetry; apply Nat.eqb_neq; lia).
  repeat split; eauto.
Qed.

Lemma showError_overlap_witness :
  FileUpload.errorEl
    (FileUpload.fireErrorTimer
       (FileUpload.showError "second"
          (FileUpload.showError "first"
             (FileUpload.mkState 10 None None "" [] ["hidden"] "" "" 0 None [] [] []))))
  = None.
Proof.
  destruct (showError_overlap "first" "second" "third"
              (FileUpload.mkState 10 None None "" [] ["hidden"] "" "" 0 None [] [] [])
              eq_refl eq_refl)
    as (_ & _ & _ & Hgone & _).
  exact Hgone.
Defined.

(** ** Utils.debounce *)

Lemma executedFunction_pending {A} (args : A) (st : Debounce.State A) :
  Props.oneTimer st →
  Debounce.pending (Debounce.executedFunction args st)
    = {[ Debounce.nextTimer st := args ]}.
Proof.
  unfold Debounce.executedFunction, Debounce.clearTimeout. cbn.
  intros [Hp | (id & a & Hp & Ht)]; rewrite Hp.
  - destruct (Debounce.timeout st); by rewrite ?delete_empty, insert_empty.
  - by rewrite Ht, delete_singleton_eq, insert_empty.
Qed.

Lemma fire_pending {A} (id : nat) (st : Debounce.State A) :
  Props.oneTimer st →
  Debounce.fire id st = st ∨
  ∃ args, Debounce.pending st = {[ id := args ]} ∧
    Debounce.pending (Debounce.fire id st) = ∅ ∧
    Debounce.invoked (Debounce.fire id st) = Debounce.invoked st ++ [args].
Proof.
  unfold Debounce.fire.
  intros [Hp | (id' & a & Hp & Ht)]; rewrite Hp.
  - left. by rewrite lookup_empty.
  - destruct (decide (id' = id)) as [-> | Hne].
    + right. exists a. rewrite lookup_singleton_eq, Ht. cbn.
      by rewrite delete_singleton_eq, delete_empty.
    + left. by rewrite (lookup_singleton_ne id' id a Hne).
Qed.

Lemma step_oneTimer {A} (st : Debounce.State A) (e : Debounce.event A) :
  Props.oneTimer st → Props.oneTimer (Debounce.step st e).
Proof.
  intros Hinv. destruct e as [args | id]; cbn [Debounce.step].
  - right. exists (Debounce.nextTimer st), args.
    split; [by apply executedFunction_pending | reflexivity].
  - destruct (fire_pending id st Hinv) as [-> | (a & _ & Hp & _)]; [exact Hinv|].
    by left.
Qed.

Lemma run_oneTimer {A} (es : list (Debounce.event A)) (st : Debounce.State A) :
  Props.oneTimer st → Props.oneTimer (Debounce.run es st).
Proof.
  revert st. induction es as [|e es IH]; intros st Hinv; [exact Hinv|].
  apply (IH (Debounce.step st e)). by apply step_oneTimer.
Qed.

Lemma run_calls_invoked {A} (argss : list A) (st : Debounce.State A) :
  Debounce.invoked (Debounce.run (map Debounce.Call argss) st) = Debounce.invoked st.
Proof.
  revert st. induction argss as [|a argss IH]; intros st; [reflexivity|].
  cbn. unfold Debounce.run in IH. by rewrite IH.
Qed.

(** X20. A function made by [Utils.debounce] has at most one timer
    pending, whatever calls and timer events came before.  After a burst
    of calls with no timer firing in between, the one pending timer is
    that of the last call: when it fires the wrapped function is called
    once, with the arguments of the last call, and nothing stays pending;
    the timers of the earlier calls of the burst do nothing. *)
Theorem debounce_last {A} (nextTimer : nat) (es : list (Debounce.event A))
    (argss : list A) (args : A) :
  let st := Debounce.run es (Debounce.debounce nextTimer) in
  let st' := Debounce.run (map Debounce.Call (argss ++ [args])) st in
  Props.oneTimer st ∧
  ∃ id, Debounce.pending st' = {[ id := args ]} ∧
    Debounce.timeout st' = Some id ∧
    Debounce.invoked st' = Debounce.invoked st ∧
    Debounce.invoked (Debounce.fire id st') = Debounce.invoked st ++ [args] ∧
    Debounce.pending (Debounce.fire id st') = ∅ ∧
    ∀ id', id' ≠ id → Debounce.fire id' st' = st'.
Proof.
  intros st st'.
  assert (Hst : Props.oneTimer st).
  { apply run_oneTimer. by left. }
  split; [exact Hst|].
  assert (Hinv' : Debounce.invoked st' = Debounce.invoked st)
    by apply run_calls_invoked.
  set (st1 := Debounce.run (map Debounce.Call argss) st).
  assert (Hsnoc : st' = Debounce.executedFunction args st1).
  { subst st' st1. unfold Debounce.run. by rewrite map_app, foldl_app. }
  clearbody st'. subst st'.
  assert (Hst1 : Props.oneTimer st1) by by apply run_oneTimer.
  pose proof (executedFunction_pending args st1 Hst1) as Hp.
  exists (Debounce.nextTimer st1).
  split; [exact Hp|]. split; [reflexivity|]. split; [exact Hinv'|].
  unfold Debounce.fire. rewrite Hp, lookup_singleton_eq.
  split; [cbn; by rewrite <- Hinv'|]. split.
  - cbn. by rewrite delete_singleton_eq, delete_empty.
  - intros id' Hne.
    by rewrite (lookup_singleton_ne (Debounce.nextTimer st1) id' args (not_eq_sym Hne)).
Qed.

Lemma debounce_last_witness :
  Debounce.invoked
    (Debounce.run [Debounce.Call "a"; Debounce.Call "ab"; Debounce.Call "abc";
                   Debounce.Fire 0; Debounce.Fire 1; Debounce.Fire 2]%nat
       (Debounce.debounce 0))
  = ["abc"].
Proof.
  destruct (debounce_last 0 [] ["a"; "ab"] "abc")
    as (_ & id & Hp & Ht & _ & Hfire & _).
  injection Ht as <-. exact Hfire.
Defined.

(** ** HexView.render outside the [uint] configurations *)

Section RenderSigns.

Variable formatSize : Z → string.


End RenderSigns.


(** ** UUID.v4 and the random source *)

Lemma imap_replicate {A B : Type} (f : nat → A → B) (n : nat) (x : A) :
  imap f (replicate n x) = map (λ i, f i x) (seq 0 n).
Proof.
  revert f. induction n as [|n IH]; intros f; [reflexivity|].
  cbn. f_equal. rewrite IH. by rewrite <- seq_shift, map_map.
Qed.

Lemma stamp_low_bits (x : Z) :
  is_byte x →
  Js.ToUint8 (Some (Z.lor (Z.land x 0x0f) 0x40)) = x mod 16 + 64
  ∧ Js.ToUint8 (Some (Z.lor (Z.land x 0x3f) 0x80)) = x mod 64 + 128.
Proof.
  intros Hx.
  pose (check := λ x : Z,
    (Js.ToUint8 (Some (Z.lor (Z.land x 0x0f) 0x40)) =? x mod 16 + 64)
    && (Js.ToUint8 (Some (Z.lor (Z.land x 0x3f) 0x80)) =? x mod 64 + 128)).
  assert (Hall : check x = true)
    by (revert x Hx; apply byte_forall; vm_compute; reflexivity).
  unfold check in Hall. apply andb_prop in Hall as [H1 H2].
  split; by apply Z.eqb_eq.
Qed.

(** X22. [UUID.v4] draws exactly sixteen values from the random source,
    and the UUID it returns carries them: parsed back, every byte is the
    value drawn for it (as a byte), except that byte 6 keeps only its low
    four bits under the version nibble 4 and byte 8 only its low six bits
    under the variant bits 10. *)
Theorem v4_random_bits (w : World) :
  ∃ u w' bytes,
    UUID.v4 w = (Normal u, w')
    ∧ randomPos w' = (randomPos w + 16)%nat
    ∧ randomSource w' = randomSource w
    ∧ CryptoJS w' = CryptoJS w
    ∧ UUID.parse u = Normal bytes
    ∧ length bytes = 16%nat
    ∧ ∀ i, (i < 16)%nat →
        let r := randomSource w (randomPos w + i)%nat mod 256 in
        bytes !! i = Some (if (i =? 6)%nat then r mod 16 + 64
                           else if (i =? 8)%nat then r mod 64 + 128
                           else r).
Proof.
  set (r := λ i : nat, Js.ToUint8 (Some (randomSource w (randomPos w + i)%nat))).
  set (raw := map r (seq 0 16)).
  assert (Hrun : getRandomBytes 16 w
                 = (Normal raw,
                    mkWorld (randomSource w) (randomPos w + 16)%nat (CryptoJS w))).
  { unfold getRandomBytes, getRandomValues, Js.newUint8Array.
    rewrite imap_replicate. reflexivity. }
  assert (Hok : bytes_ok raw).
  { unfold raw. cbn [seq map]. solve_bytes_ok. }
  assert (Hat6 : Js.at_ raw 6 = r 6%nat) by reflexivity.
  destruct (stamp_low_bits (r 6%nat) (ToUint8_byte (Some _))) as [H6 _].
  set (b6 := UUID.store raw 6 (Z.lor (Z.land (Js.at_ raw 6) 0x0f) 0x40)).
  assert (Hat8 : Js.at_ b6 8 = r 8%nat) by reflexivity.
  destruct (stamp_low_bits (r 8%nat) (ToUint8_byte (Some _))) as [_ H8].
  set (b8 := UUID.store b6 8 (Z.lor (Z.land (Js.at_ b6 8) 0x3f) 0x80)).
  assert (Hb8 : b8 = [r 0%nat; r 1%nat; r 2%nat; r 3%nat; r 4%nat; r 5%nat;
                      r 6%nat mod 16 + 64; r 7%nat; r 8%nat mod 64 + 128;
                      r 9%nat; r 10%nat; r 11%nat; r 12%nat; r 13%nat;
                      r 14%nat; r 15%nat]).
  { unfold b8, UUID.store. rewrite Hat8, H8.
    unfold b6, UUID.store. rewrite Hat6, H6. reflexivity. }
  assert (Hok8 : bytes_ok b8).
  { rewrite Hb8.
    pose proof (ToUint8_byte (Some (randomSource w (randomPos w + 6)%nat))) as B6.
    pose proof (ToUint8_byte (Some (randomSource w (randomPos w + 8)%nat))) as B8.
    fold (r 6%nat) in B6. fold (r 8%nat) in B8. unfold is_byte in B6, B8.
    repeat (apply List.Forall_cons;
            [first [apply (ToUint8_byte (Some _))
                   | unfold is_byte; clear -B6 B8; Z.div_mod_to_equations; lia]|]).
    apply List.Forall_nil. }
  exists (UUID.format b8), (mkWorld (randomSource w) (randomPos w + 16)%nat (CryptoJS w)), b8.
  split; [unfold UUID.v4, bind; rewrite Hrun; reflexivity|].
  split; [reflexivity|]. split; [reflexivity|]. split; [reflexivity|].
  split; [apply parse_format; [by rewrite Hb8 | exact Hok8]|].
  split; [by rewrite Hb8|].
  intros i Hi. rewrite Hb8.
  do 16 (destruct i as [|i]; [reflexivity|]). lia.
Qed.

(** ** Upper-case hex *)

Lemma byte_parse_upper (b : Z) :
  is_byte b → Js.ToUint8 (Js.parseInt (Js.toUpperCase (Spec.hexPair b)) 16) = b.
Proof.
  intros Hb. apply Z.eqb_eq. revert b Hb.
  apply (byte_forall
           (λ b, Z.eqb (Js.ToUint8 (Js.parseInt (Js.toUpperCase (Spec.hexPair b)) 16)) b)).
  vm_compute. reflexivity.
Qed.

Lemma toUpperCase_length (s : string) :
  String.length (Js.toUpperCase s) = String.length s.
Proof. induction s as [|c s IH]; cbn; [done|]. by rewrite IH. Qed.

Lemma pairAt_upper_hexOf (bs : list Z) (k : nat) (b : Z) :
  bs !! k = Some b →
  Spec.pairAt (Js.toUpperCase (Spec.hexOf bs)) k = Js.toUpperCase (Spec.hexPair b).
Proof.
  unfold Spec.pairAt, Js.substr.
  revert k. induction bs as [|x bs IH]; intros k Hk; [done|].
  destruct k as [|k].
  - injection Hk as ->. simpl. by destruct (Js.toUpperCase (Spec.hexOf bs)).
  - replace (2 * S k)%nat with (S (S (2 * k))) by lia. simpl. by apply IH.
Qed.

Lemma hexToBytes_upper_hexOf (bs : list Z) :
  bytes_ok bs → Utils.hexToBytes (Js.toUpperCase (Spec.hexOf bs)) = Normal bs.
Proof.
  intros Hok. rewrite hexToBytes_decode. f_equal.
  unfold Js.len. rewrite toUpperCase_length, length_hexOf, half_double.
  apply list_eq. intros i. rewrite list_lookup_fmap.
  destruct (bs !! i) as [b|] eqn:Hb.
  - rewrite lookup_seq_lt by (by eapply lookup_lt_Some). simpl.
    unfold Spec.decodePair. rewrite (pairAt_upper_hexOf _ _ _ Hb). f_equal.
    apply byte_parse_upper. unfold bytes_ok in Hok.
    rewrite Forall_lookup in Hok. by eapply Hok.
  - rewrite lookup_seq_ge by (by apply lookup_ge_None). reflexivity.
Qed.

Lemma upperChar_dash (c : ascii) :
  Ascii.eqb (Js.upperChar c) "-" = Ascii.eqb c "-".
Proof.
  apply Bool.eqb_prop. revert c.
  apply (ascii_forall
           (λ c, Bool.eqb (Ascii.eqb (Js.upperChar c) "-") (Ascii.eqb c "-"))).
  vm_compute. reflexivity.
Qed.

Lemma removeDashes_upper (s : string) :
  UUID.removeDashes (Js.toUpperCase s) = Js.toUpperCase (UUID.removeDashes s).
Proof.
  induction s as [|c s IH]; [reflexivity|].
  cbn [Js.toUpperCase UUID.removeDashes]. rewrite upperChar_dash.
  destruct (Ascii.eqb c "-"); [exact IH|].
  cbn [Js.toUpperCase]. by rewrite IH.
Qed.

(** X23. Hex text in upper case decodes like lower case: what
    [bytesToHex] writes, put in upper case (as the hex view displays
    bytes), is read back by [hexToBytes] as the same bytes, and a UUID
    that [format] makes of sixteen bytes, put in upper case, is parsed
    back to them. *)
Theorem hex_uppercase_roundtrip (b : list Z) :
  bytes_ok b →
  Utils.hexToBytes (Js.toUpperCase (Utils.bytesToHex b)) = Normal b
  ∧ (length b = 16%nat →
     UUID.parse (Js.toUpperCase (UUID.format b)) = Normal b).
Proof.
  intros Hok. split.
  - rewrite (bytesToHex_hexOf b Hok). by apply hexToBytes_upper_hexOf.
  - intros Hlen. unfold UUID.parse.
    rewrite removeDashes_upper, (removeDashes_format b Hlen Hok).
    by apply hexToBytes_upper_hexOf.
Qed.

Lemma hex_uppercase_roundtrip_witness :
  Utils.hexToBytes (Js.toUpperCase (Utils.bytesToHex [0; 171; 255])) = Normal [0; 171; 255].
Proof.
  destruct (hex_uppercase_roundtrip [0; 171; 255]) as [H _].
  - repeat (apply List.Forall_cons; [unfold is_byte; lia|]). apply List.Forall_nil.
  - exact H.
Defined.
